(** * Type-beat video creator: job pipeline, renderer, publisher, metadata

    A shallow embedding of the four Python modules of the repository
    ([metadata_generator.py], [video_creator.py], [youtube_uploader.py],
    [main.py]) and the properties of their natural-language specification.

    Conventions of the embedding.
    - Python [dict]s with string keys are [gmap string _]; the set used for
      de-duplication is a [gset string].
    - The file system, the in-memory job table, the log of network requests
      and the number of clock readings form an explicit state; functions that
      touch them live in a state-and-exception monad, [try/except] is
      [try_catch], and an exception is the text of [str(e)].
    - Whatever the outside world decides (clock readings, exit codes of the
      external processes, HTTP responses, resampling filter, Unicode case
      mapping) is an oracle field of the record [Env].
    - A Python number is carried as its exact rational value ([Q]); the
      arithmetic of floats rounds it to the nearest binary64 value (module
      [Binary64]), and comparisons are exact, as Python's are. *)

From Stdlib Require Import QArith Qround Qabs Qpower Ascii String ZArith Lia Lqa.
From stdpp Require Import gmap strings list fin_maps pretty.
Close Scope Q_scope.
Open Scope string_scope.

(** ** Strings *)

Module Str.

(** The double-quote character, and one-character strings built from it. *)
Definition dquote : ascii := ascii_of_nat 34.
Definition newline : ascii := ascii_of_nat 10.
Definition dq : string := String dquote EmptyString.
Definition nl : string := String newline EmptyString.

(** [c in s] for a one-character needle. *)
Fixpoint contains_char (c : ascii) (s : string) : bool :=
  match s with
  | EmptyString => false
  | String a rest => if Ascii.eqb a c then true else contains_char c rest
  end.

(** [s.replace(c, by)] for a one-character pattern [c]; every call site of
    [str.replace] in the repository has a one-character pattern. *)
Fixpoint replace_char (c : ascii) (by_ : string) (s : string) : string :=
  match s with
  | EmptyString => EmptyString
  | String a rest =>
      if Ascii.eqb a c then by_ +:+ replace_char c by_ rest
      else String a (replace_char c by_ rest)
  end.

(** [sep.join(l)]. *)
Fixpoint join (sep : string) (l : list string) : string :=
  match l with
  | [] => ""
  | [x] => x
  | x :: rest => x +:+ sep +:+ join sep rest
  end.

(** [os.path.basename]: what follows the last slash. *)
Fixpoint basename_go (acc : string) (s : string) : string :=
  match s with
  | EmptyString => acc
  | String a rest =>
      if Ascii.eqb a "/"%char then basename_go rest rest
      else basename_go acc rest
  end.
Definition basename (s : string) : string := basename_go s s.

(** The directory part of a path: what precedes its last slash. *)
Fixpoint dirname (s : string) : string :=
  match s with
  | EmptyString => EmptyString
  | String a rest =>
      if contains_char "/" rest then String a (dirname rest)
      else EmptyString
  end.

(** A case mapping that is exact on ASCII; used to run the model on
    concrete inputs ([str.lower] itself is a parameter of the model). *)
Definition ascii_lower_char (a : ascii) : ascii :=
  let n := nat_of_ascii a in
  if (65 <=? n)%nat && (n <=? 90)%nat then ascii_of_nat (n + 32) else a.
Fixpoint ascii_lower (s : string) : string :=
  match s with
  | EmptyString => EmptyString
  | String a rest => String (ascii_lower_char a) (ascii_lower rest)
  end.

End Str.

(** ** metadata_generator.py *)

Module MetadataGenerator.

Record Metadata := mkMetadata {
  title : string;
  description : string;
  tags : list string
}.

(** The loop that removes duplicates while preserving order:
    [seen] is the Python set, [unique_tags] the list being appended to. *)
Fixpoint unique_loop (tags : list string) (seen : gset string)
    (unique_tags : list string) : list string :=
  match tags with
  | [] => unique_tags
  | tag :: rest =>
      if decide (tag ∈ seen) then unique_loop rest seen unique_tags
      else unique_loop rest ({[tag]} ∪ seen) (unique_tags ++ [tag])%list
  end.

Section WithLower.

(** Python's [str.lower] (full Unicode case mapping). *)
Variable lower : string -> string.

Definition _generate_tags (artist_type producer_name : string) : list string :=
  let artist_lower := lower artist_type in
  let producer_lower := lower producer_name in
  let tags := [
    producer_lower;
    artist_lower +:+ " type beat";
    "free " +:+ artist_lower +:+ " type beat";
    artist_lower +:+ " type beat 2025";
    "free " +:+ artist_lower +:+ " type beat 2025";
    "type beat";
    "free type beat";
    "type beat 2025";
    "free type beat 2025";
    "beat";
    "beats";
    "type beats";
    "free type beats";
    "instrumental";
    "free instrumental";
    "rap beat";
    "hip hop beat";
    "trap beat";
    "free beat";
    "beats to rap to";
    "rap instrumental"
  ] in
  let tags :=
    if Str.contains_char " " artist_type then
      let artist_nospace := lower (Str.replace_char " " "" artist_type) in
      (tags ++ [
        artist_nospace +:+ " type beat";
        "free " +:+ artist_nospace +:+ " type beat"
      ])%list
    else tags in
  take 50 (unique_loop tags ∅ []).

Definition _generate_description (artist_type beat_name purchase_link : string)
    (tags : list string) : string :=
  let tags_text := Str.join "," (take 20 tags) in
  let artist_hashtag :=
    Str.replace_char "-" "" (Str.replace_char " " "" (lower artist_type)) in
  let hashtags :=
    "#" +:+ artist_hashtag +:+ "typebeat #typebeat #freetypebeat #beats #instrumental" in
  let purchase_section :=
    if decide (purchase_link = "") then
      "💰 Purchase This Beat (Untagged) | [Add your beat store link]" +:+ Str.nl +:+ Str.nl
    else
      "💰 Purchase This Beat (Untagged) | " +:+ purchase_link +:+ Str.nl +:+ Str.nl in
  purchase_section +:+ Str.join Str.nl [
    "Connect with me:";
    "📧 Email | [Add your email]";
    "📱 Instagram | [Add your Instagram]";
    "💰 Beat Store | [Add your beat store]";
    "🎵 YouTube | [Add your YouTube channel]";
    "";
    "[FREE] " +:+ artist_type +:+ " Type Beat - " +:+ Str.dq +:+ beat_name +:+ Str.dq;
    "";
    "This is a FREE type beat inspired by " +:+ artist_type +:+
      "'s style. Perfect for artists looking for high-quality instrumentals to create their next hit!";
    "";
    "🎤 FREE FOR NON-PROFIT USE";
    "💰 Purchase a license for commercial use";
    "🎧 Download link in bio";
    "";
    "Tags: " +:+ tags_text;
    "";
    hashtags;
    "";
    "#music #hiphop #rap #producer #beatmaker #typebeats #freebeats"
  ].

Definition generate_metadata (artist_type beat_name purchase_link producer_name : string)
    : Metadata :=
  let title :=
    "[FREE] " +:+ artist_type +:+ " Type Beat - " +:+ Str.dq +:+ beat_name +:+ Str.dq in
  let tags := _generate_tags artist_type producer_name in
  let description := _generate_description artist_type beat_name purchase_link tags in
  {| title := title; description := description; tags := tags |}.

End WithLower.

End MetadataGenerator.

(** ** Python values and the state-and-exception monad *)

Module Py.

(** The values that occur in the JSON documents and dicts of the program;
    a number, an [int] or a finite [float], is given by its value. *)
Inductive json :=
| JNull
| JBool (b : bool)
| JNum (q : Q)
| JStr (s : string).

(** Truthiness, as tested by [if not x]. *)
Definition truthy (v : json) : bool :=
  match v with
  | JNull => false
  | JBool b => b
  | JNum q => negb (Qeq_bool q 0)
  | JStr s => negb (String.eqb s "")
  end.

(** The numeric reading used by arithmetic and comparison ([bool] is a
    subclass of [int]); [None] is a [TypeError]. *)
Definition as_num (v : json) : option Q :=
  match v with
  | JNum q => Some q
  | JBool b => Some (if b then 1%Q else 0%Q)
  | _ => None
  end.


(** [int(x)] of a float: truncation toward zero. *)
Definition int_of (q : Q) : Z := Z.quot (Qnum q) (Zpos (Qden q)).

(** [str(v)] as used by f-strings; the text of a number is left to the
    oracle [repr_num]. *)
Definition str (repr_num : Q -> string) (v : json) : string :=
  match v with
  | JNull => "None"
  | JBool true => "True"
  | JBool false => "False"
  | JNum q => repr_num q
  | JStr s => s
  end.

(** Outcome of a computation: a value, or an exception carrying [str(e)]. *)
Inductive Res (A : Type) :=
| Ok (a : A)
| Raise (msg : string).
Arguments Ok {A} a.
Arguments Raise {A} msg.

Definition M (S A : Type) : Type := S -> Res A * S.

Definition ret {S A} (a : A) : M S A := fun s => (Ok a, s).
Definition raise {S A} (msg : string) : M S A := fun s => (Raise msg, s).
Definition bind {S A B} (m : M S A) (k : A -> M S B) : M S B :=
  fun s => match m s with
           | (Ok a, s') => k a s'
           | (Raise e, s') => (Raise e, s')
           end.
(** [try: m except Exception as e: h(str(e))]; the state reached when the
    exception was raised is the one the handler starts from. *)
Definition try_catch {S A} (m : M S A) (h : string -> M S A) : M S A :=
  fun s => match m s with
           | (Ok a, s') => (Ok a, s')
           | (Raise e, s') => h e s'
           end.
Definition gets {S A} (f : S -> A) : M S A := fun s => (Ok (f s), s).
Definition modify {S} (f : S -> S) : M S unit := fun s => (Ok tt, f s).

(** [post m s Q]: running [m] from state [s] ends (with a value or an
    exception) in an outcome and a state that satisfy [Q]. *)
Definition post {S A} (m : M S A) (s : S) (Q : Res A -> S -> Prop) : Prop :=
  Q (fst (m s)) (snd (m s)).

End Py.

Export Py.

Declare Scope py_scope.
Delimit Scope py_scope with py.
Notation "'let*' x ':=' m 'in' k" := (Py.bind m (fun x => k))
  (at level 10, x name, m at level 100, k at level 200) : py_scope.
Notation "'let*' ' pat ':=' m 'in' k" :=
  (Py.bind m (fun x => match x with pat => k end))
  (at level 10, pat pattern, m at level 100, k at level 200) : py_scope.
Notation "m ';;' k" := (Py.bind m (fun _ => k))
  (at level 100, k at level 200, right associativity) : py_scope.
Open Scope py_scope.

(** ** Floats

    Python's [float] is IEEE 754 binary64. A finite float is carried as the
    rational it denotes; an operation computes exactly and then rounds to
    the nearest float, ties to the even significand, and overflows to an
    infinity. *)

Module Binary64.

Definition pow2 (k : Z) : Q := Qpower 2 k.

(** [floor (log2 |q|)] for [q] other than zero. *)
Definition ilog2 (q : Q) : Z :=
  let k := (Z.log2 (Z.abs (Qnum q)) - Z.log2 (Zpos (Qden q)))%Z in
  if Qle_bool (pow2 k) (Qabs q) then k else (k - 1)%Z.

(** The exponent of the last place of the floats around [q]: 53 significant
    bits, and never below that of the subnormals. *)
Definition ulp_exp (q : Q) : Z := Z.max (ilog2 q - 52) (-1074).

(** The nearest integer, ties to even. *)
Definition round_even (x : Q) : Z :=
  let f := Qfloor x in
  match (x - inject_Z f ?= 1 # 2)%Q with
  | Lt => f
  | Gt => (f + 1)%Z
  | Eq => if Z.even f then f else (f + 1)%Z
  end.

(** Rounding to 53 significant bits, the exponent not yet bounded above. *)
Definition nearest (q : Q) : Q :=
  if Qeq_bool q 0 then 0%Q
  else Qred (inject_Z (round_even (q / pow2 (ulp_exp q))) * pow2 (ulp_exp q))%Q.

Inductive double :=
| Finite (q : Q)
| Infinite (negative : bool).

(** The float nearest to [q]; what rounds to [2^1024] or beyond is an
    infinity. *)
Definition of_Q (q : Q) : double :=
  let r := nearest q in
  if Qle_bool (pow2 1024) (Qabs r) then Infinite (negb (Qle_bool 0 r)) else Finite r.

(** [q] is the value of a float. *)
Definition is_double (q : Q) : bool :=
  match of_Q q with
  | Finite r => Qeq_bool r q
  | Infinite _ => false
  end.

(** [a - b] for a float [a] and a number [b]: [b] is converted to a float
    first, which raises [OverflowError] ([None]) for an [int] beyond the
    range of the floats; the difference is rounded. *)
Definition sub (a b : Q) : option double :=
  match of_Q b with
  | Finite b' => Some (of_Q (a - b'))
  | Infinite _ => None
  end.

(** [x > q] for a float [x] and a number [q]: Python compares a float with
    a float or an [int] by their exact values. *)
Definition gtb (x : double) (q : Q) : bool :=
  match x with
  | Finite r => negb (Qle_bool r q)
  | Infinite negative => negb negative
  end.


End Binary64.

(** ** The outside world: files, images, processes, network *)

Module World.

Definition Pixel : Type := (Z * Z * Z)%type.
Definition black : Pixel := (0, 0, 0)%Z.

(** A decoded PIL image: mode, size and pixel data. *)
Record Image := mkImage {
  mode : string;
  width : Z;
  height : Z;
  pix : Z -> Z -> Pixel
}.

(** What a path of the file system holds: a JSON object, an image, or
    other bytes, of which only the number matters. *)
Inductive file :=
| FJson (d : gmap string json)
| FImage (img : Image)
| FData (size : N).

(** The JSON body of the upload-initiation request. *)
Record InitData := mkInitData {
  snippet_title : string;
  snippet_description : string;
  snippet_tags : list string;
  snippet_categoryId : string;
  status_privacyStatus : string
}.

Inductive Body :=
| BodyForm (data : gmap string json)
| BodyJson (init_data : InitData)
| BodyBytes (payload : file).

Record Request := mkRequest {
  method : string;
  url : string;
  headers : gmap string string;
  body : Body
}.

(** An HTTP answer; header names are in lower case (the header mapping of
    the client is case-insensitive). *)
Record Response := mkResponse {
  status : Z;
  resp_headers : gmap string string;
  text : string;
  (** [None]: [response.json()] raises. *)
  json_body : option (gmap string json)
}.

Inductive HttpOutcome :=
| HttpFail (msg : string)
| HttpResp (r : Response).

(** [ffprobe]: the process could not be started, or it exited with
    [returncode]; [parsed] is what
    [float(json.loads(stdout)['format']['duration'])] evaluates to, the
    text of its exception on the left. *)
Inductive ProbeOutcome :=
| ProbeSpawnFail (msg : string)
| ProbeExit (returncode : Z) (stderr : string) (parsed : string + Q).

(** [ffmpeg]: [written = Some n] when the process leaves [n] bytes at the
    output path, [None] when it leaves the path as it was. *)
Inductive EncodeOutcome :=
| EncodeSpawnFail (msg : string)
| EncodeExit (returncode : Z) (stderr : string) (written : option N).

(** Everything the environment decides. *)
Record Env := mkEnv {
  str_lower : string -> string;
  repr_num : Q -> string;
  getenv : string -> option string;
  clock : nat -> Q;
  convert_rgb : Image -> Z -> Z -> Pixel;
  lanczos : Image -> Z -> Z -> Z -> Z -> Pixel;
  stored_size : file -> N;
  ffprobe : gmap string file -> list string -> ProbeOutcome;
  ffmpeg : gmap string file -> list string -> EncodeOutcome;
  http : list Request -> Request -> HttpOutcome;
  (** [open(path, "w")]: [None] when the path can be opened for writing,
      or the text of the [OSError] (the directory of the path does not
      exist, the name is not one the file system takes). *)
  open_error : string -> option string
}.

(** The state the renderer and the publisher act on. *)
Record Sys := mkSys {
  fs : gmap string file;
  log : list Request;
  ticks : nat
}.

Definition set_fs (f : gmap string file -> gmap string file) (s : Sys) : Sys :=
  {| fs := f (fs s); log := log s; ticks := ticks s |}.

(** [os.path.exists]. *)
Definition path_exists (path : string) : M Sys bool :=
  gets (fun s => bool_decide (is_Some (fs s !! path))).

(** [os.remove] of a path known to exist. *)
Definition remove (path : string) : M Sys unit :=
  modify (set_fs (delete path)).

(** A write that goes through: to the file that has just been read, to
    the scratch directory of the renderer, or by the encoder. *)
Definition write_file (path : string) (f : file) : M Sys unit :=
  modify (set_fs (insert path f)).

(** [with open(path, "w") as f: f.write(...)]: the file is written when
    the path can be opened, and nothing is when [open] raises. *)
Definition create_file (E : Env) (path : string) (f : file) : M Sys unit :=
  match open_error E path with
  | None => write_file path f
  | Some msg => raise msg
  end.

(** [open(path)]: the file, or [FileNotFoundError]. *)
Definition read_file (path : string) : M Sys file :=
  fun s => match fs s !! path with
           | Some f => (Ok f, s)
           | None => (Raise ("[Errno 2] No such file or directory: '" +:+ path +:+ "'"), s)
           end.

(** [os.path.getsize] of an existing file. *)
Definition file_size (E : Env) (f : file) : N :=
  match f with
  | FData n => n
  | _ => stored_size E f
  end.

(** [datetime.now().timestamp()], a float. *)
Definition now (E : Env) : M Sys Q :=
  fun s => (Ok (clock E (ticks s)),
            {| fs := fs s; log := log s; ticks := S (ticks s) |}).

(** One HTTP exchange: the request is appended to the log; the answer may
    depend on every request sent before. *)
Definition send (E : Env) (r : Request) : M Sys Response :=
  fun s =>
    let s' := {| fs := fs s; log := (log s ++ [r])%list; ticks := ticks s |} in
    match http E (log s) r with
    | HttpResp resp => (Ok resp, s')
    | HttpFail msg => (Raise msg, s')
    end.

(** [await response.json()]. *)
Definition response_json {S} (r : Response) : M S (gmap string json) :=
  match json_body r with
  | Some d => ret d
  | None => raise "Attempt to decode JSON with unexpected mimetype"
  end.

(** [d[k]]: the value, or [KeyError]. *)
Definition getitem {S} (d : gmap string json) (k : string) : M S json :=
  match d !! k with
  | Some v => ret v
  | None => raise ("'" +:+ k +:+ "'")
  end.

End World.

Export World.

(** ** video_creator.py *)

Module VideoCreator.

(** The result dict of the renderer: [{"success": True, ...}] or
    [{"success": False, "error": ...}]. *)
Inductive RenderResult :=
| RenderOk (output_path : string) (file_size : N) (duration : Q)
| RenderFail (error : string).

Definition success (r : RenderResult) : bool :=
  match r with RenderOk _ _ _ => true | RenderFail _ => false end.

(** [self.temp_dir]. The file system is a flat map from paths to files:
    directories are not modelled, and the [os.makedirs] of [__init__] has
    no counterpart. *)
Definition temp_dir : string := "temp".

(** *** The PIL operations used by [_process_image] *)

Definition convert (E : Env) (img : Image) : Image :=
  {| mode := "RGB"; width := width img; height := height img;
     pix := convert_rgb E img |}.

Definition new_image (m : string) (w h : Z) (color : Pixel) : Image :=
  {| mode := m; width := w; height := h; pix := fun _ _ => color |}.

Definition crop (img : Image) (box : Z * Z * Z * Z) : Image :=
  let '(x0, y0, x1, y1) := box in
  {| mode := mode img; width := x1 - x0; height := y1 - y0;
     pix := fun x y => pix img (x + x0) (y + y0) |}.

Definition resize (E : Env) (img : Image) (w h : Z) : Image :=
  {| mode := mode img; width := w; height := h; pix := lanczos E img w h |}.

Definition in_box (x0 y0 w h x y : Z) : bool :=
  (x0 <=? x)%Z && (x <? x0 + w)%Z && (y0 <=? y)%Z && (y <? y0 + h)%Z.

Definition paste (background img : Image) (x0 y0 : Z) : Image :=
  {| mode := mode background; width := width background;
     height := height background;
     pix := fun x y =>
       if in_box x0 y0 (width img) (height img) x y
       then pix img (x - x0) (y - y0)
       else pix background x y |}.

(** *** The local variables of [_process_image] *)

Definition video_width : Z := 1920.
Definition video_height : Z := 1080.

Definition to_rgb (E : Env) (img : Image) : Image :=
  if String.eqb (mode img) "RGB" then img else convert E img.

Definition min_dimension (img : Image) : Z := Z.min (width img) (height img).
Definition left (img : Image) : Z := (width img - min_dimension img) / 2.
Definition top (img : Image) : Z := (height img - min_dimension img) / 2.
Definition right (img : Image) : Z := left img + min_dimension img.
Definition bottom (img : Image) : Z := top img + min_dimension img.
Definition crop_box (img : Image) : Z * Z * Z * Z :=
  (left img, top img, right img, bottom img).

Definition square_size : Z := Z.min (video_height - 100) (video_width / 2).
Definition x_offset : Z := (video_width - square_size) / 2.
Definition y_offset : Z := (video_height - square_size) / 2.

(** The body of the [with Image.open(...)] block up to the canvas that is
    saved. *)
Definition compose_cover (E : Env) (opened : Image) : Image :=
  let img := to_rgb E opened in
  let background := new_image "RGB" video_width video_height black in
  let img_square := crop img (crop_box img) in
  let img_square := resize E img_square square_size square_size in
  paste background img_square x_offset y_offset.

Definition processed_path_of (image_path : string) : string :=
  temp_dir +:+ "/processed_cover_" +:+ Str.basename image_path +:+ ".jpg".

Definition _process_image (E : Env) (image_path : string) : M Sys string :=
  try_catch
    (let* f := read_file image_path in
     match f with
     | FImage opened =>
         let background := compose_cover E opened in
         let processed_path := processed_path_of image_path in
         write_file processed_path (FImage background) ;;
         ret processed_path
     | _ => raise ("cannot identify image file '" +:+ image_path +:+ "'")
     end)
    (fun e => raise ("Image processing failed: " +:+ e)).

(** *** Duration probe *)

Definition ffprobe_cmd (audio_path : string) : list string :=
  ["ffprobe"; "-v"; "quiet"; "-print_format"; "json"; "-show_format"; audio_path].

Definition _get_audio_duration (E : Env) (audio_path : string) : M Sys Q :=
  try_catch
    (let* fsys := gets fs in
     match ffprobe E fsys (ffprobe_cmd audio_path) with
     | ProbeSpawnFail msg => raise msg
     | ProbeExit returncode stderr parsed =>
         if negb (returncode =? 0)%Z then raise ("FFprobe failed: " +:+ stderr)
         else match parsed with
              | inl msg => raise msg
              | inr duration => ret duration
              end
     end)
    (fun e => raise ("Failed to get audio duration: " +:+ e)).

(** *** Encode and verification *)

Definition ffmpeg_cmd (audio_path image_path output_path : string) : list string :=
  ["ffmpeg"; "-y"; "-loop"; "1"; "-i"; image_path; "-i"; audio_path;
   "-c:v"; "libx264"; "-tune"; "stillimage"; "-c:a"; "aac"; "-b:a"; "192k";
   "-pix_fmt"; "yuv420p"; "-shortest"; "-movflags"; "+faststart"; output_path].

(** Starting the encoder and waiting for it: the process acts on the file
    system, then its exit code and error stream are returned. *)
Definition run_ffmpeg (E : Env) (cmd : list string) (output_path : string)
    : M Sys (Z * string) :=
  let* fsys := gets fs in
  match ffmpeg E fsys cmd with
  | EncodeSpawnFail msg => raise msg
  | EncodeExit returncode stderr written =>
      match written with
      | Some n => write_file output_path (FData n)
      | None => ret tt
      end ;;
      ret (returncode, stderr)
  end.

(** The file system the encoder leaves behind. *)
Definition fs_after_encode (outcome : EncodeOutcome) (output_path : string)
    (fsys : gmap string file) : gmap string file :=
  match outcome with
  | EncodeExit _ _ (Some n) => <[output_path := FData n]> fsys
  | _ => fsys
  end.

Definition _create_video_with_ffmpeg (E : Env)
    (audio_path image_path output_path : string) (duration : Q)
    : M Sys RenderResult :=
  try_catch
    (let cmd := ffmpeg_cmd audio_path image_path output_path in
     let* '(returncode, stderr) := run_ffmpeg E cmd output_path in
     if negb (returncode =? 0)%Z then
       let error_msg :=
         if negb (String.eqb stderr "") then stderr else "Unknown FFmpeg error" in
       raise ("FFmpeg failed: " +:+ error_msg)
     else
       let* present := path_exists output_path in
       if negb present then raise "Output video file was not created"
       else
         let* f := read_file output_path in
         let file_size := file_size E f in
         if (file_size <? 1000)%N then raise "Output video file is too small"
         else ret (RenderOk output_path file_size duration))
    (fun e => raise ("FFmpeg video creation failed: " +:+ e)).

Definition create_video (E : Env)
    (audio_path image_path output_path title : string) : M Sys RenderResult :=
  try_catch
    (let* processed_image_path := _process_image E image_path in
     let* duration := _get_audio_duration E audio_path in
     let* result :=
       _create_video_with_ffmpeg E audio_path processed_image_path output_path duration in
     let* present := path_exists processed_image_path in
     (if present then remove processed_image_path else ret tt) ;;
     ret result)
    (fun e => ret (RenderFail e)).

End VideoCreator.

(** ** youtube_uploader.py *)

Module YouTubeUploader.

(** The attributes set by [__init__]. *)
Record Uploader := mkUploader {
  client_id : option string;
  client_secret : option string;
  redirect_uri : string
}.

Definition new_uploader (E : Env) : Uploader :=
  {| client_id := getenv E "GOOGLE_CLIENT_ID";
     client_secret := getenv E "GOOGLE_CLIENT_SECRET";
     redirect_uri :=
       default "http://localhost:8000/youtube/callback" (getenv E "REDIRECT_URI") |}.

(** The result dict of [upload_video]. *)
Inductive UploadResult :=
| UploadOk (video_id : json) (video_url : string) (title : string)
| UploadFail (error : string).

Definition success (r : UploadResult) : bool :=
  match r with UploadOk _ _ _ => true | UploadFail _ => false end.

Definition opt_str (o : option string) : json :=
  match o with Some s => JStr s | None => JNull end.

(** [json.load(f)] of a credential file. *)
Definition load_json {S} (f : file) : M S (gmap string json) :=
  match f with
  | FJson d => ret d
  | _ => raise "Expecting value: line 1 column 1 (char 0)"
  end.

Definition token_url : string := "https://oauth2.googleapis.com/token".

(** The POST that [refresh_access_token] sends for a stored refresh token. *)
Definition refresh_request (self : Uploader) (refresh_token : json) : Request :=
  {| method := "POST"; url := token_url; headers := ∅;
     body := BodyForm
       (<["refresh_token" := refresh_token]>
        (<["client_id" := opt_str (client_id self)]>
         (<["client_secret" := opt_str (client_secret self)]>
          (<["grant_type" := JStr "refresh_token"]> ∅)))) |}.

(** The [try] block of [refresh_access_token]. *)
Definition refresh_try (E : Env) (self : Uploader) (creds_path : string)
    : M Sys json :=
  let* f := read_file creds_path in
  let* creds_data := load_json f in
  if negb (truthy (default JNull (creds_data !! "refresh_token"))) then
    raise "No refresh token available"
  else
    let* refresh_token := getitem creds_data "refresh_token" in
    let* response := send E (refresh_request self refresh_token) in
    let* refresh_data := response_json response in
    match refresh_data !! "error" with
    | Some err =>
        raise (Py.str (repr_num E)
                 (default err (refresh_data !! "error_description")))
    | None =>
        let* access_token := getitem refresh_data "access_token" in
        let creds_data := <["access_token" := access_token]> creds_data in
        let* t := now E in
        let creds_data := <["created_at" := JNum t]> creds_data in
        let creds_data :=
          match refresh_data !! "expires_in" with
          | Some v => <["expires_in" := v]> creds_data
          | None => creds_data
          end in
        write_file creds_path (FJson creds_data) ;;
        getitem refresh_data "access_token"
    end.

(** Returns the new access token, or [None] (here [JNull]) when the [try]
    block raised. *)
Definition refresh_access_token (E : Env) (self : Uploader) (creds_path : string)
    : M Sys json :=
  try_catch (refresh_try E self creds_path) (fun e => ret JNull).

(** [a - b] and [a > b] with a float on the left; [TypeError] when the
    right operand is not a number, [OverflowError] when it is an [int]
    that no float can hold. *)
Definition num_sub {S} (a : Q) (b : json) : M S Binary64.double :=
  match as_num b with
  | Some q =>
      match Binary64.sub a q with
      | Some x => ret x
      | None => raise "int too large to convert to float"
      end
  | None => raise "unsupported operand type(s) for -"
  end.

Definition num_gt {S} (a : Binary64.double) (b : json) : M S bool :=
  match as_num b with
  | Some q => ret (Binary64.gtb a q)
  | None => raise "'>' not supported between instances"
  end.

(** The expiry check of the publish path:
    [token_age = now - creds_data["created_at"]];
    [token_expired = token_age > creds_data["expires_in"]]. *)
Definition token_expired {S} (creds_data : gmap string json) (now : Q) : M S bool :=
  let* created_at := getitem creds_data "created_at" in
  let* token_age := num_sub now created_at in
  let* expires_in := getitem creds_data "expires_in" in
  num_gt token_age expires_in.

Definition upload_url : string := "https://www.googleapis.com/upload/youtube/v3/videos".

Definition init_request (access_token : json) (E : Env)
    (metadata : MetadataGenerator.Metadata) : Request :=
  {| method := "POST";
     url := upload_url +:+ "?uploadType=resumable&part=snippet,status";
     headers :=
       <["Authorization" := "Bearer " +:+ Py.str (repr_num E) access_token]>
       (<["Content-Type" := "application/json"]>
        (<["X-Upload-Content-Type" := "video/mp4"]> ∅));
     body := BodyJson
       {| snippet_title := MetadataGenerator.title metadata;
          snippet_description := MetadataGenerator.description metadata;
          snippet_tags := MetadataGenerator.tags metadata;
          snippet_categoryId := "10";
          status_privacyStatus := "private" |} |}.

Definition transfer_request (upload_location : string) (video_data : file) : Request :=
  {| method := "PUT"; url := upload_location;
     headers := <["Content-Type" := "video/mp4"]> ∅;
     body := BodyBytes video_data |}.

(** The two phases of the resumable upload, with the access token in hand
    (the [async with aiohttp.ClientSession()] block). *)
Definition upload_phases (E : Env) (video_path : string)
    (metadata : MetadataGenerator.Metadata) (access_token : json)
    : M Sys UploadResult :=
  let* response := send E (init_request access_token E metadata) in
  if negb (status response =? 200)%Z then
    ret (UploadFail ("Upload init failed: " +:+ text response))
  else
    let upload_location := default "" (resp_headers response !! "location") in
    if String.eqb upload_location "" then
      ret (UploadFail "No upload URL received")
    else
      let* video_data := read_file video_path in
      let* response := send E (transfer_request upload_location video_data) in
      if negb ((status response =? 200)%Z || (status response =? 201)%Z) then
        ret (UploadFail ("Video upload failed: " +:+ text response))
      else
        let* upload_result := response_json response in
        match upload_result !! "id" with
        | None => ret (UploadFail "No video ID received from YouTube")
        | Some video_id =>
            let video_url :=
              "https://www.youtube.com/watch?v=" +:+ Py.str (repr_num E) video_id in
            ret (UploadOk video_id video_url (MetadataGenerator.title metadata))
        end.

(** The two kinds of request of the resumable upload, as they are
    recognised in the log: the POST to the upload endpoint, and a PUT. *)
Definition is_initiation (r : Request) : bool :=
  String.eqb (method r) "POST"
  && String.eqb (url r) (upload_url +:+ "?uploadType=resumable&part=snippet,status").

Definition is_transfer (r : Request) : bool := String.eqb (method r) "PUT".

(** What one publish may send: at most one token refresh, then at most
    one initiation, then at most one transfer. *)
Definition publish_requests (E : Env) (self : Uploader)
    (metadata : MetadataGenerator.Metadata) (sent : list Request) : Prop :=
  ∃ pre phases,
    sent = (pre ++ phases)%list
    ∧ (pre = [] ∨ ∃ rt, pre = [refresh_request self rt])
    ∧ (phases = []
       ∨ (∃ tok, phases = [init_request tok E metadata])
       ∨ (∃ tok loc data,
            phases = [init_request tok E metadata; transfer_request loc data])).

Definition upload_video (E : Env) (self : Uploader) (video_path : string)
    (metadata : MetadataGenerator.Metadata) (creds_path : string)
    : M Sys UploadResult :=
  try_catch
    (let* present := path_exists creds_path in
     if negb present then ret (UploadFail "YouTube credentials not found")
     else
       let* f := read_file creds_path in
       let* creds_data := load_json f in
       let* t := now E in
       let* expired := token_expired creds_data t in
       let* access_token := getitem creds_data "access_token" in
       if expired then
         let* access_token := refresh_access_token E self creds_path in
         if negb (truthy access_token) then
           ret (UploadFail "Failed to refresh access token")
         else upload_phases E video_path metadata access_token
       else upload_phases E video_path metadata access_token)
    (fun e => ret (UploadFail ("YouTube upload failed: " +:+ e))).

(** *** Code exchange *)

(** The credential file of a user. *)
Definition creds_path_for (user_id : string) : string :=
  "user_credentials/youtube_" +:+ user_id +:+ ".json".

(** The POST that [exchange_code_for_tokens] sends. *)
Definition exchange_request (self : Uploader) (code : string) : Request :=
  {| method := "POST"; url := token_url; headers := ∅;
     body := BodyForm
       (<["code" := JStr code]>
        (<["client_id" := opt_str (client_id self)]>
         (<["client_secret" := opt_str (client_secret self)]>
          (<["redirect_uri" := JStr (redirect_uri self)]>
           (<["grant_type" := JStr "authorization_code"]> ∅))))) |}.

(** The [try] block of [exchange_code_for_tokens]. *)
Definition exchange_try (E : Env) (self : Uploader) (code user_id : string)
    : M Sys bool :=
  let* response := send E (exchange_request self code) in
  let* tokens := response_json response in
  match tokens !! "error" with
  | Some err =>
      raise (Py.str (repr_num E) (default err (tokens !! "error_description")))
  | None =>
      let* access_token := getitem tokens "access_token" in
      let refresh_token := default JNull (tokens !! "refresh_token") in
      let* token_type := getitem tokens "token_type" in
      let* expires_in := getitem tokens "expires_in" in
      let* scope := getitem tokens "scope" in
      let* t := now E in
      let creds_data : gmap string json :=
        <["access_token" := access_token]>
        (<["refresh_token" := refresh_token]>
         (<["token_type" := token_type]>
          (<["expires_in" := expires_in]>
           (<["scope" := scope]>
            (<["created_at" := JNum t]> ∅))))) in
      create_file E (creds_path_for user_id) (FJson creds_data) ;;
      ret true
  end.

Definition exchange_code_for_tokens (E : Env) (self : Uploader)
    (code user_id : string) : M Sys bool :=
  try_catch (exchange_try E self code user_id) (fun e => ret false).

End YouTubeUploader.

(** ** main.py *)

Module Main.

(** The directories made when the module is loaded (main.py 38-40). *)
Definition directories : list string :=
  ["uploads"; "videos"; "user_credentials"; "temp"].

(** The form fields handed to the background task. *)
Record VideoRequest := mkVideoRequest {
  beatName : string;
  artistType : string;
  producerName : string;
  userId : string
}.

(** The process state: the outside world and the global [jobs] dict. *)
Record App := mkApp {
  app_sys : Sys;
  jobs : gmap string (gmap string json)
}.

(** Calls into the other modules act on the outside world only. *)
Definition lift {A} (m : M Sys A) : M App A :=
  fun w => let '(r, s') := m (app_sys w) in
           (r, {| app_sys := s'; jobs := jobs w |}).

(** The record stored by the [/video/create] endpoint under a fresh id. *)
Definition new_job (job_id createdAt : string) (req : VideoRequest)
    : gmap string json :=
  <["jobId" := JStr job_id]>
  (<["status" := JStr "processing"]>
   (<["progress" := JNum 0]>
    (<["message" := JStr "Starting video creation..."]>
     (<["createdAt" := JStr createdAt]>
      (<["beatName" := JStr (beatName req)]>
       (<["artistType" := JStr (artistType req)]>
        (<["producerName" := JStr (producerName req)]>
         (<["userId" := JStr (userId req)]> ∅)))))))).

(** [jobs[job_id][key] = value]; [KeyError] when the job is unknown. *)
Definition set_job (job_id key : string) (value : json) : M App unit :=
  fun w => match jobs w !! job_id with
           | Some job =>
               (Ok tt, {| app_sys := app_sys w;
                          jobs := <[job_id := <[key := value]> job]> (jobs w) |})
           | None => (Raise ("'" +:+ job_id +:+ "'"), w)
           end.

(** [cleanup_files]: each path is removed when it exists. *)
Fixpoint cleanup_files (file_paths : list string) : M Sys unit :=
  match file_paths with
  | [] => ret tt
  | file_path :: rest =>
      try_catch
        (let* present := path_exists file_path in
         if present then remove file_path else ret tt)
        (fun e => ret tt) ;;
      cleanup_files rest
  end.

Definition output_path_of (req : VideoRequest) (t : Q) : string :=
  let safe_filename :=
    Str.replace_char "/" "_" (Str.replace_char " " "_" (beatName req)) in
  let output_filename := safe_filename +:+ "_" +:+ pretty (int_of t) +:+ ".mp4" in
  "videos/" +:+ output_filename.

Definition creds_path_of (req : VideoRequest) : string :=
  "user_credentials/youtube_" +:+ userId req +:+ ".json".

(** The two stages of the pipeline as the background task runs them:
    the render (the clock is read for the name of the output file, then
    [create_video] is called), and the publish. *)
Definition metadata_of (E : Env) (req : VideoRequest) : MetadataGenerator.Metadata :=
  MetadataGenerator.generate_metadata (str_lower E)
    (artistType req) (beatName req) "" (producerName req).

Definition render_stage (E : Env) (audio_path image_path : string)
    (req : VideoRequest) : M Sys VideoCreator.RenderResult :=
  let* t := now E in
  VideoCreator.create_video E audio_path image_path (output_path_of req t)
    (MetadataGenerator.title (metadata_of E req)).

Definition publish_stage (E : Env) (req : VideoRequest) (output_path : string)
    : M Sys YouTubeUploader.UploadResult :=
  YouTubeUploader.upload_video E (YouTubeUploader.new_uploader E)
    output_path (metadata_of E req) (creds_path_of req).

Definition process_video_background (E : Env)
    (job_id audio_path image_path : string) (metadata : VideoRequest) : M App unit :=
  try_catch
    (set_job job_id "progress" (JNum 10) ;;
     set_job job_id "message" (JStr "Preparing files...") ;;
     let video_metadata :=
       MetadataGenerator.generate_metadata (str_lower E)
         (artistType metadata) (beatName metadata) "" (producerName metadata) in
     let* t := lift (now E) in
     let output_path := output_path_of metadata t in
     set_job job_id "progress" (JNum 30) ;;
     set_job job_id "message" (JStr "Creating video...") ;;
     let* result :=
       lift (VideoCreator.create_video E audio_path image_path output_path
               (MetadataGenerator.title video_metadata)) in
     match result with
     | VideoCreator.RenderFail error => raise error
     | VideoCreator.RenderOk _ _ _ =>
         set_job job_id "progress" (JNum 80) ;;
         set_job job_id "message" (JStr "Video created successfully!") ;;
         set_job job_id "videoPath" (JStr output_path) ;;
         let youtube_creds_path := creds_path_of metadata in
         let* connected := lift (path_exists youtube_creds_path) in
         (if connected then
            set_job job_id "progress" (JNum 90) ;;
            set_job job_id "message" (JStr "Uploading to YouTube...") ;;
            let youtube_uploader := YouTubeUploader.new_uploader E in
            let* upload_result :=
              lift (YouTubeUploader.upload_video E youtube_uploader
                      output_path video_metadata youtube_creds_path) in
            match upload_result with
            | YouTubeUploader.UploadOk video_id video_url _ =>
                set_job job_id "progress" (JNum 100) ;;
                set_job job_id "status" (JStr "completed") ;;
                set_job job_id "message" (JStr "Video uploaded to YouTube successfully!") ;;
                set_job job_id "youtubeUrl" (JStr video_url) ;;
                set_job job_id "videoId" video_id
            | YouTubeUploader.UploadFail error =>
                set_job job_id "progress" (JNum 100) ;;
                set_job job_id "status" (JStr "completed") ;;
                set_job job_id "message" (JStr "Video created but YouTube upload failed") ;;
                set_job job_id "youtubeError" (JStr error)
            end
          else
            set_job job_id "progress" (JNum 100) ;;
            set_job job_id "status" (JStr "completed") ;;
            set_job job_id "message"
              (JStr "Video created successfully (YouTube not connected)")) ;;
         lift (cleanup_files [audio_path; image_path])
     end)
    (fun e =>
       set_job job_id "status" (JStr "failed") ;;
       set_job job_id "error" (JStr e) ;;
       lift (cleanup_files [audio_path; image_path])).

(** *** The HTTP endpoints *)

(** What an endpoint answers: a body, or an [HTTPException]. *)
Inductive HTTP (A : Type) :=
| Reply (a : A)
| HTTPException (status_code : Z) (detail : string).
Arguments Reply {A} a.
Arguments HTTPException {A} status_code detail.

(** [str(e)] of an [HTTPException]: status code, colon, detail. *)
Definition http_exception_str (status_code : Z) (detail : string) : string :=
  pretty status_code +:+ ": " +:+ detail.

(** A file of the multipart form. *)
Record UploadFile := mkUploadFile {
  filename : string;
  content_type : option string;
  content : file
}.

(** [content_type and content_type.startswith(prefixes)] *)
Definition type_starts_with (prefixes : list string) (content_type : option string) : bool :=
  match content_type with
  | None => false
  | Some t =>
      negb (String.eqb t "")
      && existsb (fun prefix => String.prefix prefix t) prefixes
  end.

(** The body answered by [/video/create], and the task it hands to
    [background_tasks.add_task]. *)
Record CreateReply := mkCreateReply {
  reply_jobId : string;
  reply_status : string;
  reply_message : string;
  reply_checkStatusUrl : string;
  task_audio_path : string;
  task_image_path : string;
  task_metadata : VideoRequest
}.

Definition audio_path_of (job_id : string) (audioFile : UploadFile) : string :=
  "uploads/" +:+ job_id +:+ "_audio_" +:+ filename audioFile.
Definition image_path_of (job_id : string) (coverImage : UploadFile) : string :=
  "uploads/" +:+ job_id +:+ "_cover_" +:+ filename coverImage.

(** The [try] block of the endpoint [create_video]; [job_id] and
    [createdAt] are the values of [str(uuid.uuid4())] and
    [datetime.now().isoformat()]. *)
Definition create_video_try (E : Env) (job_id createdAt : string) (req : VideoRequest)
    (audioFile coverImage : UploadFile) : M App CreateReply :=
  if negb (type_starts_with ["audio/"; "application/"] (content_type audioFile)) then
    raise (http_exception_str 400 "Invalid audio file type")
  else if negb (type_starts_with ["image/"] (content_type coverImage)) then
    raise (http_exception_str 400 "Invalid image file type")
  else
    modify (fun w => {| app_sys := app_sys w;
                        jobs := <[job_id := new_job job_id createdAt req]> (jobs w) |}) ;;
    let audio_path := audio_path_of job_id audioFile in
    let image_path := image_path_of job_id coverImage in
    lift (create_file E audio_path (content audioFile)) ;;
    lift (create_file E image_path (content coverImage)) ;;
    ret {| reply_jobId := job_id;
           reply_status := "processing";
           reply_message := "Video creation started";
           reply_checkStatusUrl := "/video/status/" +:+ job_id;
           task_audio_path := audio_path;
           task_image_path := image_path;
           task_metadata := req |}.

Definition create_video (E : Env) (job_id createdAt : string) (req : VideoRequest)
    (audioFile coverImage : UploadFile) : M App (HTTP CreateReply) :=
  try_catch
    (let* reply := create_video_try E job_id createdAt req audioFile coverImage in
     ret (Reply reply))
    (fun e => ret (HTTPException 500 ("Failed to start video creation: " +:+ e))).

Definition get_job_status (job_id : string) : M App (HTTP (gmap string json)) :=
  let* known := gets (fun w => jobs w !! job_id) in
  match known with
  | None => ret (HTTPException 404 "Job not found")
  | Some job => ret (Reply job)
  end.

(** [/youtube/status/{user_id}]: the connected flag and the message. *)
Definition youtube_status (user_id : string) : M Sys (bool * string) :=
  let creds_path := "user_credentials/youtube_" +:+ user_id +:+ ".json" in
  let* connected := path_exists creds_path in
  ret (connected,
       if connected then "YouTube is connected and ready" else "YouTube not connected").

End Main.

(** ** A concrete world on which the model is run *)

Module Demo.

(** A token endpoint that answers every refresh with a fresh token, an
    upload endpoint that opens a session, and a session that accepts the
    bytes. *)
Definition net_ok (sent : list Request) (r : Request) : HttpOutcome :=
  if String.eqb (method r) "PUT" then
    HttpResp {| status := 200; resp_headers := ∅; text := "";
                json_body := Some (<["id" := JStr "abc123"]> ∅) |}
  else if String.eqb (url r) YouTubeUploader.token_url then
    HttpResp {| status := 200; resp_headers := ∅; text := "";
                json_body := Some (<["access_token" := JStr "fresh"]>
                                   (<["expires_in" := JNum 3599]>
                                    (<["refresh_token" := JStr "rotated"]> ∅))) |}
  else
    HttpResp {| status := 200;
                resp_headers := <["location" := "https://upload.example/session"]> ∅;
                text := ""; json_body := None |}.

(** The upload endpoint refuses the initiation. *)
Definition net_init_refused (sent : list Request) (r : Request) : HttpOutcome :=
  HttpResp {| status := 403; resp_headers := ∅; text := "quotaExceeded";
              json_body := None |}.

(** The token endpoint answers with an OAuth error document. *)
Definition net_token_error (sent : list Request) (r : Request) : HttpOutcome :=
  HttpResp {| status := 400; resp_headers := ∅; text := "";
              json_body := Some (<["error" := JStr "invalid_grant"]> ∅) |}.

(** An answer with an HTTP error status whose JSON body nevertheless
    carries an access token and no [error] member. *)
Definition net_status_400_with_token (sent : list Request) (r : Request) : HttpOutcome :=
  HttpResp {| status := 400; resp_headers := ∅; text := "";
              json_body := Some (<["access_token" := JStr "fresh"]> ∅) |}.

Definition probe_ok (fsys : gmap string file) (cmd : list string) : ProbeOutcome :=
  ProbeExit 0 "" (inr 3%Q).
Definition probe_bad (fsys : gmap string file) (cmd : list string) : ProbeOutcome :=
  ProbeExit 1 "Invalid data found when processing input" (inl "").
Definition encode_ok (fsys : gmap string file) (cmd : list string) : EncodeOutcome :=
  EncodeExit 0 "" (Some 250000%N).
Definition encode_tiny (fsys : gmap string file) (cmd : list string) : EncodeOutcome :=
  EncodeExit 0 "" (Some 999%N).

(** A file system that has the directories of the program and no other:
    a path opens for writing when it names a file directly inside one of
    them. *)
Definition missing_directory (path : string) : option string :=
  if bool_decide (Str.dirname path ∈ Main.directories) then None
  else Some ("[Errno 2] No such file or directory: '" +:+ path +:+ "'").

Definition env (probe : gmap string file -> list string -> ProbeOutcome)
    (enc : gmap string file -> list string -> EncodeOutcome)
    (net : list Request -> Request -> HttpOutcome) : Env :=
  {| str_lower := Str.ascii_lower;
     repr_num := fun q => pretty (int_of q);
     getenv := fun _ => None;
     clock := fun n => (1700000000 + inject_Z (Z.of_nat n))%Q;
     convert_rgb := pix;
     lanczos := fun img w h x y =>
       pix img (x * width img / w)%Z (y * height img / h)%Z;
     stored_size := fun _ => 4096%N;
     ffprobe := probe; ffmpeg := enc; http := net;
     open_error := missing_directory |}.

Definition cover : Image :=
  {| mode := "RGB"; width := 4000; height := 2000;
     pix := fun x y => (x mod 256, y mod 256, 7)%Z |}.

Definition req : Main.VideoRequest :=
  {| Main.beatName := "Night Drive"; Main.artistType := "Travis Scott";
     Main.producerName := "Producer"; Main.userId := "u1" |}.

Definition creds (refresh_token : json) (created_at : Q) : gmap string json :=
  <["access_token" := JStr "stale"]>
  (<["refresh_token" := refresh_token]>
   (<["token_type" := JStr "Bearer"]>
    (<["expires_in" := JNum 3600]>
     (<["scope" := JStr "https://www.googleapis.com/auth/youtube.upload"]>
      (<["created_at" := JNum created_at]> ∅))))).

Definition audio_path : string := "uploads/j1_audio_beat.mp3".
Definition image_path : string := "uploads/j1_cover_art.png".
Definition creds_path : string := "user_credentials/youtube_u1.json".
Definition output_path : string := "videos/Night_Drive_1700000000.mp4".
Definition scratch_path : string := "temp/processed_cover_j1_cover_art.png.jpg".

Definition files (c : gmap string json) : gmap string file :=
  <[audio_path := FData 50000]>
  (<[image_path := FImage cover]>
   (<[creds_path := FJson c]> ∅)).

Definition sys0 (c : gmap string json) : Sys :=
  {| fs := files c; log := []; ticks := 0 |}.

Definition app0 (c : gmap string json) : Main.App :=
  {| Main.app_sys := sys0 c;
     Main.jobs := <["j1" := Main.new_job "j1" "2025-01-01T00:00:00" req]> ∅ |}.

Definition env_ok : Env := env probe_ok encode_ok net_ok.

Definition uploader : YouTubeUploader.Uploader := YouTubeUploader.new_uploader env_ok.

Definition metadata : MetadataGenerator.Metadata :=
  MetadataGenerator.generate_metadata Str.ascii_lower
    (Main.artistType req) (Main.beatName req) "" (Main.producerName req).

(** A token endpoint that answers a code exchange with a full token
    bundle. *)
Definition net_exchange_ok (sent : list Request) (r : Request) : HttpOutcome :=
  HttpResp {| status := 200; resp_headers := ∅; text := "";
              json_body := Some (<["access_token" := JStr "first"]>
                                 (<["refresh_token" := JStr "r1"]>
                                  (<["token_type" := JStr "Bearer"]>
                                   (<["expires_in" := JNum 3599]>
                                    (<["scope" := JStr "upload"]> ∅))))) |}.

(** The bundle lacks [token_type]. *)
Definition net_exchange_partial (sent : list Request) (r : Request) : HttpOutcome :=
  HttpResp {| status := 200; resp_headers := ∅; text := "";
              json_body := Some (<["access_token" := JStr "first"]> ∅) |}.

Definition audio_upload : Main.UploadFile :=
  {| Main.filename := "beat.mp3"; Main.content_type := Some "audio/mpeg";
     Main.content := FData 50000 |}.
Definition cover_upload : Main.UploadFile :=
  {| Main.filename := "art.png"; Main.content_type := Some "image/png";
     Main.content := FImage cover |}.
Definition text_upload : Main.UploadFile :=
  {| Main.filename := "notes.txt"; Main.content_type := Some "text/plain";
     Main.content := FData 12 |}.
(** An audio part whose file name names a sub-directory. *)
Definition nested_upload : Main.UploadFile :=
  {| Main.filename := "sub/beat.mp3"; Main.content_type := Some "audio/mpeg";
     Main.content := FData 50000 |}.

Definition empty_app : Main.App :=
  {| Main.app_sys := {| fs := ∅; log := []; ticks := 0 |}; Main.jobs := ∅ |}.

End Demo.

(** * Properties *)

(** ** Reasoning about runs

    Runs are analysed forwards with [post]: one rule per monad operation,
    applied by [run_step] according to the head of the program. *)

Section RunRules.

Context {S : Type}.

Lemma post_ret {A} (a : A) (s : S) Q : Q (Ok a) s → post (ret a) s Q.
Proof. done. Qed.

Lemma post_raise {A} (e : string) (s : S) (Q : Res A → S → Prop) :
  Q (Raise e) s → post (raise e) s Q.
Proof. done. Qed.

Lemma post_bind {A B} (m : M S A) (k : A → M S B) (s : S) Q :
  post m s (λ r s1, match r with
                    | Ok a => post (k a) s1 Q
                    | Raise e => Q (Raise e) s1
                    end) →
  post (bind m k) s Q.
Proof. unfold post, bind. by destruct (m s) as [[a|e] s1]. Qed.

Lemma post_try_catch {A} (m : M S A) (h : string → M S A) (s : S) Q :
  post m s (λ r s1, match r with
                    | Ok a => Q (Ok a) s1
                    | Raise e => post (h e) s1 Q
                    end) →
  post (try_catch m h) s Q.
Proof. unfold post, try_catch. by destruct (m s) as [[a|e] s1]. Qed.

Lemma post_gets {A} (f : S → A) (s : S) Q : Q (Ok (f s)) s → post (gets f) s Q.
Proof. done. Qed.

Lemma post_modify (f : S → S) (s : S) Q : Q (Ok tt) (f s) → post (modify f) s Q.
Proof. done. Qed.

Lemma post_getitem (d : gmap string json) (k : string) (s : S) Q :
  (∀ v, d !! k = Some v → Q (Ok v) s) →
  (d !! k = None → Q (Raise ("'" +:+ k +:+ "'")) s) →
  post (getitem d k) s Q.
Proof. unfold getitem. destruct (d !! k); [intros H _|intros _ H]; by apply H. Qed.

(** Weakening, and the two ways out of [post]. *)
Lemma post_mono {A} (m : M S A) (s : S) (Q Q' : Res A → S → Prop) :
  post m s Q → (∀ r s', Q r s' → Q' r s') → post m s Q'.
Proof. unfold post. auto. Qed.

Lemma post_run {A} (m : M S A) (s : S) Q r s' :
  post m s Q → m s = (r, s') → Q r s'.
Proof. unfold post. intros H Hrun. by rewrite Hrun in H. Qed.

Lemma post_intro {A} (m : M S A) (s : S) (Q : Res A → S → Prop) :
  (∀ r s', m s = (r, s') → Q r s') → post m s Q.
Proof. unfold post. intros H. apply H. by destruct (m s). Qed.

End RunRules.

Lemma post_read_file (path : string) (s : Sys) Q :
  (∀ f, fs s !! path = Some f → Q (Ok f) s) →
  (fs s !! path = None →
   Q (Raise ("[Errno 2] No such file or directory: '" +:+ path +:+ "'")) s) →
  post (read_file path) s Q.
Proof.
  unfold post, read_file. destruct (fs s !! path); [intros H _|intros _ H]; by apply H.
Qed.

Lemma post_send (E : Env) (r : Request) (s : Sys) Q :
  (∀ resp, http E (log s) r = HttpResp resp →
     Q (Ok resp) {| fs := fs s; log := (log s ++ [r])%list; ticks := ticks s |}) →
  (∀ msg, http E (log s) r = HttpFail msg →
     Q (Raise msg) {| fs := fs s; log := (log s ++ [r])%list; ticks := ticks s |}) →
  post (send E r) s Q.
Proof.
  unfold post, send. destruct (http E (log s) r); [intros _ H|intros H _]; by apply H.
Qed.

Lemma post_now (E : Env) (s : Sys) Q :
  Q (Ok (clock E (ticks s))) {| fs := fs s; log := log s; ticks := Datatypes.S (ticks s) |} →
  post (now E) s Q.
Proof. done. Qed.

Ltac run_simpl :=
  cbv beta iota; cbn [fs log ticks set_fs negb default from_option id].

Ltac run_step :=
  lazymatch goal with
  | |- post (bind _ _) _ _ => apply post_bind
  | |- post (ret _) _ _ => apply post_ret
  | |- post (raise _) _ _ => apply post_raise
  | |- post (try_catch _ _) _ _ => apply post_try_catch
  | |- post (gets _) _ _ => apply post_gets
  | |- post (modify _) _ _ => apply post_modify
  | |- post (getitem _ _) _ _ => apply post_getitem; [intros ? ?|intros ?]
  | |- post (read_file _) _ _ => apply post_read_file; [intros ? ?|intros ?]
  | |- post (send _ _) _ _ => apply post_send; intros ? ?
  | |- post (now _) _ _ => apply post_now
  | |- post (write_file _ _) _ _ => unfold write_file
  | |- post (create_file _ _ _) _ _ => unfold create_file
  | |- post (World.remove _) _ _ => unfold World.remove
  | |- post (path_exists _) _ _ => unfold path_exists
  | |- post (response_json _) _ _ => unfold response_json
  | |- post (YouTubeUploader.load_json _) _ _ => unfold YouTubeUploader.load_json
  | |- post (match ?x with _ => _ end) _ _ => destruct x eqn:?
  end; run_simpl.

(** ** Metadata generator *)

Section MetadataProps.

Import MetadataGenerator.

(** The de-duplication loop keeps what it has collected as a prefix. *)
Lemma unique_loop_prefix (tags : list string) :
  ∀ (seen : gset string) (acc : list string),
    ∃ rest, unique_loop tags seen acc = (acc ++ rest)%list.
Proof.
  induction tags as [|tag tags IH]; intros seen acc; simpl.
  - exists []. by rewrite app_nil_r.
  - destruct (decide (tag ∈ seen)).
    + apply IH.
    + destruct (IH ({[tag]} ∪ seen) (acc ++ [tag])%list) as [rest ->].
      exists (tag :: rest). by rewrite <- app_assoc.
Qed.

Lemma unique_loop_head (tag : string) (tags : list string) :
  head (unique_loop (tag :: tags) ∅ []) = Some tag.
Proof.
  cbn [unique_loop]. destruct (decide (tag ∈ (∅ : gset string))) as [Hin|_].
  - by apply not_elem_of_empty in Hin.
  - destruct (unique_loop_prefix tags ({[tag]} ∪ ∅) ([] ++ [tag])%list) as [rest ->].
    reflexivity.
Qed.

(** While [seen] holds exactly the collected tags, no tag is collected
    twice. *)
Lemma unique_loop_NoDup (tags : list string) :
  ∀ (seen : gset string) (acc : list string),
    NoDup acc → (∀ x, x ∈ acc ↔ x ∈ seen) →
    NoDup (unique_loop tags seen acc).
Proof.
  induction tags as [|tag tags IH]; intros seen acc Hnd Hseen; simpl.
  - done.
  - destruct (decide (tag ∈ seen)) as [Hin|Hnin].
    + by apply IH.
    + apply IH.
      * apply NoDup_app. split_and!; [done| |apply NoDup_singleton].
        intros x Hx Hx'. apply list_elem_of_singleton in Hx' as ->.
        by apply Hnin, Hseen.
      * intros x.
        rewrite elem_of_app, list_elem_of_singleton, elem_of_union,
          elem_of_singleton, Hseen.
        tauto.
Qed.

Lemma NoDup_take {A} (n : nat) (l : list A) : NoDup l → NoDup (take n l).
Proof.
  intros H. rewrite <- (take_drop n l) in H. by apply NoDup_app in H as [? _].
Qed.

Lemma head_take_S {A} (n : nat) (l : list A) : head (take (S n) l) = head l.
Proof. by destruct l. Qed.

Lemma generate_tags_NoDup lower artist_type producer_name :
  NoDup (_generate_tags lower artist_type producer_name).
Proof.
  unfold _generate_tags. apply NoDup_take, unique_loop_NoDup.
  - constructor.
  - intros x. split; intros Hx.
    + by apply elem_of_nil in Hx.
    + by apply not_elem_of_empty in Hx.
Qed.

Lemma generate_tags_head lower artist_type producer_name :
  head (_generate_tags lower artist_type producer_name) = Some (lower producer_name).
Proof.
  unfold _generate_tags. rewrite head_take_S.
  destruct (Str.contains_char " " artist_type); apply unique_loop_head.
Qed.

End MetadataProps.

(** C9. For every artist-type and producer-name string (and whatever the
    case mapping [lower] is), the tag list returned by [generate_metadata]
    has no duplicate entries, has at most 50 elements and starts with the
    lower-cased producer name; the title is exactly
    [[FREE] {artistType} Type Beat - "{beatName}"]; and the result is a
    function of the arguments alone: equal arguments give equal results. *)
Theorem generate_metadata_tags_title
    (lower : string -> string) (artist_type beat_name purchase_link producer_name : string) :
  let m := MetadataGenerator.generate_metadata lower
             artist_type beat_name purchase_link producer_name in
  NoDup (MetadataGenerator.tags m)
  ∧ (List.length (MetadataGenerator.tags m) ≤ 50)%nat
  ∧ head (MetadataGenerator.tags m) = Some (lower producer_name)
  ∧ MetadataGenerator.title m =
      "[FREE] " +:+ artist_type +:+ " Type Beat - "
        +:+ String (ascii_of_nat 34) "" +:+ beat_name +:+ String (ascii_of_nat 34) ""
  ∧ (∀ artist_type' beat_name' purchase_link' producer_name',
       (artist_type', beat_name', purchase_link', producer_name')
         = (artist_type, beat_name, purchase_link, producer_name) →
       MetadataGenerator.generate_metadata lower
         artist_type' beat_name' purchase_link' producer_name' = m).
Proof.
  intros m. subst m. unfold MetadataGenerator.generate_metadata.
  cbn [MetadataGenerator.tags MetadataGenerator.title]. split_and!.
  - apply generate_tags_NoDup.
  - unfold MetadataGenerator._generate_tags. rewrite length_take. lia.
  - apply generate_tags_head.
  - reflexivity.
  - intros a b l p [= -> -> -> ->]. reflexivity.
Qed.

(** The theorem at one concrete request. *)
Lemma generate_metadata_tags_title_witness :
  let m := MetadataGenerator.generate_metadata Str.ascii_lower
             "Travis Scott" "Night Drive" "" "Producer" in
  NoDup (MetadataGenerator.tags m)
  ∧ (List.length (MetadataGenerator.tags m) ≤ 50)%nat
  ∧ head (MetadataGenerator.tags m) = Some "producer"
  ∧ MetadataGenerator.generate_metadata Str.ascii_lower
      "Travis Scott" "Night Drive" "" "Producer" = m.
Proof.
  pose proof (generate_metadata_tags_title Str.ascii_lower
                "Travis Scott" "Night Drive" "" "Producer") as (H1 & H2 & H3 & _ & H5).
  split_and!; [exact H1 | exact H2 | exact H3 | apply H5; reflexivity].
Defined.

(** ** Image normalization *)



Lemma process_image_run (E : Env) (image_path : string) (opened : Image) (s : Sys) :
  fs s !! image_path = Some (FImage opened) →
  VideoCreator._process_image E image_path s
  = (Ok (VideoCreator.processed_path_of image_path),
     set_fs (insert (VideoCreator.processed_path_of image_path)
               (FImage (VideoCreator.compose_cover E opened))) s).
Proof.
  intros Hopen.
  unfold VideoCreator._process_image, try_catch, bind, read_file.
  rewrite Hopen. reflexivity.
Qed.



(** ** Rounding to the nearest float

    What the expiry check needs of the arithmetic of floats: rounding keeps
    the order, and leaves the value of a float as it is. *)

Section Rounding.

Import Binary64.
Local Open Scope Q_scope.

Lemma pow2_pos (k : Z) : 0 < pow2 k.
Proof. apply Qpower_0_lt. reflexivity. Qed.

Lemma pow2_plus (a b : Z) : pow2 (a + b) == pow2 a * pow2 b.
Proof. apply Qpower_plus. discriminate. Qed.

Lemma pow2_le (a b : Z) : (a <= b)%Z -> pow2 a <= pow2 b.
Proof. intros H. apply Qpower_le_compat_l; [exact H|]. discriminate. Qed.

Lemma pow2_lt (a b : Z) : (a < b)%Z -> pow2 a < pow2 b.
Proof. intros H. apply Qpower_lt_compat_l; [exact H|]. reflexivity. Qed.

Lemma pow2_lt_inv (a b : Z) : pow2 a < pow2 b -> (a < b)%Z.
Proof. intros H. apply (Qpower_lt_compat_l_inv 2); [exact H|]. reflexivity. Qed.

Lemma pow2_Z (n : Z) : (0 <= n)%Z -> inject_Z (2 ^ n) == pow2 n.
Proof. intros H. unfold pow2. rewrite Zpower_Qpower by exact H. reflexivity. Qed.

Lemma ilog2_spec (q : Q) :
  ~ q == 0 -> pow2 (ilog2 q) <= Qabs q /\ Qabs q < pow2 (ilog2 q + 1).
Proof.
  intros Hq. unfold ilog2.
  set (N := Z.abs (Qnum q)). set (D := Zpos (Qden q)).
  set (k := (Z.log2 N - Z.log2 D)%Z).
  assert (HN : (0 < N)%Z).
  { unfold N. destruct q as [n d]. cbn. unfold Qeq in Hq. cbn in Hq. lia. }
  assert (HD : (0 < D)%Z) by (unfold D; lia).
  assert (Habs : Qabs q == inject_Z N / inject_Z D).
  { unfold N, D. destruct q as [n d]. cbn. apply Qmake_Qdiv. }
  pose proof (Z.log2_spec N HN) as [HN1 HN2].
  pose proof (Z.log2_spec D HD) as [HD1 HD2].
  pose proof (Z.log2_nonneg N) as Ha. pose proof (Z.log2_nonneg D) as Hb.
  assert (HN1' : pow2 (Z.log2 N) <= inject_Z N).
  { rewrite <- pow2_Z by exact Ha. rewrite <- Zle_Qle. exact HN1. }
  assert (HN2' : inject_Z N < pow2 (Z.log2 N + 1)).
  { rewrite <- pow2_Z by lia. rewrite <- Zlt_Qlt. exact HN2. }
  assert (HD1' : pow2 (Z.log2 D) <= inject_Z D).
  { rewrite <- pow2_Z by exact Hb. rewrite <- Zle_Qle. exact HD1. }
  assert (HD2' : inject_Z D < pow2 (Z.log2 D + 1)).
  { rewrite <- pow2_Z by lia. rewrite <- Zlt_Qlt. exact HD2. }
  assert (HDpos : 0 < inject_Z D).
  { change 0 with (inject_Z 0). rewrite <- Zlt_Qlt. exact HD. }
  assert (Hupper : Qabs q < pow2 (k + 1)).
  { rewrite Habs. apply Qlt_shift_div_r; [exact HDpos|].
    eapply Qlt_le_trans; [exact HN2'|].
    replace (Z.log2 N + 1)%Z with ((k + 1) + Z.log2 D)%Z by (unfold k; lia).
    rewrite pow2_plus. apply Qmult_le_l; [apply pow2_pos|exact HD1']. }
  assert (Hlower : pow2 (k - 1) < Qabs q).
  { rewrite Habs. apply Qlt_shift_div_l; [exact HDpos|].
    eapply Qlt_le_trans; [|exact HN1'].
    replace (Z.log2 N) with ((k - 1) + (Z.log2 D + 1))%Z by (unfold k; lia).
    rewrite pow2_plus. apply Qmult_lt_l; [apply pow2_pos|exact HD2']. }
  destruct (Qle_bool (pow2 k) (Qabs q)) eqn:Hle.
  - apply Qle_bool_iff in Hle. split; [exact Hle|exact Hupper].
  - split; [apply Qlt_le_weak; exact Hlower|].
    replace (k - 1 + 1)%Z with k by lia.
    apply Qnot_le_lt. intros H. apply Qle_bool_iff in H. congruence.
Qed.

Lemma ilog2_le (x y : Q) :
  ~ x == 0 -> ~ y == 0 -> Qabs x <= Qabs y -> (ilog2 x <= ilog2 y)%Z.
Proof.
  intros Hx Hy Hle.
  destruct (ilog2_spec x Hx) as [Hx1 _]. destruct (ilog2_spec y Hy) as [_ Hy2].
  assert (H : pow2 (ilog2 x) < pow2 (ilog2 y + 1)).
  { eapply Qle_lt_trans; [exact Hx1|]. eapply Qle_lt_trans; [exact Hle|exact Hy2]. }
  apply pow2_lt_inv in H. lia.
Qed.

Lemma round_even_bounds (x : Q) :
  (Qfloor x <= round_even x <= Qfloor x + 1)%Z.
Proof.
  unfold round_even.
  destruct (x - inject_Z (Qfloor x) ?= 1 # 2); [destruct (Z.even (Qfloor x))| |]; lia.
Qed.

Lemma round_even_le (x y : Q) : x <= y -> (round_even x <= round_even y)%Z.
Proof.
  intros Hle. pose proof (Qfloor_resp_le x y Hle) as Hf.
  pose proof (round_even_bounds x). pose proof (round_even_bounds y).
  destruct (Z.eq_dec (Qfloor x) (Qfloor y)) as [Heq|Hne]; [|lia].
  unfold round_even. rewrite <- Heq.
  destruct (Qcompare_spec (x - inject_Z (Qfloor x)) (1 # 2)) as [Hx|Hx|Hx];
    destruct (Qcompare_spec (y - inject_Z (Qfloor x)) (1 # 2)) as [Hy|Hy|Hy];
    try destruct (Z.even (Qfloor x)); try lia; exfalso; lra.
Qed.

Lemma round_even_Z (n : Z) : round_even (inject_Z n) = n.
Proof.
  unfold round_even. rewrite Qfloor_Z.
  destruct (Qcompare_spec (inject_Z n - inject_Z n) (1 # 2)) as [H|H|H];
    [exfalso; lra|reflexivity|exfalso; lra].
Qed.

Lemma round_even_ge (n : Z) (x : Q) : inject_Z n <= x -> (n <= round_even x)%Z.
Proof. intros H. rewrite <- (round_even_Z n). by apply round_even_le. Qed.

Lemma round_even_le_Z (n : Z) (x : Q) : x <= inject_Z n -> (round_even x <= n)%Z.
Proof. intros H. rewrite <- (round_even_Z n). by apply round_even_le. Qed.


Lemma nearest_zero (q : Q) : q == 0 -> nearest q = 0.
Proof. intros H. unfold nearest. by rewrite (Qeq_eq_bool _ _ H). Qed.

Lemma nearest_nonzero (q : Q) :
  ~ q == 0 ->
  nearest q == inject_Z (round_even (q / pow2 (ulp_exp q))) * pow2 (ulp_exp q).
Proof.
  intros H. unfold nearest.
  destruct (Qeq_bool q 0) eqn:Hq; [by apply Qeq_bool_eq in Hq|].
  apply Qred_correct.
Qed.

Lemma ulp_exp_le (x y : Q) :
  ~ x == 0 -> ~ y == 0 -> Qabs x <= Qabs y -> (ulp_exp x <= ulp_exp y)%Z.
Proof.
  intros Hx Hy Hle. pose proof (ilog2_le x y Hx Hy Hle). unfold ulp_exp. lia.
Qed.

(** Scaling by a power of two. *)
Lemma scaled_le (k : Z) (x y : Q) : x <= y -> x / pow2 k <= y / pow2 k.
Proof.
  intros H. apply Qle_shift_div_l; [apply pow2_pos|].
  unfold Qdiv. rewrite <- Qmult_assoc, (Qmult_comm (/ pow2 k)), Qmult_inv_r, Qmult_1_r.
  - exact H.
  - pose proof (pow2_pos k). lra.
Qed.

Lemma scaled_ge_pow2 (a k : Z) (x : Q) : pow2 (a + k) <= x -> pow2 a <= x / pow2 k.
Proof.
  intros H. apply Qle_shift_div_l; [apply pow2_pos|]. by rewrite <- pow2_plus.
Qed.

Lemma scaled_le_pow2 (a k : Z) (x : Q) : x <= pow2 (a + k) -> x / pow2 k <= pow2 a.
Proof.
  intros H. apply Qle_shift_div_r; [apply pow2_pos|]. by rewrite <- pow2_plus.
Qed.

Lemma scaled_le_opp_pow2 (a k : Z) (x : Q) : x <= - pow2 (a + k) -> x / pow2 k <= - pow2 a.
Proof.
  intros H. apply Qle_shift_div_r; [apply pow2_pos|].
  rewrite pow2_plus in H. lra.
Qed.

Lemma scaled_ge_opp_pow2 (a k : Z) (x : Q) : - pow2 (a + k) <= x -> - pow2 a <= x / pow2 k.
Proof.
  intros H. apply Qle_shift_div_l; [apply pow2_pos|].
  rewrite pow2_plus in H. lra.
Qed.

(** The rounded value of a scaled number, against a power of two. *)
Lemma rounded_ge_pow2 (a k : Z) (x : Q) :
  (0 <= a)%Z -> pow2 (a + k) <= x ->
  pow2 (a + k) <= inject_Z (round_even (x / pow2 k)) * pow2 k.
Proof.
  intros Ha H. rewrite pow2_plus.
  pose proof (pow2_Z a Ha) as Hp. pose proof (pow2_pos k) as Hk.
  assert (Hz : (2 ^ a <= round_even (x / pow2 k))%Z).
  { apply round_even_ge. pose proof (scaled_ge_pow2 a k x H). lra. }
  rewrite Zle_Qle in Hz.
  apply (Qmult_le_compat_r _ _ (pow2 k)) in Hz; [|lra].
  rewrite Hp in Hz. exact Hz.
Qed.

Lemma rounded_le_pow2 (a k : Z) (x : Q) :
  (0 <= a)%Z -> x <= pow2 (a + k) ->
  inject_Z (round_even (x / pow2 k)) * pow2 k <= pow2 (a + k).
Proof.
  intros Ha H. rewrite pow2_plus.
  pose proof (pow2_Z a Ha) as Hp. pose proof (pow2_pos k) as Hk.
  assert (Hz : (round_even (x / pow2 k) <= 2 ^ a)%Z).
  { apply round_even_le_Z. pose proof (scaled_le_pow2 a k x H). lra. }
  rewrite Zle_Qle in Hz.
  apply (Qmult_le_compat_r _ _ (pow2 k)) in Hz; [|lra].
  rewrite Hp in Hz. exact Hz.
Qed.

Lemma rounded_le_opp_pow2 (a k : Z) (x : Q) :
  (0 <= a)%Z -> x <= - pow2 (a + k) ->
  inject_Z (round_even (x / pow2 k)) * pow2 k <= - pow2 (a + k).
Proof.
  intros Ha H. rewrite pow2_plus.
  pose proof (pow2_Z a Ha) as Hp. pose proof (pow2_pos k) as Hk.
  assert (Hz : (round_even (x / pow2 k) <= - 2 ^ a)%Z).
  { apply round_even_le_Z. rewrite inject_Z_opp.
    pose proof (scaled_le_opp_pow2 a k x H). lra. }
  rewrite Zle_Qle, inject_Z_opp in Hz.
  apply (Qmult_le_compat_r _ _ (pow2 k)) in Hz; [|lra].
  rewrite Hp in Hz. lra.
Qed.

Lemma rounded_ge_opp_pow2 (a k : Z) (x : Q) :
  (0 <= a)%Z -> - pow2 (a + k) <= x ->
  - pow2 (a + k) <= inject_Z (round_even (x / pow2 k)) * pow2 k.
Proof.
  intros Ha H. rewrite pow2_plus.
  pose proof (pow2_Z a Ha) as Hp. pose proof (pow2_pos k) as Hk.
  assert (Hz : (- 2 ^ a <= round_even (x / pow2 k))%Z).
  { apply round_even_ge. rewrite inject_Z_opp.
    pose proof (scaled_ge_opp_pow2 a k x H). lra. }
  rewrite Zle_Qle, inject_Z_opp in Hz.
  apply (Qmult_le_compat_r _ _ (pow2 k)) in Hz; [|lra].
  rewrite Hp in Hz. lra.
Qed.

Lemma nearest_nonneg (q : Q) : 0 <= q -> 0 <= nearest q.
Proof.
  intros H. destruct (Qeq_dec q 0) as [Hz|Hnz].
  - rewrite nearest_zero by exact Hz. lra.
  - rewrite nearest_nonzero by exact Hnz.
    apply Qmult_le_0_compat; [|apply Qlt_le_weak, pow2_pos].
    change 0 with (inject_Z 0). rewrite <- Zle_Qle. apply round_even_ge.
    change (inject_Z 0) with 0. apply Qle_shift_div_l; [apply pow2_pos|]. lra.
Qed.

Lemma nearest_nonpos (q : Q) : q <= 0 -> nearest q <= 0.
Proof.
  intros H. destruct (Qeq_dec q 0) as [Hz|Hnz].
  - rewrite nearest_zero by exact Hz. lra.
  - rewrite nearest_nonzero by exact Hnz.
    assert (Hr : inject_Z (round_even (q / pow2 (ulp_exp q))) <= 0).
    { change 0 with (inject_Z 0). rewrite <- Zle_Qle. apply round_even_le_Z.
      change (inject_Z 0) with 0. apply Qle_shift_div_r; [apply pow2_pos|]. lra. }
    pose proof (pow2_pos (ulp_exp q)).
    apply (Qmult_le_compat_r _ _ (pow2 (ulp_exp q))) in Hr; [|lra]. lra.
Qed.

Lemma nearest_same_exp (x y : Q) :
  ~ x == 0 -> ~ y == 0 -> ulp_exp x = ulp_exp y -> x <= y -> nearest x <= nearest y.
Proof.
  intros Hx Hy Hexp Hle.
  rewrite (nearest_nonzero x Hx), (nearest_nonzero y Hy), Hexp.
  apply Qmult_le_compat_r; [|apply Qlt_le_weak, pow2_pos].
  rewrite <- Zle_Qle. apply round_even_le. by apply scaled_le.
Qed.

Lemma ulp_exp_above (q r : Q) :
  (ulp_exp r < ulp_exp q)%Z -> ulp_exp q = (ilog2 q - 52)%Z.
Proof. unfold ulp_exp. lia. Qed.

Lemma nearest_le_pos (x y : Q) : 0 < x -> x <= y -> nearest x <= nearest y.
Proof.
  intros Hx Hle.
  assert (Hxz : ~ x == 0) by lra. assert (Hyz : ~ y == 0) by lra.
  assert (Hax : Qabs x == x) by (apply Qabs_pos; lra).
  assert (Hay : Qabs y == y) by (apply Qabs_pos; lra).
  assert (Hexp : (ulp_exp x <= ulp_exp y)%Z).
  { apply ulp_exp_le; try done. rewrite Hax, Hay. exact Hle. }
  destruct (Z.eq_dec (ulp_exp x) (ulp_exp y)) as [Heq|Hne];
    [by apply nearest_same_exp|].
  destruct (ilog2_spec x Hxz) as [_ Hx2]. destruct (ilog2_spec y Hyz) as [Hy1 _].
  rewrite Hax in Hx2. rewrite Hay in Hy1.
  assert (Hy' : ulp_exp y = (ilog2 y - 52)%Z).
  { apply (ulp_exp_above y x). lia. }
  assert (Hx' : (ilog2 x + 1 <= 53 + ulp_exp x)%Z) by (unfold ulp_exp; lia).
  rewrite (nearest_nonzero x Hxz), (nearest_nonzero y Hyz).
  apply (Qle_trans _ (pow2 (53 + ulp_exp x))).
  - apply rounded_le_pow2; [lia|].
    apply Qlt_le_weak. eapply Qlt_le_trans; [exact Hx2|]. by apply pow2_le.
  - apply (Qle_trans _ (pow2 (52 + ulp_exp y))).
    + apply pow2_le. lia.
    + apply rounded_ge_pow2; [lia|].
      replace (52 + ulp_exp y)%Z with (ilog2 y) by lia. exact Hy1.
Qed.

Lemma nearest_le_neg (x y : Q) : y < 0 -> x <= y -> nearest x <= nearest y.
Proof.
  intros Hy Hle.
  assert (Hxz : ~ x == 0) by lra. assert (Hyz : ~ y == 0) by lra.
  assert (Hax : Qabs x == - x) by (apply Qabs_neg; lra).
  assert (Hay : Qabs y == - y) by (apply Qabs_neg; lra).
  assert (Hexp : (ulp_exp y <= ulp_exp x)%Z).
  { apply ulp_exp_le; try done. rewrite Hax, Hay. lra. }
  destruct (Z.eq_dec (ulp_exp x) (ulp_exp y)) as [Heq|Hne];
    [by apply nearest_same_exp|].
  destruct (ilog2_spec x Hxz) as [Hx1 _]. destruct (ilog2_spec y Hyz) as [_ Hy2].
  rewrite Hax in Hx1. rewrite Hay in Hy2.
  assert (Hx' : ulp_exp x = (ilog2 x - 52)%Z).
  { apply (ulp_exp_above x y). lia. }
  assert (Hy' : (ilog2 y + 1 <= 53 + ulp_exp y)%Z) by (unfold ulp_exp; lia).
  rewrite (nearest_nonzero x Hxz), (nearest_nonzero y Hyz).
  apply (Qle_trans _ (- pow2 (52 + ulp_exp x))).
  - apply rounded_le_opp_pow2; [lia|].
    replace (52 + ulp_exp x)%Z with (ilog2 x) by lia. lra.
  - apply (Qle_trans _ (- pow2 (53 + ulp_exp y))).
    + assert (pow2 (53 + ulp_exp y) <= pow2 (52 + ulp_exp x)) by (apply pow2_le; lia).
      lra.
    + apply rounded_ge_opp_pow2; [lia|].
      assert (pow2 (ilog2 y + 1) <= pow2 (53 + ulp_exp y)) by (by apply pow2_le).
      lra.
Qed.

(** Rounding to the nearest float keeps the order. *)
Lemma nearest_le (x y : Q) : x <= y -> nearest x <= nearest y.
Proof.
  intros Hle.
  destruct (Qlt_le_dec 0 x) as [Hx|Hx]; [by apply nearest_le_pos|].
  destruct (Qlt_le_dec y 0) as [Hy|Hy]; [by apply nearest_le_neg|].
  apply (Qle_trans _ 0); [by apply nearest_nonpos|by apply nearest_nonneg].
Qed.




(** The value of a float is its own nearest float, and is in range. *)
Lemma is_double_spec (q : Q) :
  is_double q = true ->
  exists r, of_Q q = Finite r /\ r == q /\ nearest q == q /\ Qabs q < pow2 1024.
Proof.
  unfold is_double, of_Q.
  destruct (Qle_bool (pow2 1024) (Qabs (nearest q))) eqn:Hbig; [done|].
  intros Heq. apply Qeq_bool_eq in Heq.
  exists (nearest q). split_and!; try done.
  apply Qnot_le_lt. intros Hle. rewrite <- Heq in Hle.
  apply Qle_bool_iff in Hle. congruence.
Qed.

(** Subtraction never makes the age larger than a float it is below. *)
Lemma sub_below (a c e : Q) :
  is_double c = true -> is_double e = true -> a - c <= e ->
  exists age, sub a c = Some age /\ gtb age e = false.
Proof.
  intros Hc He Hle.
  destruct (is_double_spec c Hc) as (c' & Hof & Hc' & _).
  destruct (is_double_spec e He) as (e' & _ & _ & Hne & Hrange).
  unfold sub. rewrite Hof. eexists. split; [reflexivity|].
  assert (Hr : nearest (a - c') <= e).
  { rewrite <- Hne. apply nearest_le. rewrite Hc'. exact Hle. }
  unfold of_Q.
  destruct (Qle_bool (pow2 1024) (Qabs (nearest (a - c')))) eqn:Hbig; cbn [gtb].
  - apply negb_false_iff, negb_true_iff.
    destruct (Qle_bool 0 (nearest (a - c'))) eqn:Hpos; [|reflexivity].
    exfalso. apply Qle_bool_iff in Hbig, Hpos.
    rewrite Qabs_pos in Hbig by exact Hpos.
    assert (e <= Qabs e) by apply Qle_Qabs. lra.
  - apply negb_false_iff, Qle_bool_iff. exact Hr.
Qed.


End Rounding.

(** ** Credential expiry *)







(** Rounding can delay expiry, by less than the spacing of the floats: for
    a record issued [2^-30] seconds before the epoch with a lifetime of
    1700000000 seconds, checked at 1700000000, the exact age exceeds the
    lifetime, the float age equals it, and the check answers [False]. *)
Lemma token_expiry_delayed_by_rounding :
  (1700000000 < 1700000000 - - (1 # 1073741824))%Q
  ∧ Binary64.sub 1700000000 (- (1 # 1073741824)) = Some (Binary64.Finite 1700000000)
  ∧ YouTubeUploader.token_expired
      (<["created_at" := JNum (- (1 # 1073741824))]>
       (<["expires_in" := JNum 1700000000]> ∅)) 1700000000 tt
    = (Ok false, tt).
Proof. split_and!; vm_compute; reflexivity. Qed.

(** ** Token refresh *)

(** The two ways the [try] block of [refresh_access_token] can end: it
    raises and no file has changed, or it has read an object with a truthy
    refresh token, received a JSON answer without [error] and with an
    [access_token], and rewritten the credential file once. *)
Lemma refresh_try_cases (E : Env) (self : YouTubeUploader.Uploader)
    (creds_path : string) (s : Sys) :
  post (YouTubeUploader.refresh_try E self creds_path) s (λ r s',
    (∃ e, r = Raise e ∧ fs s' = fs s
          ∧ (log s' = log s
             ∨ ∃ rt, log s' = (log s ++ [YouTubeUploader.refresh_request self rt])%list))
    ∨ (∃ d rt resp rd tok,
         fs s !! creds_path = Some (FJson d)
         ∧ d !! "refresh_token" = Some rt ∧ truthy rt = true
         ∧ http E (log s) (YouTubeUploader.refresh_request self rt) = HttpResp resp
         ∧ json_body resp = Some rd
         ∧ rd !! "error" = None
         ∧ rd !! "access_token" = Some tok
         ∧ r = Ok tok
         ∧ s' = {| fs := <[creds_path :=
                       FJson (match rd !! "expires_in" with
                              | Some v => <["expires_in" := v]>
                                            (<["created_at" := JNum (clock E (ticks s))]>
                                               (<["access_token" := tok]> d))
                              | None => <["created_at" := JNum (clock E (ticks s))]>
                                          (<["access_token" := tok]> d)
                              end)]> (fs s);
                   log := (log s ++ [YouTubeUploader.refresh_request self rt])%list;
                   ticks := Datatypes.S (ticks s) |})).
Proof.
  unfold YouTubeUploader.refresh_try.
  repeat run_step; try (left; eexists; split_and!; eauto; fail).
  - (* the file is rewritten *)
    match goal with
    | Hrt : ?d !! "refresh_token" = Some ?rt,
      Htruthy : negb (truthy (default JNull (?d !! "refresh_token"))) = false,
      Hhttp : http E _ _ = HttpResp ?resp,
      Hbody : json_body ?resp = Some ?rd,
      Htok : ?rd !! "access_token" = Some ?tok,
      Htok' : ?rd !! "access_token" = Some ?tok' |- _ =>
        rewrite Hrt in Htruthy; cbn [default from_option id] in Htruthy;
        apply negb_false_iff in Htruthy;
        assert (tok' = tok) as -> by congruence;
        right; exists d, rt, resp, rd, tok
    end.
    split_and!; done.
  - (* the second read of the token cannot fail after the first *)
    congruence.
Qed.

(** [refresh_access_token] always returns: the token, or [None]. *)
Lemma refresh_access_token_cases (E : Env) (self : YouTubeUploader.Uploader)
    (creds_path : string) (s : Sys) :
  post (YouTubeUploader.refresh_access_token E self creds_path) s (λ r s',
    ∃ r0, YouTubeUploader.refresh_try E self creds_path s = (r0, s')
          ∧ r = Ok (match r0 with Ok tok => tok | Raise _ => JNull end)).
Proof.
  unfold YouTubeUploader.refresh_access_token, post, try_catch.
  destruct (YouTubeUploader.refresh_try E self creds_path s) as [[tok|e] s'];
    cbn; eauto.
Qed.


(** C7, as the code has it. If the stored record lacks a (truthy) refresh
    token, or the POST to the token endpoint fails in transport, or the
    answer cannot be decoded as JSON, carries an [error] member or lacks
    [access_token], then [refresh_access_token] returns [None] and every
    file, the credential file included, is as it was; and whenever the
    [try] block raises, whatever the reason, no file has been written.
    The HTTP status of the answer is not looked at. *)
Theorem refresh_failure_keeps_credentials
    (E : Env) (self : YouTubeUploader.Uploader) (creds_path : string) (s : Sys) :
  (∀ e s', YouTubeUploader.refresh_try E self creds_path s = (Raise e, s') →
           YouTubeUploader.refresh_access_token E self creds_path s = (Ok JNull, s')
           ∧ fs s' = fs s)
  ∧ (∀ d : gmap string json,
       fs s !! creds_path = Some (FJson d) →
       truthy (default JNull (d !! "refresh_token")) = false
       ∨ (∃ msg, http E (log s)
                   (YouTubeUploader.refresh_request self (default JNull (d !! "refresh_token")))
                 = HttpFail msg)
       ∨ (∃ resp, http E (log s)
                    (YouTubeUploader.refresh_request self (default JNull (d !! "refresh_token")))
                  = HttpResp resp
                  ∧ match json_body resp with
                    | None => True
                    | Some rd => is_Some (rd !! "error") ∨ rd !! "access_token" = None
                    end) →
       ∃ s', YouTubeUploader.refresh_access_token E self creds_path s = (Ok JNull, s')
             ∧ fs s' = fs s).
Proof.
  assert (Hraise : ∀ e s',
            YouTubeUploader.refresh_try E self creds_path s = (Raise e, s') →
            YouTubeUploader.refresh_access_token E self creds_path s = (Ok JNull, s')
            ∧ fs s' = fs s).
  { intros e s' Hrun. split.
    - unfold YouTubeUploader.refresh_access_token, try_catch. by rewrite Hrun.
    - pose proof (post_run _ _ _ _ _ (refresh_try_cases E self creds_path s) Hrun)
        as [(e' & _ & Hfs & _)|(d & rt & resp & rd & tok & H)].
      + exact Hfs.
      + destruct H as (_ & _ & _ & _ & _ & _ & _ & Hr & _). discriminate. }
  split; [exact Hraise|].
  intros d Hd Hfail.
  destruct (YouTubeUploader.refresh_try E self creds_path s) as [r s'] eqn:Hrun.
  pose proof (post_run _ _ _ _ _ (refresh_try_cases E self creds_path s) Hrun)
    as [(e & -> & _)|(d' & rt & resp & rd & tok & Hd' & Hrt & Htruthy & Hhttp & Hbody & Herr & Htok & _)].
  - exists s'. by apply (Hraise e).
  - exfalso. rewrite Hd in Hd'. injection Hd' as <-.
    rewrite Hrt in Hfail. cbn [default from_option id] in Hfail.
    destruct Hfail as [Hno|[(msg & Hmsg)|(resp' & Hresp' & Hbad)]].
    + congruence.
    + congruence.
    + rewrite Hhttp in Hresp'. injection Hresp' as <-.
      rewrite Hbody in Hbad. destruct Hbad as [[err Herr']|Hnone]; congruence.
Qed.

(** Scenario 3 of the specification (a record without refresh token), and
    a token endpoint that answers with an OAuth error document. *)
Lemma refresh_failure_keeps_credentials_witness :
  (∃ s', YouTubeUploader.refresh_access_token Demo.env_ok Demo.uploader Demo.creds_path
           (Demo.sys0 (Demo.creds JNull 1000)) = (Ok JNull, s')
         ∧ fs s' = fs (Demo.sys0 (Demo.creds JNull 1000)))
  ∧ (∃ s', YouTubeUploader.refresh_access_token
             (Demo.env Demo.probe_ok Demo.encode_ok Demo.net_token_error)
             Demo.uploader Demo.creds_path
             (Demo.sys0 (Demo.creds (JStr "r1") 1000)) = (Ok JNull, s')
           ∧ fs s' = fs (Demo.sys0 (Demo.creds (JStr "r1") 1000))).
Proof.
  split.
  - apply (proj2 (refresh_failure_keeps_credentials Demo.env_ok Demo.uploader
                    Demo.creds_path (Demo.sys0 (Demo.creds JNull 1000)))
             (Demo.creds JNull 1000)).
    + reflexivity.
    + left. reflexivity.
  - apply (proj2 (refresh_failure_keeps_credentials
                    (Demo.env Demo.probe_ok Demo.encode_ok Demo.net_token_error)
                    Demo.uploader Demo.creds_path
                    (Demo.sys0 (Demo.creds (JStr "r1") 1000)))
             (Demo.creds (JStr "r1") 1000)).
    + reflexivity.
    + right. right. eexists. split; [reflexivity|].
      cbn [json_body]. left. by eexists.
Defined.

(** An answer with status 400 whose body has an access token and no
    [error] member is taken for a success: the token is returned and the
    credential file is rewritten. *)
Lemma refresh_ignores_http_status_counterexample :
  (∃ resp,
     http (Demo.env Demo.probe_ok Demo.encode_ok Demo.net_status_400_with_token) []
       (YouTubeUploader.refresh_request Demo.uploader (JStr "r1")) = HttpResp resp
     ∧ status resp = 400%Z)
  ∧ fst (YouTubeUploader.refresh_access_token
           (Demo.env Demo.probe_ok Demo.encode_ok Demo.net_status_400_with_token)
           Demo.uploader Demo.creds_path (Demo.sys0 (Demo.creds (JStr "r1") 1000)))
    = Ok (JStr "fresh")
  ∧ fs (snd (YouTubeUploader.refresh_access_token
               (Demo.env Demo.probe_ok Demo.encode_ok Demo.net_status_400_with_token)
               Demo.uploader Demo.creds_path (Demo.sys0 (Demo.creds (JStr "r1") 1000))))
    ≠ fs (Demo.sys0 (Demo.creds (JStr "r1") 1000)).
Proof.
  split_and!.
  - eexists. split; reflexivity.
  - vm_compute. reflexivity.
  - intros Heq.
    apply (f_equal (λ m : gmap string file,
                      match m !! Demo.creds_path with
                      | Some (FJson d) => d !! "access_token"
                      | _ => None
                      end)) in Heq.
    vm_compute in Heq. discriminate.
Qed.

(** C10. Whenever the [try] block of a token refresh completes, that is,
    the refresh succeeds, exactly the credential file is rewritten, and
    the record written differs from the one read only in [access_token]
    (the token returned), [created_at] (the clock reading) and, when the
    answer carries one, [expires_in]; [refresh_token], [token_type],
    [scope] and every other member are written back as they were, whatever
    the answer contains: a refresh token in the answer is not stored. *)
Theorem refresh_success_frame
    (E : Env) (self : YouTubeUploader.Uploader) (creds_path : string)
    (s s' : Sys) (d : gmap string json) (tok : json) :
  fs s !! creds_path = Some (FJson d) →
  YouTubeUploader.refresh_try E self creds_path s = (Ok tok, s') →
  ∃ (resp : Response) (rd d' : gmap string json),
    YouTubeUploader.refresh_access_token E self creds_path s = (Ok tok, s')
    ∧ http E (log s)
        (YouTubeUploader.refresh_request self (default JNull (d !! "refresh_token")))
      = HttpResp resp
    ∧ json_body resp = Some rd
    ∧ fs s' = <[creds_path := FJson d']> (fs s)
    ∧ d' !! "access_token" = Some tok
    ∧ rd !! "access_token" = Some tok
    ∧ d' !! "created_at" = Some (JNum (clock E (ticks s)))
    ∧ d' !! "expires_in"
      = match rd !! "expires_in" with Some v => Some v | None => d !! "expires_in" end
    ∧ d' !! "refresh_token" = d !! "refresh_token"
    ∧ d' !! "token_type" = d !! "token_type"
    ∧ d' !! "scope" = d !! "scope"
    ∧ ∀ k : string,
        k ≠ "access_token" → k ≠ "created_at" → k ≠ "expires_in" →
        d' !! k = d !! k.
Proof.
  intros Hd Hrun.
  pose proof (post_run _ _ _ _ _ (refresh_try_cases E self creds_path s) Hrun)
    as [(e & He & _)|(d0 & rt & resp & rd & tok0 & Hd0 & Hrt & _ & Hhttp & Hbody & _ & Htok & Hr & ->)];
    [discriminate|].
  rewrite Hd in Hd0. injection Hd0 as <-. injection Hr as ->.
  exists resp, rd.
  eexists. split_and!.
  - unfold YouTubeUploader.refresh_access_token, try_catch. by rewrite Hrun.
  - by rewrite Hrt.
  - exact Hbody.
  - reflexivity.
  - destruct (rd !! "expires_in"); by simplify_map_eq.
  - exact Htok.
  - destruct (rd !! "expires_in"); by simplify_map_eq.
  - destruct (rd !! "expires_in"); by simplify_map_eq.
  - destruct (rd !! "expires_in"); by simplify_map_eq.
  - destruct (rd !! "expires_in"); by simplify_map_eq.
  - destruct (rd !! "expires_in"); by simplify_map_eq.
  - intros k H1 H2 H3. destruct (rd !! "expires_in"); by simplify_map_eq.
Qed.

(** A refresh whose answer carries a new access token, a lifetime and a
    rotated refresh token: the stored refresh token stays ["r1"]. *)
Lemma refresh_success_frame_witness :
  ∃ d' : gmap string json,
    fs (snd (YouTubeUploader.refresh_try Demo.env_ok Demo.uploader Demo.creds_path
               (Demo.sys0 (Demo.creds (JStr "r1") 1000))))
    = <[Demo.creds_path := FJson d']> (fs (Demo.sys0 (Demo.creds (JStr "r1") 1000)))
    ∧ d' !! "access_token" = Some (JStr "fresh")
    ∧ d' !! "refresh_token" = Some (JStr "r1").
Proof.
  destruct (refresh_success_frame Demo.env_ok Demo.uploader Demo.creds_path
              (Demo.sys0 (Demo.creds (JStr "r1") 1000))
              (snd (YouTubeUploader.refresh_try Demo.env_ok Demo.uploader Demo.creds_path
                      (Demo.sys0 (Demo.creds (JStr "r1") 1000))))
              (Demo.creds (JStr "r1") 1000) (JStr "fresh"))
    as (resp & rd & d' & _ & _ & _ & Hfs & Htok & _ & _ & _ & Hrt & _).
  - reflexivity.
  - vm_compute. reflexivity.
  - exists d'. split_and!; [exact Hfs|exact Htok|].
    rewrite Hrt. reflexivity.
Defined.

(** ** Publish: the requests sent *)

Lemma refresh_access_token_log (E : Env) (self : YouTubeUploader.Uploader)
    (creds_path : string) (s : Sys) :
  post (YouTubeUploader.refresh_access_token E self creds_path) s (λ r s',
    (∃ tok, r = Ok tok)
    ∧ (log s' = log s
       ∨ ∃ rt, log s' = (log s ++ [YouTubeUploader.refresh_request self rt])%list)).
Proof.
  apply post_intro. intros r s' Hrun.
  pose proof (post_run _ _ _ _ _ (refresh_access_token_cases E self creds_path s) Hrun)
    as (r0 & Htry & ->).
  split; [eauto|].
  pose proof (post_run _ _ _ _ _ (refresh_try_cases E self creds_path s) Htry)
    as [(e & _ & _ & Hlog)|(d & rt & resp & rd & tok & H)].
  - exact Hlog.
  - destruct H as (_ & _ & _ & _ & _ & _ & _ & _ & ->). right. by exists rt.
Qed.

(** The two phases send the initiation, and after it at most the
    transfer. *)
Lemma upload_phases_log (E : Env) (video_path : string)
    (metadata : MetadataGenerator.Metadata) (access_token : json) (s : Sys) :
  post (YouTubeUploader.upload_phases E video_path metadata access_token) s (λ r s',
    log s' = (log s ++ [YouTubeUploader.init_request access_token E metadata])%list
    ∨ ∃ loc data,
        log s' = (log s ++ [YouTubeUploader.init_request access_token E metadata;
                            YouTubeUploader.transfer_request loc data])%list).
Proof.
  unfold YouTubeUploader.upload_phases.
  repeat run_step; try (left; reflexivity);
    right; do 2 eexists; rewrite <- app_assoc; reflexivity.
Qed.

(** [upload_video] always returns a result dict, and what it sends is, in
    this order, at most one token refresh, at most one initiation and at
    most one transfer. *)
Lemma upload_video_log (E : Env) (self : YouTubeUploader.Uploader)
    (video_path : string) (metadata : MetadataGenerator.Metadata)
    (creds_path : string) (s : Sys) :
  post (YouTubeUploader.upload_video E self video_path metadata creds_path) s (λ r s',
    (∃ res, r = Ok res)
    ∧ ∃ sent, log s' = (log s ++ sent)%list
              ∧ YouTubeUploader.publish_requests E self metadata sent).
Proof.
  unfold YouTubeUploader.upload_video, YouTubeUploader.token_expired,
    YouTubeUploader.num_sub, YouTubeUploader.num_gt.
  repeat (run_step;
          try (split; [by eexists|]; exists []; rewrite !app_nil_r;
               split; [done|]; exists [], []; by eauto)).
  - (* the token is refreshed first *)
    eapply post_mono; [apply refresh_access_token_log|].
    intros r s1 [[tok ->] Hpre]. cbn [log] in Hpre. run_simpl.
    destruct (truthy tok); run_simpl.
    + eapply post_mono; [apply upload_phases_log|].
      intros r s2 Hph.
      assert (Hlog : ∃ sent, log s2 = (log s ++ sent)%list
                             ∧ YouTubeUploader.publish_requests E self metadata sent).
      { destruct Hpre as [Hpre|[rt Hpre]];
          destruct Hph as [Hph|(loc & data & Hph)];
          rewrite Hph, Hpre, <- ?app_assoc;
          (eexists; split; [reflexivity|]).
        - exists [], [YouTubeUploader.init_request tok E metadata]. eauto 10.
        - exists [], [YouTubeUploader.init_request tok E metadata;
                      YouTubeUploader.transfer_request loc data]. eauto 10.
        - exists [YouTubeUploader.refresh_request self rt],
            [YouTubeUploader.init_request tok E metadata]. eauto 10.
        - exists [YouTubeUploader.refresh_request self rt],
            [YouTubeUploader.init_request tok E metadata;
             YouTubeUploader.transfer_request loc data]. eauto 10. }
      destruct r; repeat run_step; (split; [by eexists|exact Hlog]).
    + run_step. split; [by eexists|].
      destruct Hpre as [Hpre|[rt Hpre]]; rewrite Hpre.
      * exists []. rewrite app_nil_r. split; [done|]. exists [], []. eauto.
      * eexists. split; [reflexivity|].
        exists [YouTubeUploader.refresh_request self rt], []. eauto 10.
  - (* the stored token is still good *)
    eapply post_mono; [apply upload_phases_log|].
    intros r s2 Hph. cbn [log] in Hph.
    assert (Hlog : ∃ sent, log s2 = (log s ++ sent)%list
                           ∧ YouTubeUploader.publish_requests E self metadata sent).
    { destruct Hph as [Hph|(loc & data & Hph)]; rewrite Hph;
        (eexists; split; [reflexivity|]).
      - eexists [], [_]. eauto 10.
      - eexists [], [_; _]. eauto 10. }
    destruct r; repeat run_step; (split; [by eexists|exact Hlog]).
Qed.

Lemma publish_requests_count (E : Env) (self : YouTubeUploader.Uploader)
    (metadata : MetadataGenerator.Metadata) (sent : list Request) :
  YouTubeUploader.publish_requests E self metadata sent →
  (List.length (List.filter YouTubeUploader.is_initiation sent) ≤ 1)%nat
  ∧ (List.length (List.filter YouTubeUploader.is_transfer sent) ≤ 1)%nat.
Proof.
  intros (pre & phases & -> & Hpre & Hph).
  rewrite !List.filter_app, !length_app.
  assert (List.length (List.filter YouTubeUploader.is_initiation pre) = 0
          ∧ List.length (List.filter YouTubeUploader.is_transfer pre) = 0)%nat
    as [-> ->].
  { destruct Hpre as [->|[rt ->]]; by split. }
  destruct Hph as [->|[(tok & ->)|(tok & loc & data & ->)]]; vm_compute; lia.
Qed.

(** C8. Every invocation of [upload_video] returns a result, and among
    the requests it has sent there is at most one initiation request and
    at most one transfer request, whichever phase fails. *)
Theorem upload_video_single_init_single_transfer
    (E : Env) (self : YouTubeUploader.Uploader) (video_path : string)
    (metadata : MetadataGenerator.Metadata) (creds_path : string) (s : Sys) :
  ∃ (res : YouTubeUploader.UploadResult) (s' : Sys) (sent : list Request),
    YouTubeUploader.upload_video E self video_path metadata creds_path s = (Ok res, s')
    ∧ log s' = (log s ++ sent)%list
    ∧ (List.length (List.filter YouTubeUploader.is_initiation sent) ≤ 1)%nat
    ∧ (List.length (List.filter YouTubeUploader.is_transfer sent) ≤ 1)%nat.
Proof.
  destruct (YouTubeUploader.upload_video E self video_path metadata creds_path s)
    as [r s'] eqn:Hrun.
  pose proof (post_run _ _ _ _ _
                (upload_video_log E self video_path metadata creds_path s) Hrun)
    as [[res ->] (sent & Hlog & Hsent)].
  exists res, s', sent. split_and!; [done|done|apply (publish_requests_count _ _ _ _ Hsent)..].
Qed.

(** ** Renderer *)

(** The duration probe never touches the state; it returns a duration
    exactly when the process exits with status zero and its output
    parses. *)
Lemma get_audio_duration_cases (E : Env) (audio_path : string) (s : Sys) :
  post (VideoCreator._get_audio_duration E audio_path) s (λ r s',
    s' = s
    ∧ match ffprobe E (fs s) (VideoCreator.ffprobe_cmd audio_path) with
      | ProbeExit 0 _ (inr duration) => r = Ok duration
      | _ => ∃ e, r = Raise e
      end).
Proof.
  unfold VideoCreator._get_audio_duration.
  run_step. run_step. run_step.
  destruct (ffprobe E (fs s) (VideoCreator.ffprobe_cmd audio_path))
    as [msg|returncode stderr parsed].
  - repeat run_step. eauto.
  - destruct returncode; cbn [Z.eqb negb]; [|repeat run_step; eauto..].
    destruct parsed; repeat run_step; eauto.
Qed.

(** Image normalization either writes the canvas at the scratch path, or
    raises and leaves the state as it was. *)
Lemma process_image_cases (E : Env) (image_path : string) (s : Sys) :
  post (VideoCreator._process_image E image_path) s (λ r s',
    (∃ opened, fs s !! image_path = Some (FImage opened)
               ∧ r = Ok (VideoCreator.processed_path_of image_path)
               ∧ s' = set_fs (insert (VideoCreator.processed_path_of image_path)
                                (FImage (VideoCreator.compose_cover E opened))) s)
    ∨ ((∀ opened, fs s !! image_path ≠ Some (FImage opened))
       ∧ (∃ e, r = Raise e) ∧ s' = s)).
Proof.
  unfold VideoCreator._process_image.
  repeat run_step;
    try (right; split_and!; [intros ?; congruence|by eexists|done]).
  left. eexists. split_and!; done.
Qed.

(** The encode step: a result is returned exactly when the encoder exits
    with status zero and leaves an output file of at least 1000 bytes;
    nothing but the output path changes, and no file disappears. *)
Lemma create_video_with_ffmpeg_cases (E : Env)
    (audio_path image_path output_path : string) (duration : Q) (s : Sys) :
  post (VideoCreator._create_video_with_ffmpeg E audio_path image_path output_path duration)
    s (λ r s',
    fs s' = VideoCreator.fs_after_encode
              (ffmpeg E (fs s) (VideoCreator.ffmpeg_cmd audio_path image_path output_path))
              output_path (fs s)
    ∧ log s' = log s ∧ ticks s' = ticks s
    ∧ match r with
      | Ok res =>
          ∃ f, fs s' !! output_path = Some f
               ∧ (1000 ≤ file_size E f)%N
               ∧ res = VideoCreator.RenderOk output_path (file_size E f) duration
      | Raise e =>
          (∀ stderr written,
             ffmpeg E (fs s) (VideoCreator.ffmpeg_cmd audio_path image_path output_path)
             ≠ EncodeExit 0 stderr written)
          ∨ fs s' !! output_path = None
          ∨ ∃ f, fs s' !! output_path = Some f ∧ (file_size E f < 1000)%N
      end).
Proof.
  unfold VideoCreator._create_video_with_ffmpeg, VideoCreator.run_ffmpeg.
  repeat run_step.
  all: split_and!; try done.
  all: try (eexists; split_and!; [eassumption|by apply N.ltb_ge|reflexivity]).
  all: try (left; intros ? ?; congruence).
  all: try (right; right; eexists; split; [eassumption|by apply N.ltb_lt]).
  all: try (left; intros ? ? [= -> _ _]; discriminate).
  all: try (right; left;
            match goal with
            | H : negb (bool_decide (is_Some ?x)) = true |- _ =>
                apply negb_true_iff, bool_decide_eq_false in H;
                by apply eq_None_not_Some
            end).
  all: right; left; assumption.
Qed.

(** What [create_video] returns and leaves behind. It always returns a
    result dict. A success is the result of the encode step, and then the
    scratch image is gone. A failure after image normalization leaves the
    scratch image in place. *)
Lemma create_video_cases (E : Env)
    (audio_path image_path output_path title : string) (s : Sys) :
  post (VideoCreator.create_video E audio_path image_path output_path title) s (λ r s',
    log s' = log s ∧ ticks s' = ticks s
    ∧ ∃ res, r = Ok res
      ∧ match res with
        | VideoCreator.RenderOk p size duration =>
            p = output_path ∧ (1000 ≤ size)%N
            ∧ fs s' !! VideoCreator.processed_path_of image_path = None
            ∧ (output_path ≠ VideoCreator.processed_path_of image_path →
               ∃ f, fs s' !! output_path = Some f ∧ file_size E f = size)
        | VideoCreator.RenderFail e =>
            (∀ opened, fs s !! image_path ≠ Some (FImage opened)) ∧ s' = s
            ∨ (∃ opened, fs s !! image_path = Some (FImage opened))
              ∧ is_Some (fs s' !! VideoCreator.processed_path_of image_path)
        end).
Proof.
  unfold VideoCreator.create_video.
  run_step. run_step.
  eapply post_mono; [apply process_image_cases|].
  intros r s1 [(opened & Hopen & -> & ->)|(Hno & [e ->] & ->)]; run_simpl.
  2: { run_step. split_and!; try done. eexists. split; [done|]. by left. }
  run_step.
  eapply post_mono; [apply get_audio_duration_cases|].
  intros r s2 [-> Hprobe].
  destruct r as [duration|e]; run_simpl.
  2: { run_step. split_and!; try done. eexists. split; [done|]. right.
       split; [eauto|]. cbn [set_fs fs]. rewrite lookup_insert_eq. eauto. }
  run_step.
  eapply post_mono; [apply create_video_with_ffmpeg_cases|].
  intros r s3 (Hframe & Hlog & Hticks & Hres).
  cbn [set_fs fs log ticks] in Hframe, Hlog, Hticks.
  assert (Hscratch : is_Some (fs s3 !! VideoCreator.processed_path_of image_path)).
  { rewrite Hframe. unfold VideoCreator.fs_after_encode.
    destruct (ffmpeg E _ _) as [msg|returncode stderr [n|]];
      try (rewrite lookup_insert_eq; by eauto).
    destruct (decide (output_path = VideoCreator.processed_path_of image_path)) as [->|Hne].
    - rewrite lookup_insert_eq. eauto.
    - rewrite lookup_insert_ne, lookup_insert_eq by done. eauto. }
  destruct r as [res|e]; run_simpl.
  2: { run_step. split_and!; try done. eexists. split; [done|]. right. eauto. }
  destruct Hres as (f & Hf & Hsize & ->).
  repeat run_step.
  - split_and!; try done. eexists. split; [done|].
    split_and!; try done.
    + apply lookup_delete_eq.
    + intros Hne. exists f. by rewrite lookup_delete_ne.
  - (* the scratch image exists, so the removal is not skipped *)
    match goal with
    | H : bool_decide _ = false |- _ => apply bool_decide_eq_false in H; by destruct H
    end.
Qed.

Lemma get_audio_duration_run (E : Env) (audio_path stderr : string)
    (duration : Q) (s : Sys) :
  ffprobe E (fs s) (VideoCreator.ffprobe_cmd audio_path) = ProbeExit 0 stderr (inr duration) →
  VideoCreator._get_audio_duration E audio_path s = (Ok duration, s).
Proof.
  intros Hprobe.
  destruct (VideoCreator._get_audio_duration E audio_path s) as [r s'] eqn:Hrun.
  pose proof (post_run _ _ _ _ _ (get_audio_duration_cases E audio_path s) Hrun)
    as [-> Hr].
  rewrite Hprobe in Hr. by rewrite Hr.
Qed.

(** C6. If a render call returns success, the size it reports is at least
    1000 bytes and is the size of the output file, which exists (when
    [create_video] returns, provided the output path is not the path of
    its own scratch image; when the encode step [_create_video_with_ffmpeg]
    returns, always). And when the encoder exits with status zero but
    leaves no output file, or one of fewer than 1000 bytes, the render
    returns a failure. *)
Theorem render_success_needs_plausible_output
    (E : Env) (audio_path image_path output_path title : string) (s : Sys) :
  (∀ res s',
     VideoCreator.create_video E audio_path image_path output_path title s = (Ok res, s') →
     VideoCreator.success res = true →
     ∃ size duration,
       res = VideoCreator.RenderOk output_path size duration
       ∧ (1000 ≤ size)%N
       ∧ (output_path ≠ VideoCreator.processed_path_of image_path →
          ∃ f, fs s' !! output_path = Some f ∧ file_size E f = size))
  ∧ (∀ scratch duration res s',
       VideoCreator._create_video_with_ffmpeg E audio_path scratch output_path duration s
       = (Ok res, s') →
       ∃ f, fs s' !! output_path = Some f
            ∧ (1000 ≤ file_size E f)%N
            ∧ res = VideoCreator.RenderOk output_path (file_size E f) duration)
  ∧ (∀ opened stderr0 duration stderr written,
       fs s !! image_path = Some (FImage opened) →
       let scratch := VideoCreator.processed_path_of image_path in
       let fs1 := <[scratch := FImage (VideoCreator.compose_cover E opened)]> (fs s) in
       let fs2 := VideoCreator.fs_after_encode (EncodeExit 0 stderr written) output_path fs1 in
       ffprobe E fs1 (VideoCreator.ffprobe_cmd audio_path)
       = ProbeExit 0 stderr0 (inr duration) →
       ffmpeg E fs1 (VideoCreator.ffmpeg_cmd audio_path scratch output_path)
       = EncodeExit 0 stderr written →
       fs2 !! output_path = None
       ∨ (∃ f, fs2 !! output_path = Some f ∧ (file_size E f < 1000)%N) →
       ∃ e s',
         VideoCreator.create_video E audio_path image_path output_path title s
         = (Ok (VideoCreator.RenderFail e), s')).
Proof.
  split_and!.
  - intros res s' Hrun Hok.
    pose proof (post_run _ _ _ _ _
                  (create_video_cases E audio_path image_path output_path title s) Hrun)
      as (_ & _ & res' & [= <-] & Hres).
    destruct res as [p size duration|e]; [|discriminate].
    destruct Hres as (-> & Hsize & _ & Hout). eauto 10.
  - intros scratch duration res s' Hrun.
    pose proof (post_run _ _ _ _ _
                  (create_video_with_ffmpeg_cases E audio_path scratch output_path duration s)
                  Hrun) as (_ & _ & _ & Hres).
    exact Hres.
  - intros opened stderr0 duration stderr written Hopen scratch fs1 fs2 Hprobe Henc Hbad.
    pose (s1 := set_fs (insert scratch (FImage (VideoCreator.compose_cover E opened))) s).
    unfold VideoCreator.create_video, try_catch, bind.
    rewrite (process_image_run E image_path opened s Hopen).
    fold scratch. fold s1.
    rewrite (get_audio_duration_run E audio_path stderr0 duration s1 Hprobe).
    destruct (VideoCreator._create_video_with_ffmpeg E audio_path scratch output_path
                duration s1) as [[res|e] s3] eqn:Hrun; [|by eauto].
    exfalso.
    pose proof (post_run _ _ _ _ _
                  (create_video_with_ffmpeg_cases E audio_path scratch output_path duration s1)
                  Hrun) as (Hfs & _ & _ & f & Hf & Hsize & _).
    change (fs s1) with fs1 in Hfs.
    rewrite Henc in Hfs. fold fs2 in Hfs. rewrite Hfs in Hf.
    destruct Hbad as [Hnone|(f' & Hf' & Hsmall)]; [congruence|].
    rewrite Hf in Hf'. injection Hf' as <-. lia.
Qed.

(** A render of three seconds of audio (scenario 1), and an encoder that
    exits with status zero after writing 999 bytes. *)
Lemma render_success_needs_plausible_output_witness :
  (∃ size duration,
     fst (VideoCreator.create_video Demo.env_ok Demo.audio_path Demo.image_path
            Demo.output_path "t" (Demo.sys0 (Demo.creds JNull 0)))
     = Ok (VideoCreator.RenderOk Demo.output_path size duration)
     ∧ (1000 ≤ size)%N)
  ∧ (∃ e s',
       VideoCreator.create_video (Demo.env Demo.probe_ok Demo.encode_tiny Demo.net_ok)
         Demo.audio_path Demo.image_path Demo.output_path "t"
         (Demo.sys0 (Demo.creds JNull 0))
       = (Ok (VideoCreator.RenderFail e), s')).
Proof.
  split.
  - destruct (proj1 (render_success_needs_plausible_output Demo.env_ok
                       Demo.audio_path Demo.image_path Demo.output_path "t"
                       (Demo.sys0 (Demo.creds JNull 0)))
                (VideoCreator.RenderOk Demo.output_path 250000 3)
                (snd (VideoCreator.create_video Demo.env_ok Demo.audio_path Demo.image_path
                        Demo.output_path "t" (Demo.sys0 (Demo.creds JNull 0)))))
      as (size & duration & Hres & Hsize & _).
    + vm_compute. reflexivity.
    + reflexivity.
    + exists size, duration. split; [|exact Hsize].
      rewrite <- Hres. vm_compute. reflexivity.
  - apply (proj2 (proj2 (render_success_needs_plausible_output
                           (Demo.env Demo.probe_ok Demo.encode_tiny Demo.net_ok)
                           Demo.audio_path Demo.image_path Demo.output_path "t"
                           (Demo.sys0 (Demo.creds JNull 0))))
             Demo.cover "" 3%Q "" (Some 999%N)).
    + reflexivity.
    + reflexivity.
    + reflexivity.
    + right. exists (FData 999). split; [|vm_compute; reflexivity].
      cbn [VideoCreator.fs_after_encode]. apply lookup_insert_eq.
Defined.

(** ** The scratch image *)

(** On success the scratch image is removed; on every failure that comes
    after image normalization (probe or encode step) it is still there
    when [create_video] returns: the removal is only on the path that
    follows the encode step. *)
Lemma create_video_scratch (E : Env)
    (audio_path image_path output_path title : string) (s : Sys)
    (res : VideoCreator.RenderResult) (s' : Sys) (opened : Image) :
  fs s !! image_path = Some (FImage opened) →
  VideoCreator.create_video E audio_path image_path output_path title s = (Ok res, s') →
  if VideoCreator.success res
  then fs s' !! VideoCreator.processed_path_of image_path = None
  else is_Some (fs s' !! VideoCreator.processed_path_of image_path).
Proof.
  intros Hopen Hrun.
  pose proof (post_run _ _ _ _ _
                (create_video_cases E audio_path image_path output_path title s) Hrun)
    as (_ & _ & res' & [= <-] & Hres).
  destruct res as [p size duration|e]; cbn [VideoCreator.success].
  - by destruct Hres as (_ & _ & Hgone & _).
  - destruct Hres as [[Hno _]|[_ Hscratch]]; [|done]. by destruct (Hno opened).
Qed.

(** C2, at a failing input: the cover is normalized, then [ffprobe] exits
    with status 1. The scratch image did not exist before the call;
    [create_video] returns a failure, and the scratch image it wrote is
    still in the file system. *)
Theorem create_video_probe_failure_leaves_scratch :
  fs (Demo.sys0 (Demo.creds JNull 0)) !! Demo.scratch_path = None
  ∧ VideoCreator.processed_path_of Demo.image_path = Demo.scratch_path
  ∧ fst (VideoCreator.create_video (Demo.env Demo.probe_bad Demo.encode_ok Demo.net_ok)
           Demo.audio_path Demo.image_path Demo.output_path "t"
           (Demo.sys0 (Demo.creds JNull 0)))
    = Ok (VideoCreator.RenderFail
            "Failed to get audio duration: FFprobe failed: Invalid data found when processing input")
  ∧ fs (snd (VideoCreator.create_video (Demo.env Demo.probe_bad Demo.encode_ok Demo.net_ok)
               Demo.audio_path Demo.image_path Demo.output_path "t"
               (Demo.sys0 (Demo.creds JNull 0)))) !! Demo.scratch_path
    = Some (FImage (VideoCreator.compose_cover
                      (Demo.env Demo.probe_bad Demo.encode_ok Demo.net_ok) Demo.cover)).
Proof.
  split_and!.
  - reflexivity.
  - reflexivity.
  - vm_compute. reflexivity.
  - unfold VideoCreator.create_video, try_catch, bind.
    rewrite (process_image_run _ Demo.image_path Demo.cover); [|reflexivity].
    reflexivity.
Qed.

(** ** Job tracker *)

Lemma post_lift {A} (m : M Sys A) (w : Main.App) Q :
  post m (Main.app_sys w)
    (λ r s', Q r {| Main.app_sys := s'; Main.jobs := Main.jobs w |}) →
  post (Main.lift m) w Q.
Proof. unfold post, Main.lift. by destruct (m (Main.app_sys w)). Qed.

Lemma post_set_job (job_id key : string) (value : json) (w : Main.App)
    (job : gmap string json) Q :
  Main.jobs w !! job_id = Some job →
  Q (Ok tt) {| Main.app_sys := Main.app_sys w;
               Main.jobs := <[job_id := <[key := value]> job]> (Main.jobs w) |} →
  post (Main.set_job job_id key value) w Q.
Proof. unfold post, Main.set_job. by intros ->. Qed.

(** [cleanup_files] never raises. *)
Lemma cleanup_files_cases (file_paths : list string) (s : Sys) :
  post (Main.cleanup_files file_paths) s (λ r s', r = Ok tt).
Proof.
  revert s. induction file_paths as [|file_path rest IH]; intros s;
    cbn [Main.cleanup_files].
  - by run_step.
  - repeat run_step; apply IH.
Qed.

Ltac job_simpl := run_simpl; cbn [Main.app_sys Main.jobs].

Ltac job_step :=
  lazymatch goal with
  | |- post (Main.set_job _ _ _) _ _ =>
      eapply post_set_job;
      [cbn [Main.jobs]; first [eassumption | apply lookup_insert_eq]|]
  | |- post (Main.lift (Main.cleanup_files _)) _ _ =>
      apply post_lift; eapply post_mono; [apply cleanup_files_cases|];
      intros ? ? ->
  | |- post (Main.lift (now _)) _ _ => apply post_lift, post_now
  | |- post (Main.lift (path_exists _)) _ _ => apply post_lift, post_gets
  | |- post (Main.lift _) _ _ => fail
  | |- _ => run_step
  end; job_simpl.

(** The final record of a job, by the outcome of its two stages. *)
Lemma process_video_background_cases (E : Env)
    (job_id audio_path image_path : string) (req : Main.VideoRequest)
    (w : Main.App) (j : gmap string json) :
  Main.jobs w !! job_id = Some j →
  post (Main.process_video_background E job_id audio_path image_path req) w (λ r w',
    r = Ok tt
    ∧ ∃ j', Main.jobs w' !! job_id = Some j'
      ∧ match Main.render_stage E audio_path image_path req (Main.app_sys w) with
        | (Ok (VideoCreator.RenderOk _ _ _), s2) =>
            j' !! "status" = Some (JStr "completed")
            ∧ j' !! "progress" = Some (JNum 100)
            ∧ j' !! "videoPath"
              = Some (JStr (Main.output_path_of req (clock E (ticks (Main.app_sys w)))))
            ∧ j' !! "error" = j !! "error"
            ∧ if bool_decide (is_Some (fs s2 !! Main.creds_path_of req)) then
                match Main.publish_stage E req
                        (Main.output_path_of req (clock E (ticks (Main.app_sys w)))) s2 with
                | (Ok (YouTubeUploader.UploadOk video_id video_url _), _) =>
                    j' !! "youtubeUrl" = Some (JStr video_url)
                    ∧ j' !! "videoId" = Some video_id
                    ∧ j' !! "youtubeError" = j !! "youtubeError"
                | (Ok (YouTubeUploader.UploadFail error), _) =>
                    j' !! "youtubeError" = Some (JStr error)
                    ∧ j' !! "youtubeUrl" = j !! "youtubeUrl"
                | (Raise e, _) => False
                end
              else
                j' !! "youtubeUrl" = j !! "youtubeUrl"
                ∧ j' !! "youtubeError" = j !! "youtubeError"
        | (Ok (VideoCreator.RenderFail e), _) | (Raise e, _) =>
            j' !! "status" = Some (JStr "failed")
            ∧ j' !! "error" = Some (JStr e)
            ∧ j' !! "videoPath" = j !! "videoPath"
            ∧ j' !! "youtubeError" = j !! "youtubeError"
        end).
Proof.
  intros Hj.
  destruct (Main.render_stage E audio_path image_path req (Main.app_sys w))
    as [rr s2] eqn:Hrender.
  unfold Main.render_stage, Main.metadata_of, bind, now in Hrender.
  unfold Main.publish_stage, Main.metadata_of.
  unfold Main.process_video_background.
  repeat job_step.
  apply post_lift, post_intro. intros r s2' Hrun. job_simpl.
  cbn [Main.app_sys] in Hrun. rewrite Hrender in Hrun. injection Hrun as <- <-.
  destruct rr as [[p size duration|e]|e]; job_simpl.
  - (* the render succeeded *)
    repeat job_step.
    + (* credentials on file: publish *)
      apply post_lift, post_intro. intros r s3 Hrun. job_simpl.
      cbn [Main.app_sys] in Hrun. rewrite Hrun.
      pose proof (post_run _ _ _ _ _ (upload_video_log _ _ _ _ _ _) Hrun)
        as [[res ->] _].
      destruct res as [video_id video_url title|error]; job_simpl;
        repeat job_step.
      all: (split; [done|]; eexists; split; [apply lookup_insert_eq|]).
      all: split_and!; by simplify_map_eq.
    + (* no credentials: publish is skipped *)
      split; [done|]. eexists. split; [apply lookup_insert_eq|].
      split_and!; by simplify_map_eq.
  - (* the render returned a failure *)
    repeat job_step.
    split; [done|]. eexists. split; [apply lookup_insert_eq|].
    split_and!; by simplify_map_eq.
  - (* the render raised *)
    repeat job_step.
    split; [done|]. eexists. split; [apply lookup_insert_eq|].
    split_and!; by simplify_map_eq.
Qed.

(** Every failure that [upload_video] reports carries a text. *)
Lemma upload_phases_error_nonempty (E : Env) (video_path : string)
    (metadata : MetadataGenerator.Metadata) (access_token : json) (s : Sys) :
  post (YouTubeUploader.upload_phases E video_path metadata access_token) s (λ r _,
    ∀ error, r = Ok (YouTubeUploader.UploadFail error) → error ≠ "").
Proof.
  unfold YouTubeUploader.upload_phases.
  repeat run_step; intros error [= <-]; discriminate.
Qed.

Lemma upload_video_error_nonempty (E : Env) (self : YouTubeUploader.Uploader)
    (video_path : string) (metadata : MetadataGenerator.Metadata)
    (creds_path : string) (s : Sys) :
  post (YouTubeUploader.upload_video E self video_path metadata creds_path) s (λ r _,
    ∀ error, r = Ok (YouTubeUploader.UploadFail error) → error ≠ "").
Proof.
  unfold YouTubeUploader.upload_video, YouTubeUploader.token_expired,
    YouTubeUploader.num_sub, YouTubeUploader.num_gt.
  repeat (run_step; try (intros error [= <-]; discriminate)).
  - eapply post_mono; [apply refresh_access_token_log|].
    intros r s1 [[tok ->] _]. run_simpl.
    destruct (truthy tok); run_simpl.
    + eapply post_mono; [apply upload_phases_error_nonempty|].
      intros [res|e] s2 Hres; repeat run_step; [done|].
      intros error [= <-]; discriminate.
    + run_step. intros error [= <-]; discriminate.
  - eapply post_mono; [apply upload_phases_error_nonempty|].
    intros [res|e] s2 Hres; repeat run_step; [done|].
    intros error [= <-]; discriminate.
Qed.

(** C3. For every job whose render stage succeeds and whose publish
    attempt (made because a credential file exists) fails, the background
    task ends normally with [status == "completed"], [progress == 100] and
    the publish error recorded, non-empty, under [youtubeError]; the
    job-level [error] field is not written, and [videoPath] is set. *)
Theorem publish_failure_completes_job
    (E : Env) (job_id audio_path image_path : string) (req : Main.VideoRequest)
    (w : Main.App) (j : gmap string json)
    (output_path : string) (size : N) (duration : Q) (s2 s3 : Sys) (error : string) :
  Main.jobs w !! job_id = Some j →
  Main.render_stage E audio_path image_path req (Main.app_sys w)
  = (Ok (VideoCreator.RenderOk output_path size duration), s2) →
  is_Some (fs s2 !! Main.creds_path_of req) →
  Main.publish_stage E req output_path s2 = (Ok (YouTubeUploader.UploadFail error), s3) →
  ∃ w' j',
    Main.process_video_background E job_id audio_path image_path req w = (Ok tt, w')
    ∧ Main.jobs w' !! job_id = Some j'
    ∧ j' !! "status" = Some (JStr "completed")
    ∧ j' !! "status" ≠ Some (JStr "failed")
    ∧ j' !! "progress" = Some (JNum 100)
    ∧ j' !! "youtubeError" = Some (JStr error) ∧ error ≠ ""
    ∧ j' !! "error" = j !! "error"
    ∧ j' !! "videoPath" = Some (JStr output_path).
Proof.
  intros Hj Hrender Hcreds Hpublish.
  destruct (Main.process_video_background E job_id audio_path image_path req w)
    as [r w'] eqn:Hrun.
  pose proof (post_run _ _ _ _ _
                (process_video_background_cases E job_id audio_path image_path req w j Hj)
                Hrun) as (-> & j' & Hj' & Hcases).
  rewrite Hrender in Hcases.
  (* the path reported by the renderer is the path it was given *)
  assert (Hout : output_path
                 = Main.output_path_of req (clock E (ticks (Main.app_sys w)))).
  { unfold Main.render_stage, bind, now in Hrender.
    pose proof (post_run _ _ _ _ _ (create_video_cases _ _ _ _ _ _) Hrender)
      as (_ & _ & res & [= <-] & Hres).
    by destruct Hres as [-> _]. }
  rewrite <- Hout in Hcases.
  destruct Hcases as (Hstatus & Hprogress & Hpath & Herror & Hpub).
  rewrite bool_decide_eq_true_2, Hpublish in Hpub by done.
  destruct Hpub as [Hyt _].
  exists w', j'. split_and!; try done.
  - rewrite Hstatus. discriminate.
  - unfold Main.publish_stage in Hpublish.
    by apply (post_run _ _ _ _ _ (upload_video_error_nonempty _ _ _ _ _ _) Hpublish).
Qed.

(** Scenario 3 of the specification: the stored token is expired and the
    record has no refresh token; the render succeeds, the publish fails,
    and the job is completed with a publish error. *)
Lemma publish_failure_completes_job_witness :
  ∃ w' j',
    Main.process_video_background Demo.env_ok "j1" Demo.audio_path Demo.image_path
      Demo.req (Demo.app0 (Demo.creds JNull 1000)) = (Ok tt, w')
    ∧ Main.jobs w' !! "j1" = Some j'
    ∧ j' !! "status" = Some (JStr "completed")
    ∧ j' !! "progress" = Some (JNum 100)
    ∧ j' !! "youtubeError" = Some (JStr "Failed to refresh access token")
    ∧ j' !! "error" = None.
Proof.
  destruct (publish_failure_completes_job Demo.env_ok "j1" Demo.audio_path
              Demo.image_path Demo.req (Demo.app0 (Demo.creds JNull 1000))
              (Main.new_job "j1" "2025-01-01T00:00:00" Demo.req)
              Demo.output_path 250000 3
              (snd (Main.render_stage Demo.env_ok Demo.audio_path Demo.image_path Demo.req
                      (Demo.sys0 (Demo.creds JNull 1000))))
              (snd (Main.publish_stage Demo.env_ok Demo.req Demo.output_path
                      (snd (Main.render_stage Demo.env_ok Demo.audio_path Demo.image_path
                              Demo.req (Demo.sys0 (Demo.creds JNull 1000))))))
              "Failed to refresh access token")
    as (w' & j' & Hrun & Hj' & Hstatus & _ & Hprogress & Hyt & _ & Herror & _).
  - reflexivity.
  - vm_compute. reflexivity.
  - exists (FJson (Demo.creds JNull 1000)). vm_compute. reflexivity.
  - vm_compute. reflexivity.
  - exists w', j'. split_and!; first [done | by rewrite Herror].
Defined.

(** C4. For every job whose record has no [videoPath] when the background
    task starts (as the record stored by the endpoint), the task ends
    normally in a terminal state, [failed] or [completed]; if the status is
    [failed] then [videoPath] is unset, and if it is [completed] then
    [videoPath] is set. *)
Theorem terminal_job_video_path
    (E : Env) (job_id audio_path image_path : string) (req : Main.VideoRequest)
    (w : Main.App) (j : gmap string json) :
  Main.jobs w !! job_id = Some j →
  j !! "videoPath" = None →
  ∃ w' j',
    Main.process_video_background E job_id audio_path image_path req w = (Ok tt, w')
    ∧ Main.jobs w' !! job_id = Some j'
    ∧ (j' !! "status" = Some (JStr "failed")
       ∨ j' !! "status" = Some (JStr "completed"))
    ∧ (j' !! "status" = Some (JStr "failed") → j' !! "videoPath" = None)
    ∧ (j' !! "status" = Some (JStr "completed") → is_Some (j' !! "videoPath")).
Proof.
  intros Hj Hpath.
  destruct (Main.process_video_background E job_id audio_path image_path req w)
    as [r w'] eqn:Hrun.
  pose proof (post_run _ _ _ _ _
                (process_video_background_cases E job_id audio_path image_path req w j Hj)
                Hrun) as (-> & j' & Hj' & Hcases).
  exists w', j'. split; [done|]. split; [done|].
  destruct (Main.render_stage E audio_path image_path req (Main.app_sys w))
    as [[[p size duration|e]|e] s2].
  - destruct Hcases as (Hstatus & _ & Hvideo & _).
    rewrite Hstatus, Hvideo. split_and!; [by right|discriminate|eauto].
  - destruct Hcases as (Hstatus & _ & Hvideo & _).
    rewrite Hstatus, Hvideo, Hpath. split_and!; [by left|done|discriminate].
  - destruct Hcases as (Hstatus & _ & Hvideo & _).
    rewrite Hstatus, Hvideo, Hpath. split_and!; [by left|done|discriminate].
Qed.

Lemma new_job_has_no_video_path (job_id createdAt : string) (req : Main.VideoRequest) :
  Main.new_job job_id createdAt req !! "videoPath" = None
  ∧ Main.new_job job_id createdAt req !! "status" = Some (JStr "processing")
  ∧ Main.new_job job_id createdAt req !! "progress" = Some (JNum 0).
Proof. unfold Main.new_job. split_and!; by simplify_map_eq. Qed.

(** Scenario 5 of the specification: the duration probe fails, the job
    ends [failed] and without [videoPath]. *)
Lemma terminal_job_video_path_witness :
  ∃ w' j',
    Main.process_video_background (Demo.env Demo.probe_bad Demo.encode_ok Demo.net_ok)
      "j1" Demo.audio_path Demo.image_path Demo.req
      (Demo.app0 (Demo.creds JNull 1000)) = (Ok tt, w')
    ∧ Main.jobs w' !! "j1" = Some j'
    ∧ (j' !! "status" = Some (JStr "failed") → j' !! "videoPath" = None)
    ∧ (j' !! "status" = Some (JStr "completed") → is_Some (j' !! "videoPath")).
Proof.
  destruct (terminal_job_video_path (Demo.env Demo.probe_bad Demo.encode_ok Demo.net_ok)
              "j1" Demo.audio_path Demo.image_path Demo.req
              (Demo.app0 (Demo.creds JNull 1000))
              (Main.new_job "j1" "2025-01-01T00:00:00" Demo.req))
    as (w' & j' & Hrun & Hj' & _ & Hfailed & Hcompleted).
  - reflexivity.
  - apply new_job_has_no_video_path.
  - by exists w', j'.
Defined.

(** * Further properties of the code *)

(** ** Cleanup of the uploaded inputs *)

(** [cleanup_files] never raises; afterwards none of the listed paths
    exists, every other path holds what it held, and neither the request
    log nor the clock has moved. *)
Lemma cleanup_files_effect (file_paths : list string) (s : Sys) :
  post (Main.cleanup_files file_paths) s (λ r s',
    r = Ok tt ∧ log s' = log s ∧ ticks s' = ticks s
    ∧ (∀ p, p ∈ file_paths → fs s' !! p = None)
    ∧ (∀ p, p ∉ file_paths → fs s' !! p = fs s !! p)).
Proof.
  revert s. induction file_paths as [|file_path rest IH]; intros s;
    cbn [Main.cleanup_files].
  - run_step. split_and!; try done. intros p Hp. by apply elem_of_nil in Hp.
  - assert (Hrest : ∀ s1 : Sys,
              log s1 = log s → ticks s1 = ticks s →
              fs s1 !! file_path = None →
              (∀ p, p ≠ file_path → fs s1 !! p = fs s !! p) →
              post (Main.cleanup_files rest) s1 (λ r s',
                r = Ok tt ∧ log s' = log s ∧ ticks s' = ticks s
                ∧ (∀ p, p ∈ file_path :: rest → fs s' !! p = None)
                ∧ (∀ p, p ∉ file_path :: rest → fs s' !! p = fs s !! p))).
    { intros s1 Hlog Hticks Hgone Hframe.
      eapply post_mono; [apply IH|].
      intros r s' (-> & Hlog' & Hticks' & Hnone & Hkeep).
      split_and!; try congruence.
      - intros p Hp. destruct (decide (p ∈ rest)) as [Hin|Hnin]; [by apply Hnone|].
        apply elem_of_cons in Hp as [->|Hp]; [|done].
        by rewrite Hkeep.
      - intros p Hp. apply not_elem_of_cons in Hp as [Hne Hnin].
        rewrite Hkeep by done. by apply Hframe. }
    repeat run_step.
    + apply Hrest; cbn [set_fs fs log ticks]; try done.
      * apply lookup_delete_eq.
      * intros p Hp. by rewrite lookup_delete_ne.
    + apply Hrest; try done.
      match goal with
      | H : bool_decide _ = false |- _ =>
          apply bool_decide_eq_false in H; by apply eq_None_not_Some
      end.
Qed.

(** X1. [cleanup_files] never raises. When it returns, none of the listed
    paths exists, every path that is not listed holds what it held, and
    neither the request log nor the clock has moved; a listed path that
    did not exist is not an error. *)
Theorem cleanup_files_removes_exactly_the_listed (file_paths : list string) (s : Sys) :
  ∃ s', Main.cleanup_files file_paths s = (Ok tt, s')
        ∧ log s' = log s ∧ ticks s' = ticks s
        ∧ (∀ p, p ∈ file_paths → fs s' !! p = None)
        ∧ (∀ p, p ∉ file_paths → fs s' !! p = fs s !! p).
Proof.
  destruct (Main.cleanup_files file_paths s) as [r s'] eqn:Hrun.
  pose proof (post_run _ _ _ _ _ (cleanup_files_effect file_paths s) Hrun)
    as (-> & H).
  by exists s'.
Qed.

(** ** The background task and the world around it *)

Ltac task_step :=
  lazymatch goal with
  | |- post (Main.lift (Main.cleanup_files _)) _ _ =>
      apply post_lift; eapply post_mono; [apply cleanup_files_effect|];
      intros ? ? (-> & ? & ? & ? & ?)
  | |- _ => job_step
  end; job_simpl.

(** The keys of a job record that the background task may write. *)
Lemma job_keys_frame (k : string) :
  k ∉ ["progress"; "message"; "status"; "error"; "videoPath";
       "youtubeUrl"; "videoId"; "youtubeError"] →
  k ≠ "progress" ∧ k ≠ "message" ∧ k ≠ "status" ∧ k ≠ "error"
  ∧ k ≠ "videoPath" ∧ k ≠ "youtubeUrl" ∧ k ≠ "videoId" ∧ k ≠ "youtubeError".
Proof.
  intros Hk. repeat rewrite not_elem_of_cons in Hk. tauto.
Qed.

Lemma process_video_background_world (E : Env)
    (job_id audio_path image_path : string) (req : Main.VideoRequest)
    (w : Main.App) (j : gmap string json) :
  Main.jobs w !! job_id = Some j →
  post (Main.process_video_background E job_id audio_path image_path req) w (λ r w',
    r = Ok tt
    ∧ fs (Main.app_sys w') !! audio_path = None
    ∧ fs (Main.app_sys w') !! image_path = None
    ∧ (∀ other, other ≠ job_id → Main.jobs w' !! other = Main.jobs w !! other)
    ∧ ∃ j', Main.jobs w' !! job_id = Some j'
      ∧ (∀ k, k ∉ ["progress"; "message"; "status"; "error"; "videoPath";
                   "youtubeUrl"; "videoId"; "youtubeError"] →
              j' !! k = j !! k)
      ∧ match Main.render_stage E audio_path image_path req (Main.app_sys w) with
        | (Ok (VideoCreator.RenderOk _ _ _), s2) =>
            if bool_decide (is_Some (fs s2 !! Main.creds_path_of req)) then
              log (Main.app_sys w')
              = log (snd (Main.publish_stage E req
                            (Main.output_path_of req (clock E (ticks (Main.app_sys w))))
                            s2))
            else
              log (Main.app_sys w') = log s2
              ∧ j' !! "message"
                = Some (JStr "Video created successfully (YouTube not connected)")
              ∧ j' !! "videoId" = j !! "videoId"
        | (_, s2) =>
            log (Main.app_sys w') = log s2
            ∧ j' !! "progress" = Some (JNum 30)
            ∧ j' !! "message" = Some (JStr "Creating video...")
            ∧ j' !! "youtubeUrl" = j !! "youtubeUrl"
            ∧ j' !! "videoId" = j !! "videoId"
        end).
Proof.
  intros Hj.
  destruct (Main.render_stage E audio_path image_path req (Main.app_sys w))
    as [rr s2] eqn:Hrender.
  unfold Main.render_stage, Main.metadata_of, bind, now in Hrender.
  unfold Main.publish_stage, Main.metadata_of.
  unfold Main.process_video_background.
  repeat task_step.
  apply post_lift, post_intro. intros r s2' Hrun. job_simpl.
  cbn [Main.app_sys] in Hrun. rewrite Hrender in Hrun. injection Hrun as <- <-.
  assert (Hinputs : ∀ s' : Sys,
            (∀ p, p ∈ [audio_path; image_path] → fs s' !! p = None) →
            fs s' !! audio_path = None ∧ fs s' !! image_path = None).
  { intros s' Hnone. split; apply Hnone; set_solver. }
  destruct rr as [[p size duration|e]|e]; job_simpl.
  - repeat task_step.
    + apply post_lift, post_intro. intros r s3 Hrun. job_simpl.
      cbn [Main.app_sys] in Hrun. rewrite Hrun.
      pose proof (post_run _ _ _ _ _ (upload_video_log _ _ _ _ _ _) Hrun)
        as [[res ->] _].
      destruct res as [video_id video_url title|error]; job_simpl;
        repeat task_step.
      all: split; [done|].
      all: match goal with
           | H : ∀ p, p ∈ _ → fs _ !! p = None |- _ =>
               destruct (Hinputs _ H) as [? ?]
           end.
      all: split_and!; try done.
      all: try (intros other Hother; by rewrite !lookup_insert_ne).
      all: eexists; split; [apply lookup_insert_eq|]; split; [|done].
      all: intros k Hk; apply job_keys_frame in Hk; destruct_and!;
        by rewrite !lookup_insert_ne.
    + split; [done|].
      match goal with
      | H : ∀ p, p ∈ _ → fs _ !! p = None |- _ =>
          destruct (Hinputs _ H) as [? ?]
      end.
      split_and!; try done.
      * intros other Hother. by rewrite !lookup_insert_ne.
      * eexists. split; [apply lookup_insert_eq|]. split_and!; try done.
        -- intros k Hk; apply job_keys_frame in Hk; destruct_and!;
             by rewrite !lookup_insert_ne.
        -- by simplify_map_eq.
        -- by simplify_map_eq.
  - repeat task_step. split; [done|].
    match goal with
    | H : ∀ p, p ∈ _ → fs _ !! p = None |- _ =>
        destruct (Hinputs _ H) as [? ?]
    end.
    split_and!; try done.
    + intros other Hother. by rewrite !lookup_insert_ne.
    + eexists. split; [apply lookup_insert_eq|]. split_and!; try done;
        try by simplify_map_eq.
      intros k Hk; apply job_keys_frame in Hk; destruct_and!;
        by rewrite !lookup_insert_ne.
  - repeat task_step. split; [done|].
    match goal with
    | H : ∀ p, p ∈ _ → fs _ !! p = None |- _ =>
        destruct (Hinputs _ H) as [? ?]
    end.
    split_and!; try done.
    + intros other Hother. by rewrite !lookup_insert_ne.
    + eexists. split; [apply lookup_insert_eq|]. split_and!; try done;
        try by simplify_map_eq.
      intros k Hk; apply job_keys_frame in Hk; destruct_and!;
        by rewrite !lookup_insert_ne.
Qed.

(** X2. Whatever the outcome of the render and of the publish, when the
    background task of a known job returns, the two uploaded input files
    are gone. *)
Theorem background_task_removes_inputs
    (E : Env) (job_id audio_path image_path : string) (req : Main.VideoRequest)
    (w : Main.App) (j : gmap string json) :
  Main.jobs w !! job_id = Some j →
  ∃ w', Main.process_video_background E job_id audio_path image_path req w = (Ok tt, w')
        ∧ fs (Main.app_sys w') !! audio_path = None
        ∧ fs (Main.app_sys w') !! image_path = None.
Proof.
  intros Hj.
  destruct (Main.process_video_background E job_id audio_path image_path req w)
    as [r w'] eqn:Hrun.
  pose proof (post_run _ _ _ _ _
                (process_video_background_world E job_id audio_path image_path req w j Hj)
                Hrun) as (-> & Haudio & Himage & _).
  by exists w'.
Qed.

(** Scenario 4 of the specification: the encoder exits with status 1. *)
Lemma background_task_removes_inputs_witness :
  ∃ w', Main.process_video_background
          (Demo.env Demo.probe_ok (λ _ _, EncodeExit 1 "Conversion failed!" None) Demo.net_ok)
          "j1" Demo.audio_path Demo.image_path Demo.req
          (Demo.app0 (Demo.creds JNull 1000)) = (Ok tt, w')
        ∧ fs (Main.app_sys w') !! Demo.audio_path = None
        ∧ fs (Main.app_sys w') !! Demo.image_path = None.
Proof.
  apply (background_task_removes_inputs _ "j1" Demo.audio_path Demo.image_path Demo.req
           (Demo.app0 (Demo.creds JNull 1000))
           (Main.new_job "j1" "2025-01-01T00:00:00" Demo.req)).
  reflexivity.
Defined.

(** X3. The background task of a job writes to that job's record only, and
    in it only to [progress], [message], [status], [error], [videoPath],
    [youtubeUrl], [videoId] and [youtubeError]: every other job and every
    other member of the record ([jobId], [createdAt], the request fields)
    is as it was. *)
Theorem background_task_touches_own_job_only
    (E : Env) (job_id audio_path image_path : string) (req : Main.VideoRequest)
    (w : Main.App) (j : gmap string json) :
  Main.jobs w !! job_id = Some j →
  ∃ w' j',
    Main.process_video_background E job_id audio_path image_path req w = (Ok tt, w')
    ∧ Main.jobs w' !! job_id = Some j'
    ∧ (∀ other, other ≠ job_id → Main.jobs w' !! other = Main.jobs w !! other)
    ∧ (∀ k, k ∉ ["progress"; "message"; "status"; "error"; "videoPath";
                 "youtubeUrl"; "videoId"; "youtubeError"] →
            j' !! k = j !! k).
Proof.
  intros Hj.
  destruct (Main.process_video_background E job_id audio_path image_path req w)
    as [r w'] eqn:Hrun.
  pose proof (post_run _ _ _ _ _
                (process_video_background_world E job_id audio_path image_path req w j Hj)
                Hrun) as (-> & _ & _ & Hothers & j' & Hj' & Hkeys & _).
  by exists w', j'.
Qed.

Lemma background_task_touches_own_job_only_witness :
  ∃ w' j',
    Main.process_video_background Demo.env_ok "j1" Demo.audio_path Demo.image_path
      Demo.req (Demo.app0 (Demo.creds JNull 1000)) = (Ok tt, w')
    ∧ Main.jobs w' !! "j1" = Some j'
    ∧ Main.jobs w' !! "j2" = None
    ∧ j' !! "beatName" = Some (JStr "Night Drive").
Proof.
  destruct (background_task_touches_own_job_only Demo.env_ok "j1" Demo.audio_path
              Demo.image_path Demo.req (Demo.app0 (Demo.creds JNull 1000))
              (Main.new_job "j1" "2025-01-01T00:00:00" Demo.req))
    as (w' & j' & Hrun & Hj' & Hothers & Hkeys).
  - reflexivity.
  - exists w', j'. split_and!; [done|done| |].
    + rewrite (Hothers "j2"); [reflexivity|discriminate].
    + rewrite (Hkeys "beatName"); [reflexivity|].
      apply (bool_decide_unpack _). vm_compute. exact I.
Defined.

(** X4. For a job identifier that is not in the job table, the task ends
    with the [KeyError] of the identifier, raised again by its own
    exception handler: nothing is recorded and the input files are not
    cleaned up (the state is as it was). *)
Theorem background_task_unknown_job
    (E : Env) (job_id audio_path image_path : string) (req : Main.VideoRequest)
    (w : Main.App) :
  Main.jobs w !! job_id = None →
  Main.process_video_background E job_id audio_path image_path req w
  = (Raise ("'" +:+ job_id +:+ "'"), w).
Proof.
  intros Hj.
  unfold Main.process_video_background, try_catch, bind.
  unfold Main.set_job at 1. rewrite Hj.
  unfold Main.set_job at 1. rewrite Hj. reflexivity.
Qed.

Lemma background_task_unknown_job_witness :
  Main.process_video_background Demo.env_ok "j9" Demo.audio_path Demo.image_path
    Demo.req (Demo.app0 (Demo.creds JNull 1000))
  = (Raise "'j9'", Demo.app0 (Demo.creds JNull 1000))
  ∧ is_Some (fs (Main.app_sys (Demo.app0 (Demo.creds JNull 1000))) !! Demo.audio_path).
Proof.
  split.
  - apply (background_task_unknown_job Demo.env_ok "j9"). reflexivity.
  - by eexists.
Defined.

(** X5. When the render stage fails, the job ends [failed] with the
    renderer's error text under [error], its progress stays at 30 (the
    last checkpoint before the render), no publish is attempted (no
    request is sent) and no YouTube field is written. *)
Theorem render_failure_fails_job
    (E : Env) (job_id audio_path image_path : string) (req : Main.VideoRequest)
    (w : Main.App) (j : gmap string json) (error : string) (s2 : Sys) :
  Main.jobs w !! job_id = Some j →
  Main.render_stage E audio_path image_path req (Main.app_sys w)
  = (Ok (VideoCreator.RenderFail error), s2) →
  ∃ w' j',
    Main.process_video_background E job_id audio_path image_path req w = (Ok tt, w')
    ∧ Main.jobs w' !! job_id = Some j'
    ∧ j' !! "status" = Some (JStr "failed")
    ∧ j' !! "error" = Some (JStr error)
    ∧ j' !! "progress" = Some (JNum 30)
    ∧ j' !! "youtubeUrl" = j !! "youtubeUrl"
    ∧ j' !! "videoId" = j !! "videoId"
    ∧ j' !! "youtubeError" = j !! "youtubeError"
    ∧ log (Main.app_sys w') = log (Main.app_sys w).
Proof.
  intros Hj Hrender.
  destruct (Main.process_video_background E job_id audio_path image_path req w)
    as [r w'] eqn:Hrun.
  pose proof (post_run _ _ _ _ _
                (process_video_background_world E job_id audio_path image_path req w j Hj)
                Hrun) as (-> & _ & _ & _ & j' & Hj' & _ & Hworld).
  pose proof (post_run _ _ _ _ _
                (process_video_background_cases E job_id audio_path image_path req w j Hj)
                Hrun) as (_ & j'' & Hj'' & Hcases).
  rewrite Hj' in Hj''. injection Hj'' as <-.
  rewrite Hrender in Hworld, Hcases.
  destruct Hworld as (Hlog & Hprogress & _ & Hurl & Hid).
  destruct Hcases as (Hstatus & Herror & _ & Hyt).
  exists w', j'. split_and!; try done.
  rewrite Hlog.
  unfold Main.render_stage, bind, now in Hrender.
  by pose proof (post_run _ _ _ _ _ (create_video_cases _ _ _ _ _ _) Hrender)
    as (-> & _).
Qed.

(** Scenario 5 of the specification: the duration probe fails. *)
Lemma render_failure_fails_job_witness :
  ∃ w' j',
    Main.process_video_background (Demo.env Demo.probe_bad Demo.encode_ok Demo.net_ok)
      "j1" Demo.audio_path Demo.image_path Demo.req
      (Demo.app0 (Demo.creds JNull 1000)) = (Ok tt, w')
    ∧ Main.jobs w' !! "j1" = Some j'
    ∧ j' !! "status" = Some (JStr "failed")
    ∧ j' !! "progress" = Some (JNum 30)
    ∧ log (Main.app_sys w') = [].
Proof.
  destruct (render_failure_fails_job (Demo.env Demo.probe_bad Demo.encode_ok Demo.net_ok)
              "j1" Demo.audio_path Demo.image_path Demo.req
              (Demo.app0 (Demo.creds JNull 1000))
              (Main.new_job "j1" "2025-01-01T00:00:00" Demo.req)
              "Failed to get audio duration: FFprobe failed: Invalid data found when processing input"
              (snd (Main.render_stage (Demo.env Demo.probe_bad Demo.encode_ok Demo.net_ok)
                      Demo.audio_path Demo.image_path Demo.req
                      (Demo.sys0 (Demo.creds JNull 1000)))))
    as (w' & j' & Hrun & Hj' & Hstatus & _ & Hprogress & _ & _ & _ & Hlog).
  - reflexivity.
  - vm_compute. reflexivity.
  - by exists w', j'.
Defined.

(** ** Publish: what a run does and leaves *)

(** The two phases never write a file and never read the clock; a success
    is the outcome of one initiation answered 200 with a location, followed
    by one transfer of the file at [video_path] to that location, answered
    200 or 201 with a JSON body that has an [id]. *)
Lemma upload_phases_effect (E : Env) (video_path : string)
    (metadata : MetadataGenerator.Metadata) (access_token : json) (s : Sys) :
  post (YouTubeUploader.upload_phases E video_path metadata access_token) s (λ r s',
    fs s' = fs s ∧ ticks s' = ticks s
    ∧ match r with
      | Ok (YouTubeUploader.UploadOk video_id video_url title) =>
          ∃ resp loc data resp' body,
            http E (log s) (YouTubeUploader.init_request access_token E metadata)
            = HttpResp resp
            ∧ status resp = 200%Z
            ∧ resp_headers resp !! "location" = Some loc ∧ loc ≠ ""
            ∧ fs s !! video_path = Some data
            ∧ http E (log s ++ [YouTubeUploader.init_request access_token E metadata])%list
                (YouTubeUploader.transfer_request loc data) = HttpResp resp'
            ∧ (status resp' = 200%Z ∨ status resp' = 201%Z)
            ∧ json_body resp' = Some body
            ∧ body !! "id" = Some video_id
            ∧ log s' = (log s ++ [YouTubeUploader.init_request access_token E metadata;
                                  YouTubeUploader.transfer_request loc data])%list
            ∧ video_url = "https://www.youtube.com/watch?v=" +:+ Py.str (repr_num E) video_id
            ∧ title = MetadataGenerator.title metadata
      | _ => True
      end).
Proof.
  unfold YouTubeUploader.upload_phases.
  repeat run_step; split_and!; try done.
  cbn [fs log ticks] in *.
  match goal with
  | Hinit : http E (log s) _ = HttpResp ?resp,
    Hstatus : negb (status ?resp =? 200)%Z = false,
    Hloc : (default "" (resp_headers ?resp !! "location") =? "") = false,
    Hdata : fs s !! video_path = Some ?data,
    Hput : http E _ (YouTubeUploader.transfer_request _ ?data) = HttpResp ?resp',
    Hstatus' : negb _ = false,
    Hbody : json_body ?resp' = Some ?body,
    Hid : ?body !! "id" = Some _ |- _ =>
      apply negb_false_iff, Z.eqb_eq in Hstatus;
      apply negb_false_iff, orb_true_iff in Hstatus';
      apply String.eqb_neq in Hloc;
      destruct (resp_headers resp !! "location") as [loc|] eqn:Hheader;
        cbn [default from_option id] in Hloc, Hput |- *; [|done];
      exists resp, loc, data, resp', body
  end.
  split_and!; try done.
  - rewrite !Z.eqb_eq in *. tauto.
  - by rewrite <- app_assoc.
Qed.

(** The four ways a run of [upload_video] can go: no credential file; a
    file that is not a usable record (or whose [created_at] no float can
    hold); a token that is still good, used as stored; an expired token,
    refreshed first. *)
Lemma upload_video_cases (E : Env) (self : YouTubeUploader.Uploader)
    (video_path : string) (metadata : MetadataGenerator.Metadata)
    (creds_path : string) (s : Sys) :
  post (YouTubeUploader.upload_video E self video_path metadata creds_path) s (λ r s',
    (fs s !! creds_path = None
     ∧ r = Ok (YouTubeUploader.UploadFail "YouTube credentials not found") ∧ s' = s)
    ∨ (∃ f, fs s !! creds_path = Some f
            ∧ match f with
              | FJson d =>
                  d !! "created_at" ≫= as_num = None
                  ∨ d !! "expires_in" ≫= as_num = None
                  ∨ d !! "access_token" = None
                  ∨ ∃ c, d !! "created_at" ≫= as_num = Some c
                         ∧ Binary64.sub (clock E (ticks s)) c = None
              | _ => True
              end
            ∧ (∃ error, r = Ok (YouTubeUploader.UploadFail error))
            ∧ fs s' = fs s ∧ log s' = log s)
    ∨ (∃ d vc c ve e stored token_age,
         fs s !! creds_path = Some (FJson d)
         ∧ d !! "created_at" = Some vc ∧ as_num vc = Some c
         ∧ d !! "expires_in" = Some ve ∧ as_num ve = Some e
         ∧ d !! "access_token" = Some stored
         ∧ Binary64.sub (clock E (ticks s)) c = Some token_age
         ∧ if Binary64.gtb token_age e then
             ∃ tok s1,
               YouTubeUploader.refresh_access_token E self creds_path
                 {| fs := fs s; log := log s; ticks := S (ticks s) |} = (Ok tok, s1)
               ∧ if truthy tok then
                   ∃ r0, YouTubeUploader.upload_phases E video_path metadata tok s1 = (r0, s')
                         ∧ r = Ok (match r0 with
                                   | Ok res => res
                                   | Raise e =>
                                       YouTubeUploader.UploadFail
                                         ("YouTube upload failed: " +:+ e)
                                   end)
                 else
                   r = Ok (YouTubeUploader.UploadFail "Failed to refresh access token")
                   ∧ s' = s1
           else
             ∃ r0, YouTubeUploader.upload_phases E video_path metadata stored
                     {| fs := fs s; log := log s; ticks := S (ticks s) |} = (r0, s')
                   ∧ r = Ok (match r0 with
                             | Ok res => res
                             | Raise e =>
                                 YouTubeUploader.UploadFail
                                   ("YouTube upload failed: " +:+ e)
                             end))).
Proof.
  unfold YouTubeUploader.upload_video, YouTubeUploader.token_expired,
    YouTubeUploader.num_sub, YouTubeUploader.num_gt.
  repeat run_step.
  all: cbn [fs log ticks] in *.
  all: try solve
    [ right; left; eexists; (split; [eassumption|]);
      (split; [|split_and!; by eauto]);
      try done;
      repeat match goal with H : _ !! _ = _ |- _ => rewrite H end;
      cbn [mbind option_bind];
      repeat match goal with H : as_num _ = _ |- _ => rewrite H end;
      by eauto 10 ].
  - (* no credential file *)
    left. split_and!; try done.
    match goal with
    | H : negb (bool_decide _) = true |- _ =>
        apply negb_true_iff, bool_decide_eq_false in H; by apply eq_None_not_Some
    end.
  - (* the token is expired *)
    apply post_intro. intros r s1 Hrefresh.
    pose proof (post_run _ _ _ _ _ (refresh_access_token_log _ _ _ _) Hrefresh)
      as [[tok ->] _].
    run_simpl.
    destruct (truthy tok) eqn:Htruthy; run_simpl.
    + apply post_intro. intros r0 s2 Hphases.
      destruct r0 as [res|e]; run_simpl; [|run_step].
      all: match goal with
           | Hexp : Binary64.gtb _ _ = true |- _ =>
               right; right; do 7 eexists;
               (split_and!; [eassumption..|]);
               rewrite Hexp; exists tok, s1; (split; [done|]); rewrite Htruthy
           end.
      all: by eexists.
    + run_step.
      match goal with
      | Hexp : Binary64.gtb _ _ = true |- _ =>
          right; right; do 7 eexists;
          (split_and!; [eassumption..|]);
          rewrite Hexp; exists tok, s1; (split; [done|]); by rewrite Htruthy
      end.
  - (* the token is still good *)
    apply post_intro. intros r0 s2 Hphases.
    destruct r0 as [res|e]; run_simpl; [|run_step].
    all: match goal with
         | Hexp : Binary64.gtb _ _ = false |- _ =>
             right; right; do 7 eexists;
             (split_and!; [eassumption..|]);
             rewrite Hexp
         end.
    all: by eexists.
  - (* the file was seen to exist *)
    match goal with
    | H : negb (bool_decide _) = false, Hnone : fs s !! creds_path = None |- _ =>
        apply negb_false_iff, bool_decide_eq_true in H;
        rewrite Hnone in H; by destruct H
    end.
Qed.

(** A refresh leaves every file but the credential file as it was. *)
Lemma refresh_access_token_frame (E : Env) (self : YouTubeUploader.Uploader)
    (creds_path : string) (s : Sys) :
  post (YouTubeUploader.refresh_access_token E self creds_path) s (λ r s',
    (∃ tok, r = Ok tok)
    ∧ (∀ p, p ≠ creds_path → fs s' !! p = fs s !! p)
    ∧ (log s' = log s
       ∨ ∃ rt, log s' = (log s ++ [YouTubeUploader.refresh_request self rt])%list)).
Proof.
  apply post_intro. intros r s' Hrun.
  pose proof (post_run _ _ _ _ _ (refresh_access_token_log E self creds_path s) Hrun)
    as [Hr Hlog].
  split; [done|]. split; [|done].
  pose proof (post_run _ _ _ _ _ (refresh_access_token_cases E self creds_path s) Hrun)
    as (r0 & Htry & _).
  pose proof (post_run _ _ _ _ _ (refresh_try_cases E self creds_path s) Htry)
    as [(e & _ & Hfs & _)|(d & rt & resp & rd & tok & H)].
  - intros p _. by rewrite Hfs.
  - destruct H as (_ & _ & _ & _ & _ & _ & _ & _ & ->).
    intros p Hp. cbn [fs]. by rewrite lookup_insert_ne.
Qed.

(** X6. Without a usable credential record (no file, a file that is not a
    JSON object, or a record whose [created_at] or [expires_in] is missing
    or not a number, or whose [access_token] is missing), [upload_video]
    returns a failure without sending any request and without changing
    any file. *)
Theorem upload_without_usable_credentials
    (E : Env) (self : YouTubeUploader.Uploader) (video_path : string)
    (metadata : MetadataGenerator.Metadata) (creds_path : string) (s : Sys) :
  match fs s !! creds_path with
  | Some (FJson d) =>
      d !! "created_at" ≫= as_num = None
      ∨ d !! "expires_in" ≫= as_num = None
      ∨ d !! "access_token" = None
  | _ => True
  end →
  ∃ error s',
    YouTubeUploader.upload_video E self video_path metadata creds_path s
    = (Ok (YouTubeUploader.UploadFail error), s')
    ∧ fs s' = fs s ∧ log s' = log s.
Proof.
  intros Hbad.
  destruct (YouTubeUploader.upload_video E self video_path metadata creds_path s)
    as [r s'] eqn:Hrun.
  pose proof (post_run _ _ _ _ _
                (upload_video_cases E self video_path metadata creds_path s) Hrun)
    as [(_ & -> & ->)|[(f & _ & _ & [error ->] & Hfs & Hlog)|Hrecord]].
  - by eexists _, _.
  - by exists error, s'.
  - exfalso.
    destruct Hrecord as (d & vc & c & ve & e & stored & token_age
                           & Hfile & Hvc & Hc & Hve & He & Hstored & _).
    rewrite Hfile, Hvc, Hve, Hstored in Hbad. cbn [mbind option_bind] in Hbad.
    rewrite Hc, He in Hbad. by destruct Hbad as [?|[?|?]].
Qed.

(** A credential file that holds no JSON object, and no file at all. *)
Lemma upload_without_usable_credentials_witness :
  (∃ error s',
     YouTubeUploader.upload_video Demo.env_ok Demo.uploader Demo.audio_path
       Demo.metadata Demo.audio_path (Demo.sys0 (Demo.creds JNull 1000))
     = (Ok (YouTubeUploader.UploadFail error), s')
     ∧ fs s' = fs (Demo.sys0 (Demo.creds JNull 1000))
     ∧ log s' = log (Demo.sys0 (Demo.creds JNull 1000)))
  ∧ (∃ error s',
       YouTubeUploader.upload_video Demo.env_ok Demo.uploader Demo.audio_path
         Demo.metadata "user_credentials/youtube_nobody.json"
         (Demo.sys0 (Demo.creds JNull 1000))
       = (Ok (YouTubeUploader.UploadFail error), s')
       ∧ fs s' = fs (Demo.sys0 (Demo.creds JNull 1000))
       ∧ log s' = log (Demo.sys0 (Demo.creds JNull 1000))).
Proof.
  split.
  - apply (upload_without_usable_credentials Demo.env_ok Demo.uploader Demo.audio_path
             Demo.metadata Demo.audio_path (Demo.sys0 (Demo.creds JNull 1000))).
    vm_compute. exact I.
  - apply (upload_without_usable_credentials Demo.env_ok Demo.uploader Demo.audio_path
             Demo.metadata "user_credentials/youtube_nobody.json"
             (Demo.sys0 (Demo.creds JNull 1000))).
    vm_compute. exact I.
Defined.

Lemma upload_fresh_shape
    (E : Env) (self : YouTubeUploader.Uploader) (video_path : string)
    (metadata : MetadataGenerator.Metadata) (creds_path : string) (s : Sys)
    (d : gmap string json) (c e : Q) (stored : json) (token_age : Binary64.double) :
  fs s !! creds_path = Some (FJson d) →
  d !! "created_at" = Some (JNum c) →
  d !! "expires_in" = Some (JNum e) →
  d !! "access_token" = Some stored →
  Binary64.sub (clock E (ticks s)) c = Some token_age →
  Binary64.gtb token_age e = false →
  ∃ res s',
    YouTubeUploader.upload_video E self video_path metadata creds_path s = (Ok res, s')
    ∧ fs s' = fs s
    ∧ (log s' = (log s ++ [YouTubeUploader.init_request stored E metadata])%list
       ∨ ∃ loc data,
           log s' = (log s ++ [YouTubeUploader.init_request stored E metadata;
                               YouTubeUploader.transfer_request loc data])%list).
Proof.
  intros Hfile Hc He Hstored Hage Hfresh.
  destruct (YouTubeUploader.upload_video E self video_path metadata creds_path s)
    as [r s'] eqn:Hrun.
  pose proof (post_run _ _ _ _ _
                (upload_video_cases E self video_path metadata creds_path s) Hrun)
    as [(Hnone & _)|[(f & Hf & Hbad & _)|Hrecord]].
  - congruence.
  - exfalso. rewrite Hfile in Hf. injection Hf as <-.
    rewrite Hc, He, Hstored in Hbad. cbn [mbind option_bind as_num] in Hbad.
    destruct Hbad as [?|[?|[?|(c' & [= <-] & Hnone)]]]; congruence.
  - destruct Hrecord as (d' & vc & c' & ve & e' & stored' & token_age'
                           & Hfile' & Hvc & Hc' & Hve & He' & Hstored' & Hage' & Hrest).
    rewrite Hfile in Hfile'. injection Hfile' as <-.
    rewrite Hc in Hvc. injection Hvc as <-. injection Hc' as <-.
    rewrite He in Hve. injection Hve as <-. injection He' as <-.
    rewrite Hstored in Hstored'. injection Hstored' as <-.
    rewrite Hage in Hage'. injection Hage' as <-.
    rewrite Hfresh in Hrest.
    destruct Hrest as (r0 & Hphases & ->).
    pose proof (post_run _ _ _ _ _ (upload_phases_effect _ _ _ _ _) Hphases)
      as (Hfs & _).
    pose proof (post_run _ _ _ _ _ (upload_phases_log _ _ _ _ _) Hphases) as Hlog.
    eexists _, s'. split_and!; done.
Qed.

(** X7. A stored token that the expiry check finds not expired (the float
    [now - created_at] is not greater than [expires_in]) is used as it is:
    no refresh request is sent, no file is written, and the requests sent
    are the initiation carrying the stored token, followed by at most the
    transfer. *)
Theorem upload_with_fresh_token
    (E : Env) (self : YouTubeUploader.Uploader) (video_path : string)
    (metadata : MetadataGenerator.Metadata) (creds_path : string) (s : Sys)
    (d : gmap string json) (c e : Q) (stored : json) (token_age : Binary64.double) :
  fs s !! creds_path = Some (FJson d) →
  d !! "created_at" = Some (JNum c) →
  d !! "expires_in" = Some (JNum e) →
  d !! "access_token" = Some stored →
  Binary64.sub (clock E (ticks s)) c = Some token_age →
  Binary64.gtb token_age e = false →
  ∃ res s',
    YouTubeUploader.upload_video E self video_path metadata creds_path s = (Ok res, s')
    ∧ fs s' = fs s
    ∧ (log s' = (log s ++ [YouTubeUploader.init_request stored E metadata])%list
       ∨ ∃ loc data,
           log s' = (log s ++ [YouTubeUploader.init_request stored E metadata;
                               YouTubeUploader.transfer_request loc data])%list).
Proof. apply upload_fresh_shape. Qed.

(** A token of 3600 seconds issued 100 seconds before the clock reading. *)
Lemma upload_with_fresh_token_witness :
  Binary64.sub (clock Demo.env_ok 0) (1700000000 - 100) = Some (Binary64.Finite 100)
  ∧ ∃ res s',
    YouTubeUploader.upload_video Demo.env_ok Demo.uploader Demo.audio_path
      Demo.metadata Demo.creds_path
      (Demo.sys0 (Demo.creds (JStr "r1") (1700000000 - 100)))
    = (Ok res, s')
    ∧ fs s' = fs (Demo.sys0 (Demo.creds (JStr "r1") (1700000000 - 100))).
Proof.
  assert (Hage : Binary64.sub (clock Demo.env_ok 0) (1700000000 - 100)
                 = Some (Binary64.Finite 100)) by (vm_compute; reflexivity).
  split; [exact Hage|].
  pose proof (upload_with_fresh_token Demo.env_ok Demo.uploader Demo.audio_path
                Demo.metadata Demo.creds_path
                (Demo.sys0 (Demo.creds (JStr "r1") (1700000000 - 100)))
                (Demo.creds (JStr "r1") (1700000000 - 100))
                (1700000000 - 100) 3600 (JStr "stale") (Binary64.Finite 100)) as H.
  specialize (H eq_refl eq_refl eq_refl eq_refl Hage eq_refl).
  destruct H as (res & s' & Hrun & Hfs & _).
  exists res, s'. split; [exact Hrun|exact Hfs].
Defined.

(** X28. In exact terms: when [created_at] and [expires_in] are values of
    floats and [now - created_at <= expires_in] holds of the exact values,
    the stored token is used as it is (no refresh request, no file
    written): rounding never makes the upload refresh a token early. *)
Theorem upload_within_exact_lifetime
    (E : Env) (self : YouTubeUploader.Uploader) (video_path : string)
    (metadata : MetadataGenerator.Metadata) (creds_path : string) (s : Sys)
    (d : gmap string json) (c e : Q) (stored : json) :
  fs s !! creds_path = Some (FJson d) →
  d !! "created_at" = Some (JNum c) →
  d !! "expires_in" = Some (JNum e) →
  d !! "access_token" = Some stored →
  Binary64.is_double c = true →
  Binary64.is_double e = true →
  (clock E (ticks s) - c <= e)%Q →
  ∃ res s',
    YouTubeUploader.upload_video E self video_path metadata creds_path s = (Ok res, s')
    ∧ fs s' = fs s
    ∧ (log s' = (log s ++ [YouTubeUploader.init_request stored E metadata])%list
       ∨ ∃ loc data,
           log s' = (log s ++ [YouTubeUploader.init_request stored E metadata;
                               YouTubeUploader.transfer_request loc data])%list).
Proof.
  intros Hfile Hc He Hstored Hdc Hde Hle.
  destruct (sub_below _ _ _ Hdc Hde Hle) as (token_age & Hage & Hfresh).
  by apply (upload_fresh_shape E self video_path metadata creds_path s d c e stored
              token_age).
Qed.

(** A token of 3600 seconds issued 100 seconds before the clock reading. *)
Lemma upload_within_exact_lifetime_witness :
  ∃ res s',
    YouTubeUploader.upload_video Demo.env_ok Demo.uploader Demo.audio_path
      Demo.metadata Demo.creds_path
      (Demo.sys0 (Demo.creds (JStr "r1") (1700000000 - 100)))
    = (Ok res, s')
    ∧ fs s' = fs (Demo.sys0 (Demo.creds (JStr "r1") (1700000000 - 100))).
Proof.
  assert (Hdc : Binary64.is_double (1700000000 - 100) = true) by (vm_compute; reflexivity).
  assert (Hde : Binary64.is_double 3600 = true) by (vm_compute; reflexivity).
  assert (Hle : (clock Demo.env_ok 0 - (1700000000 - 100) <= 3600)%Q)
    by (vm_compute; discriminate).
  pose proof (upload_within_exact_lifetime Demo.env_ok Demo.uploader Demo.audio_path
                Demo.metadata Demo.creds_path
                (Demo.sys0 (Demo.creds (JStr "r1") (1700000000 - 100)))
                (Demo.creds (JStr "r1") (1700000000 - 100))
                (1700000000 - 100) 3600 (JStr "stale")
                eq_refl eq_refl eq_refl eq_refl Hdc Hde Hle) as H.
  destruct H as (res & s' & Hrun & Hfs & _).
  exists res, s'. split; [exact Hrun|exact Hfs].
Defined.

Lemma refresh_no_token_run
    (E : Env) (self : YouTubeUploader.Uploader) (creds_path : string) (s : Sys) :
  match fs s !! creds_path with
  | Some (FJson d) => truthy (default JNull (d !! "refresh_token")) = false
  | _ => True
  end →
  YouTubeUploader.refresh_access_token E self creds_path s = (Ok JNull, s).
Proof.
  intros Hno.
  unfold YouTubeUploader.refresh_access_token, YouTubeUploader.refresh_try,
    try_catch, bind, read_file.
  destruct (fs s !! creds_path) as [[d|img|n]|]; try reflexivity.
  cbn [YouTubeUploader.load_json ret]. by rewrite Hno.
Qed.

(** X8. Without a refresh token to use (no credential file, a file that
    is not a JSON object, or a record whose [refresh_token] is missing,
    null or empty), [refresh_access_token] returns [None] at once: no
    request is sent and the state is exactly as it was. *)
Theorem refresh_without_refresh_token
    (E : Env) (self : YouTubeUploader.Uploader) (creds_path : string) (s : Sys) :
  match fs s !! creds_path with
  | Some (FJson d) => truthy (default JNull (d !! "refresh_token")) = false
  | _ => True
  end →
  YouTubeUploader.refresh_access_token E self creds_path s = (Ok JNull, s).
Proof. apply refresh_no_token_run. Qed.

Lemma refresh_without_refresh_token_witness :
  YouTubeUploader.refresh_access_token Demo.env_ok Demo.uploader Demo.creds_path
    (Demo.sys0 (Demo.creds (JStr "") 1000))
  = (Ok JNull, Demo.sys0 (Demo.creds (JStr "") 1000)).
Proof.
  apply (refresh_without_refresh_token Demo.env_ok Demo.uploader Demo.creds_path
           (Demo.sys0 (Demo.creds (JStr "") 1000))).
  reflexivity.
Defined.

(** X9. When the expiry check finds the stored token expired (the float
    [now - created_at] is greater than [expires_in]) and the record has no
    refresh token to use, [upload_video] returns the failure ["Failed to
    refresh access token"]: neither the token endpoint nor the upload
    endpoint is contacted, and no file is changed. *)
Theorem upload_with_expired_token_and_no_refresh_token
    (E : Env) (self : YouTubeUploader.Uploader) (video_path : string)
    (metadata : MetadataGenerator.Metadata) (creds_path : string) (s : Sys)
    (d : gmap string json) (c e : Q) (stored : json) (token_age : Binary64.double) :
  fs s !! creds_path = Some (FJson d) →
  d !! "created_at" = Some (JNum c) →
  d !! "expires_in" = Some (JNum e) →
  d !! "access_token" = Some stored →
  Binary64.sub (clock E (ticks s)) c = Some token_age →
  Binary64.gtb token_age e = true →
  truthy (default JNull (d !! "refresh_token")) = false →
  ∃ s',
    YouTubeUploader.upload_video E self video_path metadata creds_path s
    = (Ok (YouTubeUploader.UploadFail "Failed to refresh access token"), s')
    ∧ fs s' = fs s ∧ log s' = log s.
Proof.
  intros Hfile Hc He Hstored Hage Hold Hno.
  destruct (YouTubeUploader.upload_video E self video_path metadata creds_path s)
    as [r s'] eqn:Hrun.
  pose proof (post_run _ _ _ _ _
                (upload_video_cases E self video_path metadata creds_path s) Hrun)
    as [(Hnone & _)|[(f & Hf & Hbad & _)|Hrecord]].
  - congruence.
  - exfalso. rewrite Hfile in Hf. injection Hf as <-.
    rewrite Hc, He, Hstored in Hbad. cbn [mbind option_bind as_num] in Hbad.
    destruct Hbad as [?|[?|[?|(c' & [= <-] & Hnone)]]]; congruence.
  - destruct Hrecord as (d' & vc & c' & ve & e' & stored' & token_age'
                           & Hfile' & Hvc & Hc' & Hve & He' & Hstored' & Hage' & Hrest).
    rewrite Hfile in Hfile'. injection Hfile' as <-.
    rewrite Hc in Hvc. injection Hvc as <-. injection Hc' as <-.
    rewrite He in Hve. injection Hve as <-. injection He' as <-.
    rewrite Hage in Hage'. injection Hage' as <-.
    rewrite Hold in Hrest.
    destruct Hrest as (tok & s1 & Hrefresh & Hrest).
    rewrite refresh_no_token_run in Hrefresh
      by (cbn [fs]; by rewrite Hfile).
    injection Hrefresh as <- <-. cbn [truthy] in Hrest.
    destruct Hrest as [-> ->]. by eexists.
Qed.

(** Scenario 3 of the specification, at the publisher. *)
Lemma upload_with_expired_token_and_no_refresh_token_witness :
  Binary64.sub (clock Demo.env_ok 0) 1000 = Some (Binary64.Finite 1699999000)
  ∧ ∃ s',
    YouTubeUploader.upload_video Demo.env_ok Demo.uploader Demo.audio_path
      Demo.metadata Demo.creds_path (Demo.sys0 (Demo.creds JNull 1000))
    = (Ok (YouTubeUploader.UploadFail "Failed to refresh access token"), s')
    ∧ fs s' = fs (Demo.sys0 (Demo.creds JNull 1000))
    ∧ log s' = log (Demo.sys0 (Demo.creds JNull 1000)).
Proof.
  assert (Hage : Binary64.sub (clock Demo.env_ok 0) 1000
                 = Some (Binary64.Finite 1699999000)) by (vm_compute; reflexivity).
  split; [exact Hage|].
  pose proof (upload_with_expired_token_and_no_refresh_token Demo.env_ok Demo.uploader
                Demo.audio_path Demo.metadata Demo.creds_path
                (Demo.sys0 (Demo.creds JNull 1000)) (Demo.creds JNull 1000)
                1000 3600 (JStr "stale") (Binary64.Finite 1699999000)) as H.
  exact (H eq_refl eq_refl eq_refl eq_refl Hage eq_refl eq_refl).
Defined.

(** X10. Whatever its outcome, [upload_video] changes no file other than
    the credential file: in particular the rendered video is never
    modified. *)
Theorem upload_video_writes_only_credentials
    (E : Env) (self : YouTubeUploader.Uploader) (video_path : string)
    (metadata : MetadataGenerator.Metadata) (creds_path : string) (s : Sys) :
  ∃ res s',
    YouTubeUploader.upload_video E self video_path metadata creds_path s = (Ok res, s')
    ∧ ∀ p, p ≠ creds_path → fs s' !! p = fs s !! p.
Proof.
  destruct (YouTubeUploader.upload_video E self video_path metadata creds_path s)
    as [r s'] eqn:Hrun.
  pose proof (post_run _ _ _ _ _
                (upload_video_log E self video_path metadata creds_path s) Hrun)
    as [[res ->] _].
  exists res, s'. split; [done|].
  pose proof (post_run _ _ _ _ _
                (upload_video_cases E self video_path metadata creds_path s) Hrun)
    as [(_ & _ & ->)|[(f & _ & _ & _ & Hfs & _)|Hrecord]]; [done|by rewrite Hfs|].
  destruct Hrecord as (d & vc & c & ve & e & stored & token_age
                         & _ & _ & _ & _ & _ & _ & _ & Hrest).
  intros p Hp.
  destruct (Binary64.gtb token_age e).
  - destruct Hrest as (tok & s1 & Hrefresh & Hrest).
    pose proof (post_run _ _ _ _ _ (refresh_access_token_frame _ _ _ _) Hrefresh)
      as (_ & Hframe & _).
    cbn [fs] in Hframe.
    destruct (truthy tok).
    + destruct Hrest as (r0 & Hphases & _).
      pose proof (post_run _ _ _ _ _ (upload_phases_effect _ _ _ _ _) Hphases)
        as (-> & _).
      by apply Hframe.
    + destruct Hrest as [_ ->]. by apply Hframe.
  - destruct Hrest as (r0 & Hphases & _).
    by pose proof (post_run _ _ _ _ _ (upload_phases_effect _ _ _ _ _) Hphases)
      as (-> & _).
Qed.

Lemma upload_success_shape
    (E : Env) (self : YouTubeUploader.Uploader) (video_path : string)
    (metadata : MetadataGenerator.Metadata) (creds_path : string) (s s' : Sys)
    (video_id : json) (video_url title : string) :
  YouTubeUploader.upload_video E self video_path metadata creds_path s
  = (Ok (YouTubeUploader.UploadOk video_id video_url title), s') →
  ∃ pre tok resp loc data resp' result,
    log s' = (log s ++ pre ++ [YouTubeUploader.init_request tok E metadata;
                               YouTubeUploader.transfer_request loc data])%list
    ∧ ((pre = []
        ∧ ∃ d, fs s !! creds_path = Some (FJson d) ∧ d !! "access_token" = Some tok)
       ∨ (∃ rt answer refresh_data,
            pre = [YouTubeUploader.refresh_request self rt]
            ∧ http E (log s) (YouTubeUploader.refresh_request self rt) = HttpResp answer
            ∧ json_body answer = Some refresh_data
            ∧ refresh_data !! "access_token" = Some tok))
    ∧ http E (log s ++ pre)%list (YouTubeUploader.init_request tok E metadata)
      = HttpResp resp
    ∧ status resp = 200%Z
    ∧ resp_headers resp !! "location" = Some loc
    ∧ loc ≠ ""
    ∧ fs s' !! video_path = Some data
    ∧ http E (log s ++ pre ++ [YouTubeUploader.init_request tok E metadata])%list
        (YouTubeUploader.transfer_request loc data) = HttpResp resp'
    ∧ (status resp' = 200%Z ∨ status resp' = 201%Z)
    ∧ json_body resp' = Some result
    ∧ result !! "id" = Some video_id
    ∧ video_url = "https://www.youtube.com/watch?v=" +:+ Py.str (repr_num E) video_id
    ∧ title = MetadataGenerator.title metadata.
Proof.
  intros Hrun.
  pose proof (post_run _ _ _ _ _
                (upload_video_cases E self video_path metadata creds_path s) Hrun)
    as [(_ & [=] & _)|[(f & _ & _ & [error [=]] & _)|Hrecord]].
  destruct Hrecord as (d & vc & c & ve & e & stored & token_age
                         & Hfile & _ & _ & _ & _ & Hstored & _ & Hrest).
  assert (Hphases : ∃ pre tok s1,
            ((pre = []
              ∧ ∃ d, fs s !! creds_path = Some (FJson d) ∧ d !! "access_token" = Some tok)
             ∨ (∃ rt answer refresh_data,
                  pre = [YouTubeUploader.refresh_request self rt]
                  ∧ http E (log s) (YouTubeUploader.refresh_request self rt)
                    = HttpResp answer
                  ∧ json_body answer = Some refresh_data
                  ∧ refresh_data !! "access_token" = Some tok))
            ∧ log s1 = (log s ++ pre)%list
            ∧ YouTubeUploader.upload_phases E video_path metadata tok s1
              = (Ok (YouTubeUploader.UploadOk video_id video_url title), s')).
  { destruct (Binary64.gtb token_age e).
    - destruct Hrest as (tok & s1 & Hrefresh & Hrest).
      destruct (truthy tok) eqn:Htruthy; [|by destruct Hrest as [[=] _]].
      destruct Hrest as (r0 & Hphases & [= Hr0]).
      destruct r0 as [res|err]; [|discriminate]. subst res.
      pose proof (post_run _ _ _ _ _ (refresh_access_token_cases _ _ _ _) Hrefresh)
        as (r1 & Htry & [= Htok]).
      pose proof (post_run _ _ _ _ _ (refresh_try_cases _ _ _ _) Htry)
        as [(err & -> & _)|(d1 & rt & answer & rd & tok1 & _ & _ & _ & Hhttp & Hbody & _
                             & Hanswer & -> & ->)].
      + subst tok. discriminate.
      + subst tok. cbn [fs log ticks] in *.
        eexists [YouTubeUploader.refresh_request self rt], tok1, _.
        split; [right; by exists rt, answer, rd|].
        split; [|exact Hphases]. done.
    - destruct Hrest as (r0 & Hphases & [= Hr0]).
      destruct r0 as [res|err]; [|discriminate]. subst res.
      exists [], stored, {| fs := fs s; log := log s; ticks := S (ticks s) |}.
      rewrite app_nil_r. split_and!; [left; split; [done|by exists d]|done|done]. }
  destruct Hphases as (pre & tok & s1 & Hpre & Hlog & Hphases).
  pose proof (post_run _ _ _ _ _ (upload_phases_effect _ _ _ _ _) Hphases)
    as (Hfs & _ & resp & loc & data & resp' & result & Hinit & Hstatus & Hheader & Hloc
          & Hdata & Hput & Hstatus' & Hbody & Hid & Hlog' & Hurl & Htitle).
  rewrite Hlog in Hinit, Hput, Hlog'. rewrite <- app_assoc in Hput, Hlog'.
  exists pre, tok, resp, loc, data, resp', result. split_and!; try done.
  by rewrite Hfs.
Qed.

(** X11. A successful [upload_video] has sent, as its last two requests,
    one initiation and then one transfer; before them at most one token
    refresh. The initiation carries the stored access token, or the one
    answered by the refresh when there was one, and was answered 200 with a
    [location] header; the transfer is a PUT of the bytes of the video
    file to that location, answered 200 or 201 with a JSON body; the
    identifier returned is the [id] of that body, the URL its watch URL,
    and the title is the title of the metadata. *)
Theorem upload_video_success
    (E : Env) (self : YouTubeUploader.Uploader) (video_path : string)
    (metadata : MetadataGenerator.Metadata) (creds_path : string) (s s' : Sys)
    (video_id : json) (video_url title : string) :
  YouTubeUploader.upload_video E self video_path metadata creds_path s
  = (Ok (YouTubeUploader.UploadOk video_id video_url title), s') →
  ∃ pre tok resp loc data resp' result,
    log s' = (log s ++ pre ++ [YouTubeUploader.init_request tok E metadata;
                               YouTubeUploader.transfer_request loc data])%list
    ∧ ((pre = []
        ∧ ∃ d, fs s !! creds_path = Some (FJson d) ∧ d !! "access_token" = Some tok)
       ∨ (∃ rt answer refresh_data,
            pre = [YouTubeUploader.refresh_request self rt]
            ∧ http E (log s) (YouTubeUploader.refresh_request self rt) = HttpResp answer
            ∧ json_body answer = Some refresh_data
            ∧ refresh_data !! "access_token" = Some tok))
    ∧ http E (log s ++ pre)%list (YouTubeUploader.init_request tok E metadata)
      = HttpResp resp
    ∧ status resp = 200%Z
    ∧ resp_headers resp !! "location" = Some loc
    ∧ loc ≠ ""
    ∧ fs s' !! video_path = Some data
    ∧ http E (log s ++ pre ++ [YouTubeUploader.init_request tok E metadata])%list
        (YouTubeUploader.transfer_request loc data) = HttpResp resp'
    ∧ (status resp' = 200%Z ∨ status resp' = 201%Z)
    ∧ json_body resp' = Some result
    ∧ result !! "id" = Some video_id
    ∧ video_url = "https://www.youtube.com/watch?v=" +:+ Py.str (repr_num E) video_id
    ∧ title = MetadataGenerator.title metadata.
Proof. apply upload_success_shape. Qed.

(** A token that is still good, a session opened at
    [https://upload.example/session], and the identifier [abc123]. *)
Lemma upload_video_success_witness :
  ∃ loc data,
    log (snd (YouTubeUploader.upload_video Demo.env_ok Demo.uploader Demo.audio_path
                Demo.metadata Demo.creds_path
                (Demo.sys0 (Demo.creds (JStr "r1") (1700000000 - 100)))))
    = [YouTubeUploader.init_request (JStr "stale") Demo.env_ok Demo.metadata;
       YouTubeUploader.transfer_request loc data]
    ∧ resp_headers
        (match http Demo.env_ok []
                 (YouTubeUploader.init_request (JStr "stale") Demo.env_ok Demo.metadata) with
         | HttpResp resp => resp
         | HttpFail _ => {| status := 0; resp_headers := ∅; text := ""; json_body := None |}
         end) !! "location" = Some loc.
Proof.
  assert (Hrun : YouTubeUploader.upload_video Demo.env_ok Demo.uploader Demo.audio_path
                   Demo.metadata Demo.creds_path
                   (Demo.sys0 (Demo.creds (JStr "r1") (1700000000 - 100)))
                 = (Ok (YouTubeUploader.UploadOk (JStr "abc123")
                          "https://www.youtube.com/watch?v=abc123"
                          (MetadataGenerator.title Demo.metadata)),
                    snd (YouTubeUploader.upload_video Demo.env_ok Demo.uploader
                           Demo.audio_path Demo.metadata Demo.creds_path
                           (Demo.sys0 (Demo.creds (JStr "r1") (1700000000 - 100))))))
    by (vm_compute; reflexivity).
  destruct (upload_video_success _ _ _ _ _ _ _ _ _ _ Hrun)
    as (pre & tok & resp & loc & data & resp' & result & Hlog & Hpre & Hinit & _
          & Hheader & _).
  destruct Hpre as [[-> (d & Hfile & Htok)]|(rt & answer & rd & -> & _)].
  - vm_compute in Hfile. injection Hfile as <-.
    vm_compute in Htok. injection Htok as <-.
    exists loc, data. split; [exact Hlog|].
    cbn [app log Demo.sys0] in Hinit. rewrite Hinit. exact Hheader.
  - exfalso. apply (f_equal List.length) in Hlog.
    rewrite !length_app in Hlog. cbn [List.length] in Hlog.
    assert (Hlen : List.length
                     (log (snd (YouTubeUploader.upload_video Demo.env_ok Demo.uploader
                                  Demo.audio_path Demo.metadata Demo.creds_path
                                  (Demo.sys0 (Demo.creds (JStr "r1") (1700000000 - 100))))))
                   = 2%nat) by (vm_compute; reflexivity).
    rewrite Hlen in Hlog. cbn in Hlog. lia.
Defined.

(** ** The job record after the publish stage *)

(** X12. When the render succeeds and the user has no credential file,
    the publish is skipped: the job ends [completed] at progress 100 with
    the message that YouTube is not connected, no request at all has been
    sent, and [youtubeUrl], [videoId] and [youtubeError] are not written. *)
Theorem publish_skipped_without_credentials
    (E : Env) (job_id audio_path image_path : string) (req : Main.VideoRequest)
    (w : Main.App) (j : gmap string json)
    (output_path : string) (size : N) (duration : Q) (s2 : Sys) :
  Main.jobs w !! job_id = Some j →
  Main.render_stage E audio_path image_path req (Main.app_sys w)
  = (Ok (VideoCreator.RenderOk output_path size duration), s2) →
  fs s2 !! Main.creds_path_of req = None →
  ∃ w' j',
    Main.process_video_background E job_id audio_path image_path req w = (Ok tt, w')
    ∧ Main.jobs w' !! job_id = Some j'
    ∧ j' !! "status" = Some (JStr "completed")
    ∧ j' !! "progress" = Some (JNum 100)
    ∧ j' !! "message" = Some (JStr "Video created successfully (YouTube not connected)")
    ∧ j' !! "videoPath" = Some (JStr output_path)
    ∧ j' !! "youtubeUrl" = j !! "youtubeUrl"
    ∧ j' !! "videoId" = j !! "videoId"
    ∧ j' !! "youtubeError" = j !! "youtubeError"
    ∧ log (Main.app_sys w') = log (Main.app_sys w).
Proof.
  intros Hj Hrender Hnone.
  destruct (Main.process_video_background E job_id audio_path image_path req w)
    as [r w'] eqn:Hrun.
  pose proof (post_run _ _ _ _ _
                (process_video_background_world E job_id audio_path image_path req w j Hj)
                Hrun) as (-> & _ & _ & _ & j' & Hj' & _ & Hworld).
  pose proof (post_run _ _ _ _ _
                (process_video_background_cases E job_id audio_path image_path req w j Hj)
                Hrun) as (_ & j'' & Hj'' & Hcases).
  rewrite Hj' in Hj''. injection Hj'' as <-.
  rewrite Hrender in Hworld, Hcases.
  rewrite bool_decide_eq_false_2 in Hworld, Hcases
    by (rewrite Hnone; by intros [? ?]).
  destruct Hworld as (Hlog & Hmessage & Hid).
  destruct Hcases as (Hstatus & Hprogress & Hpath & _ & Hurl & Hyt).
  unfold Main.render_stage, bind, now in Hrender.
  pose proof (post_run _ _ _ _ _ (create_video_cases _ _ _ _ _ _) Hrender)
    as (Hlog2 & _ & res & [= <-] & -> & _).
  exists w', j'. split_and!; try done. by rewrite Hlog.
Qed.

(** Scenario 2 of the specification: a user who never connected. *)
Lemma publish_skipped_without_credentials_witness :
  ∃ w' j',
    Main.process_video_background Demo.env_ok "j1" Demo.audio_path Demo.image_path
      {| Main.beatName := "Night Drive"; Main.artistType := "Travis Scott";
         Main.producerName := "Producer"; Main.userId := "anonymous" |}
      (Demo.app0 (Demo.creds JNull 1000)) = (Ok tt, w')
    ∧ Main.jobs w' !! "j1" = Some j'
    ∧ j' !! "status" = Some (JStr "completed")
    ∧ j' !! "youtubeUrl" = None
    ∧ log (Main.app_sys w') = [].
Proof.
  destruct (publish_skipped_without_credentials Demo.env_ok "j1" Demo.audio_path
              Demo.image_path
              {| Main.beatName := "Night Drive"; Main.artistType := "Travis Scott";
                 Main.producerName := "Producer"; Main.userId := "anonymous" |}
              (Demo.app0 (Demo.creds JNull 1000))
              (Main.new_job "j1" "2025-01-01T00:00:00" Demo.req)
              Demo.output_path 250000 3
              (snd (Main.render_stage Demo.env_ok Demo.audio_path Demo.image_path
                      {| Main.beatName := "Night Drive"; Main.artistType := "Travis Scott";
                         Main.producerName := "Producer"; Main.userId := "anonymous" |}
                      (Demo.sys0 (Demo.creds JNull 1000)))))
    as (w' & j' & Hrun & Hj' & Hstatus & _ & _ & _ & Hurl & _ & _ & Hlog).
  - reflexivity.
  - vm_compute. reflexivity.
  - vm_compute. reflexivity.
  - exists w', j'. split_and!; [exact Hrun|exact Hj'|exact Hstatus| |exact Hlog].
    rewrite Hurl. reflexivity.
Defined.

(** X13. When the render and the publish both succeed, the job ends
    [completed] at progress 100 with [videoId] the identifier answered by
    the platform and [youtubeUrl] its watch URL; no publish error is
    recorded. *)
Theorem publish_success_records_url
    (E : Env) (job_id audio_path image_path : string) (req : Main.VideoRequest)
    (w : Main.App) (j : gmap string json)
    (output_path : string) (size : N) (duration : Q) (s2 s3 : Sys)
    (video_id : json) (video_url title : string) :
  Main.jobs w !! job_id = Some j →
  Main.render_stage E audio_path image_path req (Main.app_sys w)
  = (Ok (VideoCreator.RenderOk output_path size duration), s2) →
  is_Some (fs s2 !! Main.creds_path_of req) →
  Main.publish_stage E req output_path s2
  = (Ok (YouTubeUploader.UploadOk video_id video_url title), s3) →
  ∃ w' j',
    Main.process_video_background E job_id audio_path image_path req w = (Ok tt, w')
    ∧ Main.jobs w' !! job_id = Some j'
    ∧ j' !! "status" = Some (JStr "completed")
    ∧ j' !! "progress" = Some (JNum 100)
    ∧ j' !! "videoPath" = Some (JStr output_path)
    ∧ j' !! "videoId" = Some video_id
    ∧ j' !! "youtubeUrl"
      = Some (JStr ("https://www.youtube.com/watch?v=" +:+ Py.str (repr_num E) video_id))
    ∧ j' !! "youtubeError" = j !! "youtubeError"
    ∧ j' !! "error" = j !! "error".
Proof.
  intros Hj Hrender Hcreds Hpublish.
  destruct (Main.process_video_background E job_id audio_path image_path req w)
    as [r w'] eqn:Hrun.
  pose proof (post_run _ _ _ _ _
                (process_video_background_cases E job_id audio_path image_path req w j Hj)
                Hrun) as (-> & j' & Hj' & Hcases).
  rewrite Hrender in Hcases.
  assert (Hout : output_path
                 = Main.output_path_of req (clock E (ticks (Main.app_sys w)))).
  { unfold Main.render_stage, bind, now in Hrender.
    pose proof (post_run _ _ _ _ _ (create_video_cases _ _ _ _ _ _) Hrender)
      as (_ & _ & res & [= <-] & Hres).
    by destruct Hres as [-> _]. }
  rewrite <- Hout in Hcases.
  destruct Hcases as (Hstatus & Hprogress & Hpath & Herror & Hpub).
  rewrite bool_decide_eq_true_2, Hpublish in Hpub by done.
  destruct Hpub as (Hurl & Hid & Hyt).
  unfold Main.publish_stage in Hpublish.
  destruct (upload_success_shape _ _ _ _ _ _ _ _ _ _ Hpublish)
    as (pre & tok & resp & loc & data & resp' & result & Hshape).
  destruct Hshape as (_ & _ & _ & _ & _ & _ & _ & _ & _ & _ & _ & -> & _).
  by exists w', j'.
Qed.

Lemma publish_success_records_url_witness :
  ∃ w' j',
    Main.process_video_background Demo.env_ok "j1" Demo.audio_path Demo.image_path
      Demo.req (Demo.app0 (Demo.creds (JStr "r1") 1000)) = (Ok tt, w')
    ∧ Main.jobs w' !! "j1" = Some j'
    ∧ j' !! "status" = Some (JStr "completed")
    ∧ j' !! "youtubeUrl" = Some (JStr "https://www.youtube.com/watch?v=abc123").
Proof.
  destruct (publish_success_records_url Demo.env_ok "j1" Demo.audio_path
              Demo.image_path Demo.req (Demo.app0 (Demo.creds (JStr "r1") 1000))
              (Main.new_job "j1" "2025-01-01T00:00:00" Demo.req)
              Demo.output_path 250000 3
              (snd (Main.render_stage Demo.env_ok Demo.audio_path Demo.image_path Demo.req
                      (Demo.sys0 (Demo.creds (JStr "r1") 1000))))
              (snd (Main.publish_stage Demo.env_ok Demo.req Demo.output_path
                      (snd (Main.render_stage Demo.env_ok Demo.audio_path Demo.image_path
                              Demo.req (Demo.sys0 (Demo.creds (JStr "r1") 1000))))))
              (JStr "abc123") "https://www.youtube.com/watch?v=abc123"
              (MetadataGenerator.title Demo.metadata))
    as (w' & j' & Hrun & Hj' & Hstatus & _ & _ & _ & Hurl & _).
  - reflexivity.
  - vm_compute. reflexivity.
  - exists (FJson (Demo.creds (JStr "r1") 1000)). vm_compute. reflexivity.
  - vm_compute. reflexivity.
  - exists w', j'. split_and!; [exact Hrun|exact Hj'|exact Hstatus|exact Hurl].
Defined.

(** ** Code exchange *)

(** The two ways the [try] block of [exchange_code_for_tokens] can end,
    after its one request: it raises and no file has changed (the answer
    is not a full token bundle, or the credential path cannot be opened),
    or the answer is a JSON object without [error] and with the four
    required members, and the credential file of the user is written. *)
Lemma exchange_try_cases (E : Env) (self : YouTubeUploader.Uploader)
    (code user_id : string) (s : Sys) :
  post (YouTubeUploader.exchange_try E self code user_id) s (λ r s',
    log s' = (log s ++ [YouTubeUploader.exchange_request self code])%list
    ∧ ((∃ e, r = Raise e ∧ fs s' = fs s
             ∧ (match http E (log s) (YouTubeUploader.exchange_request self code) with
                | HttpFail _ => True
                | HttpResp resp =>
                    match json_body resp with
                    | None => True
                    | Some tokens =>
                        is_Some (tokens !! "error")
                        ∨ tokens !! "access_token" = None
                        ∨ tokens !! "token_type" = None
                        ∨ tokens !! "expires_in" = None
                        ∨ tokens !! "scope" = None
                    end
                end
                ∨ open_error E (YouTubeUploader.creds_path_for user_id) = Some e))
       ∨ (∃ resp tokens access_token token_type expires_in scope,
            http E (log s) (YouTubeUploader.exchange_request self code) = HttpResp resp
            ∧ json_body resp = Some tokens
            ∧ tokens !! "error" = None
            ∧ tokens !! "access_token" = Some access_token
            ∧ tokens !! "token_type" = Some token_type
            ∧ tokens !! "expires_in" = Some expires_in
            ∧ tokens !! "scope" = Some scope
            ∧ open_error E (YouTubeUploader.creds_path_for user_id) = None
            ∧ r = Ok true
            ∧ ticks s' = S (ticks s)
            ∧ fs s' = <[YouTubeUploader.creds_path_for user_id :=
                          FJson (<["access_token" := access_token]>
                                 (<["refresh_token" := default JNull (tokens !! "refresh_token")]>
                                  (<["token_type" := token_type]>
                                   (<["expires_in" := expires_in]>
                                    (<["scope" := scope]>
                                     (<["created_at" := JNum (clock E (ticks s))]> ∅))))))]>
                      (fs s)))).
Proof.
  unfold YouTubeUploader.exchange_try.
  repeat run_step; (split; [done|]).
  all: try (left; eexists; split_and!; [done|done|];
            first [ by right
                  | left; repeat match goal with H : _ = _ |- _ => rewrite H end;
                    by eauto 10 ]).
  right. do 6 eexists. split_and!; try done.
Qed.

(** X14. [exchange_code_for_tokens] sends exactly one request. If the
    request fails in transport, or the answer cannot be decoded as JSON,
    carries an [error] member, or lacks [access_token], [token_type],
    [expires_in] or [scope], it returns [False] and no file is written. *)
Theorem exchange_failure_writes_nothing
    (E : Env) (self : YouTubeUploader.Uploader) (code user_id : string) (s : Sys) :
  match http E (log s) (YouTubeUploader.exchange_request self code) with
  | HttpFail _ => True
  | HttpResp resp =>
      match json_body resp with
      | None => True
      | Some tokens =>
          is_Some (tokens !! "error")
          ∨ tokens !! "access_token" = None
          ∨ tokens !! "token_type" = None
          ∨ tokens !! "expires_in" = None
          ∨ tokens !! "scope" = None
      end
  end →
  ∃ s', YouTubeUploader.exchange_code_for_tokens E self code user_id s = (Ok false, s')
        ∧ fs s' = fs s
        ∧ log s' = (log s ++ [YouTubeUploader.exchange_request self code])%list.
Proof.
  intros Hbad.
  unfold YouTubeUploader.exchange_code_for_tokens, try_catch.
  destruct (YouTubeUploader.exchange_try E self code user_id s) as [r s'] eqn:Hrun.
  pose proof (post_run _ _ _ _ _ (exchange_try_cases E self code user_id s) Hrun)
    as (Hlog & [(e & -> & Hfs & _)|Hok]).
  - by exists s'.
  - exfalso.
    destruct Hok as (resp & tokens & a & t & ei & sc & Hhttp & Hbody & Herr & Ha & Ht
                       & Hei & Hsc & _).
    rewrite Hhttp, Hbody, Herr, Ha, Ht, Hei, Hsc in Hbad.
    destruct Hbad as [[? ?]|[?|[?|[?|?]]]]; discriminate.
Qed.

(** An OAuth error document, and a bundle without [token_type]. *)
Lemma exchange_failure_writes_nothing_witness :
  (∃ s', YouTubeUploader.exchange_code_for_tokens
           (Demo.env Demo.probe_ok Demo.encode_ok Demo.net_token_error)
           Demo.uploader "code" "u2" (Demo.sys0 (Demo.creds JNull 0))
         = (Ok false, s')
         ∧ fs s' !! YouTubeUploader.creds_path_for "u2" = None)
  ∧ (∃ s', YouTubeUploader.exchange_code_for_tokens
             (Demo.env Demo.probe_ok Demo.encode_ok Demo.net_exchange_partial)
             Demo.uploader "code" "u2" (Demo.sys0 (Demo.creds JNull 0))
           = (Ok false, s')
           ∧ fs s' !! YouTubeUploader.creds_path_for "u2" = None).
Proof.
  split.
  - destruct (exchange_failure_writes_nothing
                (Demo.env Demo.probe_ok Demo.encode_ok Demo.net_token_error)
                Demo.uploader "code" "u2" (Demo.sys0 (Demo.creds JNull 0)))
      as (s' & Hrun & Hfs & _).
    + cbn. left. by eexists.
    + exists s'. split; [exact Hrun|]. rewrite Hfs. reflexivity.
  - destruct (exchange_failure_writes_nothing
                (Demo.env Demo.probe_ok Demo.encode_ok Demo.net_exchange_partial)
                Demo.uploader "code" "u2" (Demo.sys0 (Demo.creds JNull 0)))
      as (s' & Hrun & Hfs & _).
    + cbn. right. right. left. reflexivity.
    + exists s'. split; [exact Hrun|]. rewrite Hfs. reflexivity.
Defined.

Lemma exchange_success_run
    (E : Env) (self : YouTubeUploader.Uploader) (code user_id : string) (s : Sys)
    (resp : Response) (tokens : gmap string json)
    (access_token token_type expires_in scope : json) :
  http E (log s) (YouTubeUploader.exchange_request self code) = HttpResp resp →
  json_body resp = Some tokens →
  tokens !! "error" = None →
  tokens !! "access_token" = Some access_token →
  tokens !! "token_type" = Some token_type →
  tokens !! "expires_in" = Some expires_in →
  tokens !! "scope" = Some scope →
  open_error E (YouTubeUploader.creds_path_for user_id) = None →
  ∃ s',
    YouTubeUploader.exchange_code_for_tokens E self code user_id s = (Ok true, s')
    ∧ ticks s' = S (ticks s)
    ∧ log s' = (log s ++ [YouTubeUploader.exchange_request self code])%list
    ∧ fs s' = <[YouTubeUploader.creds_path_for user_id :=
                  FJson (<["access_token" := access_token]>
                         (<["refresh_token" := default JNull (tokens !! "refresh_token")]>
                          (<["token_type" := token_type]>
                           (<["expires_in" := expires_in]>
                            (<["scope" := scope]>
                             (<["created_at" := JNum (clock E (ticks s))]> ∅))))))]>
              (fs s).
Proof.
  intros Hhttp Hbody Herr Ha Ht Hei Hsc Hopen.
  unfold YouTubeUploader.exchange_code_for_tokens, try_catch.
  destruct (YouTubeUploader.exchange_try E self code user_id s) as [r s'] eqn:Hrun.
  pose proof (post_run _ _ _ _ _ (exchange_try_cases E self code user_id s) Hrun)
    as (Hlog & [(e & -> & _ & Hbad)|Hok]).
  - exfalso. rewrite Hhttp, Hbody, Herr, Ha, Ht, Hei, Hsc, Hopen in Hbad.
    destruct Hbad as [[[? ?]|[?|[?|[?|?]]]]|?]; discriminate.
  - destruct Hok as (resp' & tokens' & a & t & ei & sc & Hhttp' & Hbody' & _ & Ha' & Ht'
                       & Hei' & Hsc' & _ & -> & Hticks & Hfs).
    rewrite Hhttp in Hhttp'. injection Hhttp' as <-.
    rewrite Hbody in Hbody'. injection Hbody' as <-.
    rewrite Ha in Ha'. injection Ha' as <-.
    rewrite Ht in Ht'. injection Ht' as <-.
    rewrite Hei in Hei'. injection Hei' as <-.
    rewrite Hsc in Hsc'. injection Hsc' as <-.
    by exists s'.
Qed.

(** X15. When the answer to the code exchange is a JSON object without
    [error] and with [access_token], [token_type], [expires_in] and
    [scope], and the credential path of the user can be opened for writing,
    [exchange_code_for_tokens] returns [True] and writes exactly one file,
    the credential file of the user. The record has exactly the
    six members [access_token], [refresh_token], [token_type],
    [expires_in], [scope], [created_at]: the values of the answer,
    [refresh_token] being null when the answer has none, and [created_at]
    the clock reading. *)
Theorem exchange_success_stores_record
    (E : Env) (self : YouTubeUploader.Uploader) (code user_id : string) (s : Sys)
    (resp : Response) (tokens : gmap string json)
    (access_token token_type expires_in scope : json) :
  http E (log s) (YouTubeUploader.exchange_request self code) = HttpResp resp →
  json_body resp = Some tokens →
  tokens !! "error" = None →
  tokens !! "access_token" = Some access_token →
  tokens !! "token_type" = Some token_type →
  tokens !! "expires_in" = Some expires_in →
  tokens !! "scope" = Some scope →
  open_error E (YouTubeUploader.creds_path_for user_id) = None →
  ∃ s' d,
    YouTubeUploader.exchange_code_for_tokens E self code user_id s = (Ok true, s')
    ∧ fs s' = <[YouTubeUploader.creds_path_for user_id := FJson d]> (fs s)
    ∧ dom d = list_to_set ["access_token"; "refresh_token"; "token_type";
                            "expires_in"; "scope"; "created_at"]
    ∧ d !! "access_token" = Some access_token
    ∧ d !! "refresh_token" = Some (default JNull (tokens !! "refresh_token"))
    ∧ d !! "token_type" = Some token_type
    ∧ d !! "expires_in" = Some expires_in
    ∧ d !! "scope" = Some scope
    ∧ d !! "created_at" = Some (JNum (clock E (ticks s))).
Proof.
  intros Hhttp Hbody Herr Ha Ht Hei Hsc Hopen.
  destruct (exchange_success_run E self code user_id s resp tokens _ _ _ _
              Hhttp Hbody Herr Ha Ht Hei Hsc Hopen) as (s' & Hrun & _ & _ & Hfs).
  exists s'. eexists. split; [exact Hrun|]. split; [exact Hfs|].
  split_and!; by simplify_map_eq.
Qed.

Lemma exchange_success_stores_record_witness :
  ∃ s' d,
    YouTubeUploader.exchange_code_for_tokens
      (Demo.env Demo.probe_ok Demo.encode_ok Demo.net_exchange_ok)
      Demo.uploader "code" "u2" (Demo.sys0 (Demo.creds JNull 0)) = (Ok true, s')
    ∧ fs s' !! YouTubeUploader.creds_path_for "u2" = Some (FJson d)
    ∧ d !! "refresh_token" = Some (JStr "r1")
    ∧ d !! "created_at" = Some (JNum 1700000000).
Proof.
  destruct (exchange_success_stores_record
              (Demo.env Demo.probe_ok Demo.encode_ok Demo.net_exchange_ok)
              Demo.uploader "code" "u2" (Demo.sys0 (Demo.creds JNull 0))
              {| status := 200; resp_headers := ∅; text := "";
                 json_body := Some (<["access_token" := JStr "first"]>
                                    (<["refresh_token" := JStr "r1"]>
                                     (<["token_type" := JStr "Bearer"]>
                                      (<["expires_in" := JNum 3599]>
                                       (<["scope" := JStr "upload"]> ∅))))) |}
              (<["access_token" := JStr "first"]>
               (<["refresh_token" := JStr "r1"]>
                (<["token_type" := JStr "Bearer"]>
                 (<["expires_in" := JNum 3599]>
                  (<["scope" := JStr "upload"]> ∅)))))
              (JStr "first") (JStr "Bearer") (JNum 3599) (JStr "upload"))
    as (s' & d & Hrun & Hfs & _ & _ & Hrt & _ & _ & _ & Hcreated);
    try reflexivity.
  exists s', d. split_and!; [exact Hrun| |exact Hrt|].
  - rewrite Hfs. apply lookup_insert_eq.
  - rewrite Hcreated. vm_compute. reflexivity.
Defined.

(** X16. After a successful code exchange for a user, [/youtube/status]
    reports that user connected, and the background task of a job
    submitted with that user identifier finds the credential file it looks
    for. *)
Theorem exchange_then_connected
    (E : Env) (self : YouTubeUploader.Uploader) (code user_id : string) (s s' : Sys) :
  YouTubeUploader.exchange_code_for_tokens E self code user_id s = (Ok true, s') →
  Main.youtube_status user_id s' = (Ok (true, "YouTube is connected and ready"), s')
  ∧ ∀ req, Main.userId req = user_id → is_Some (fs s' !! Main.creds_path_of req).
Proof.
  intros Hrun.
  assert (Hfile : is_Some (fs s' !! YouTubeUploader.creds_path_for user_id)).
  { unfold YouTubeUploader.exchange_code_for_tokens, try_catch in Hrun.
    destruct (YouTubeUploader.exchange_try E self code user_id s) as [r s1] eqn:Htry.
    pose proof (post_run _ _ _ _ _ (exchange_try_cases E self code user_id s) Htry)
      as (_ & [(e & -> & _)|Hok]); [discriminate|].
    destruct Hok as (resp & tokens & a & t & ei & sc & _ & _ & _ & _ & _ & _ & _ & _
                       & -> & _ & Hfs).
    injection Hrun as <-. rewrite Hfs, lookup_insert_eq. eauto. }
  split.
  - unfold Main.youtube_status, bind, path_exists, gets, ret.
    fold (YouTubeUploader.creds_path_for user_id).
    rewrite bool_decide_eq_true_2 by done. by destruct s'.
  - intros req <-. exact Hfile.
Qed.

Lemma exchange_then_connected_witness :
  fst (Main.youtube_status "u2"
         (snd (YouTubeUploader.exchange_code_for_tokens
                 (Demo.env Demo.probe_ok Demo.encode_ok Demo.net_exchange_ok)
                 Demo.uploader "code" "u2" (Demo.sys0 (Demo.creds JNull 0)))))
  = Ok (true, "YouTube is connected and ready").
Proof.
  destruct (exchange_then_connected
              (Demo.env Demo.probe_ok Demo.encode_ok Demo.net_exchange_ok)
              Demo.uploader "code" "u2" (Demo.sys0 (Demo.creds JNull 0))
              (snd (YouTubeUploader.exchange_code_for_tokens
                      (Demo.env Demo.probe_ok Demo.encode_ok Demo.net_exchange_ok)
                      Demo.uploader "code" "u2" (Demo.sys0 (Demo.creds JNull 0)))))
    as [Hstatus _].
  - vm_compute. reflexivity.
  - by rewrite Hstatus.
Defined.

(** X17. Connect, then publish within the lifetime of the token: when the
    code exchange succeeds (a full token bundle with a numeric
    [expires_in], stored in a credential file that could be opened) and at
    the next clock reading the age of the token, the float [now -
    created_at], is not greater than [expires_in], [upload_video] for that
    user sends no refresh request and its initiation carries the access
    token obtained by the exchange. *)
Theorem exchange_then_upload_uses_new_token
    (E : Env) (self : YouTubeUploader.Uploader) (code user_id video_path : string)
    (metadata : MetadataGenerator.Metadata) (s : Sys)
    (resp : Response) (tokens : gmap string json)
    (access_token token_type scope : json) (lifetime : Q)
    (token_age : Binary64.double) :
  http E (log s) (YouTubeUploader.exchange_request self code) = HttpResp resp →
  json_body resp = Some tokens →
  tokens !! "error" = None →
  tokens !! "access_token" = Some access_token →
  tokens !! "token_type" = Some token_type →
  tokens !! "expires_in" = Some (JNum lifetime) →
  tokens !! "scope" = Some scope →
  open_error E (YouTubeUploader.creds_path_for user_id) = None →
  Binary64.sub (clock E (S (ticks s))) (clock E (ticks s)) = Some token_age →
  Binary64.gtb token_age lifetime = false →
  ∃ s1 res s2,
    YouTubeUploader.exchange_code_for_tokens E self code user_id s = (Ok true, s1)
    ∧ YouTubeUploader.upload_video E self video_path metadata
        (YouTubeUploader.creds_path_for user_id) s1 = (Ok res, s2)
    ∧ fs s2 = fs s1
    ∧ (log s2 = (log s ++ [YouTubeUploader.exchange_request self code;
                           YouTubeUploader.init_request access_token E metadata])%list
       ∨ ∃ loc data,
           log s2 = (log s ++ [YouTubeUploader.exchange_request self code;
                               YouTubeUploader.init_request access_token E metadata;
                               YouTubeUploader.transfer_request loc data])%list).
Proof.
  intros Hhttp Hbody Herr Ha Ht Hei Hsc Hopen Hage Hfresh.
  destruct (exchange_success_run E self code user_id s resp tokens _ _ _ _
              Hhttp Hbody Herr Ha Ht Hei Hsc Hopen) as (s1 & Hrun & Hticks & Hlog & Hfs).
  destruct (upload_fresh_shape E self video_path metadata
              (YouTubeUploader.creds_path_for user_id) s1
              (<["access_token" := access_token]>
               (<["refresh_token" := default JNull (tokens !! "refresh_token")]>
                (<["token_type" := token_type]>
                 (<["expires_in" := JNum lifetime]>
                  (<["scope" := scope]>
                   (<["created_at" := JNum (clock E (ticks s))]> ∅))))))
              (clock E (ticks s)) lifetime access_token token_age)
    as (res & s2 & Hupload & Hfs2 & Hlog2).
  - rewrite Hfs. apply lookup_insert_eq.
  - by simplify_map_eq.
  - by simplify_map_eq.
  - by simplify_map_eq.
  - by rewrite Hticks.
  - exact Hfresh.
  - exists s1, res, s2. split_and!; try done.
    rewrite Hlog in Hlog2.
    destruct Hlog2 as [Hlog2|(loc & data & Hlog2)]; rewrite Hlog2, <- app_assoc;
      [by left|right; by exists loc, data].
Qed.

(** The upload follows the exchange by one second, the token lasts 3599. *)
Lemma exchange_then_upload_uses_new_token_witness :
  Binary64.sub (clock Demo.env_ok 1) (clock Demo.env_ok 0) = Some (Binary64.Finite 1)
  ∧ ∃ s1 res s2,
    YouTubeUploader.exchange_code_for_tokens
      (Demo.env Demo.probe_ok Demo.encode_ok Demo.net_exchange_ok)
      Demo.uploader "code" "u2" (Demo.sys0 (Demo.creds JNull 0)) = (Ok true, s1)
    ∧ YouTubeUploader.upload_video
        (Demo.env Demo.probe_ok Demo.encode_ok Demo.net_exchange_ok)
        Demo.uploader Demo.audio_path Demo.metadata
        (YouTubeUploader.creds_path_for "u2") s1 = (Ok res, s2)
    ∧ fs s2 = fs s1.
Proof.
  assert (Hage : Binary64.sub (clock Demo.env_ok 1) (clock Demo.env_ok 0)
                 = Some (Binary64.Finite 1)) by (vm_compute; reflexivity).
  split; [exact Hage|].
  pose proof (exchange_then_upload_uses_new_token
              (Demo.env Demo.probe_ok Demo.encode_ok Demo.net_exchange_ok)
              Demo.uploader "code" "u2" Demo.audio_path Demo.metadata
              (Demo.sys0 (Demo.creds JNull 0))
              {| status := 200; resp_headers := ∅; text := "";
                 json_body := Some (<["access_token" := JStr "first"]>
                                    (<["refresh_token" := JStr "r1"]>
                                     (<["token_type" := JStr "Bearer"]>
                                      (<["expires_in" := JNum 3599]>
                                       (<["scope" := JStr "upload"]> ∅))))) |}
              (<["access_token" := JStr "first"]>
               (<["refresh_token" := JStr "r1"]>
                (<["token_type" := JStr "Bearer"]>
                 (<["expires_in" := JNum 3599]>
                  (<["scope" := JStr "upload"]> ∅)))))
              (JStr "first") (JStr "Bearer") (JStr "upload") 3599
              (Binary64.Finite 1)) as H.
  specialize (H eq_refl eq_refl eq_refl eq_refl eq_refl eq_refl eq_refl eq_refl
                Hage eq_refl).
  destruct H as (s1 & res & s2 & Hex & Hup & Hfs & _).
  exists s1, res, s2. split; [exact Hex|]. split; [exact Hup|exact Hfs].
Defined.

(** X27. A full token bundle is lost when the credential file cannot be
    opened for writing (the user identifier is the [state] parameter of
    the callback; with a slash in it the path names a directory that does
    not exist): [exchange_code_for_tokens] has sent its request and
    received the tokens, yet it returns [False] and no file is written. *)
Theorem exchange_unwritable_path_stores_nothing
    (E : Env) (self : YouTubeUploader.Uploader) (code user_id : string) (s : Sys)
    (resp : Response) (tokens : gmap string json)
    (access_token token_type expires_in scope : json) (msg : string) :
  http E (log s) (YouTubeUploader.exchange_request self code) = HttpResp resp →
  json_body resp = Some tokens →
  tokens !! "error" = None →
  tokens !! "access_token" = Some access_token →
  tokens !! "token_type" = Some token_type →
  tokens !! "expires_in" = Some expires_in →
  tokens !! "scope" = Some scope →
  open_error E (YouTubeUploader.creds_path_for user_id) = Some msg →
  ∃ s', YouTubeUploader.exchange_code_for_tokens E self code user_id s = (Ok false, s')
        ∧ fs s' = fs s
        ∧ log s' = (log s ++ [YouTubeUploader.exchange_request self code])%list.
Proof.
  intros Hhttp Hbody Herr Ha Ht Hei Hsc Hopen.
  unfold YouTubeUploader.exchange_code_for_tokens, try_catch.
  destruct (YouTubeUploader.exchange_try E self code user_id s) as [r s'] eqn:Hrun.
  pose proof (post_run _ _ _ _ _ (exchange_try_cases E self code user_id s) Hrun)
    as (Hlog & [(e & -> & Hfs & _)|Hok]).
  - by exists s'.
  - destruct Hok as (resp' & tokens' & a & t & ei & sc & _ & _ & _ & _ & _ & _ & _
                       & Hopen' & _).
    congruence.
Qed.

(** The user identifier [a/b]: the directory [user_credentials/youtube_a]
    does not exist. *)
Lemma exchange_unwritable_path_stores_nothing_witness :
  open_error Demo.env_ok (YouTubeUploader.creds_path_for "a/b")
  = Some "[Errno 2] No such file or directory: 'user_credentials/youtube_a/b.json'"
  ∧ ∃ s', YouTubeUploader.exchange_code_for_tokens
            (Demo.env Demo.probe_ok Demo.encode_ok Demo.net_exchange_ok)
            Demo.uploader "code" "a/b" (Demo.sys0 (Demo.creds JNull 0))
          = (Ok false, s')
          ∧ fs s' = fs (Demo.sys0 (Demo.creds JNull 0)).
Proof.
  assert (Hopen : open_error Demo.env_ok (YouTubeUploader.creds_path_for "a/b")
                  = Some "[Errno 2] No such file or directory: 'user_credentials/youtube_a/b.json'")
    by (vm_compute; reflexivity).
  split; [exact Hopen|].
  destruct (exchange_unwritable_path_stores_nothing
              (Demo.env Demo.probe_ok Demo.encode_ok Demo.net_exchange_ok)
              Demo.uploader "code" "a/b" (Demo.sys0 (Demo.creds JNull 0))
              {| status := 200; resp_headers := ∅; text := "";
                 json_body := Some (<["access_token" := JStr "first"]>
                                    (<["refresh_token" := JStr "r1"]>
                                     (<["token_type" := JStr "Bearer"]>
                                      (<["expires_in" := JNum 3599]>
                                       (<["scope" := JStr "upload"]> ∅))))) |}
              (<["access_token" := JStr "first"]>
               (<["refresh_token" := JStr "r1"]>
                (<["token_type" := JStr "Bearer"]>
                 (<["expires_in" := JNum 3599]>
                  (<["scope" := JStr "upload"]> ∅)))))
              (JStr "first") (JStr "Bearer") (JNum 3599) (JStr "upload")
              "[Errno 2] No such file or directory: 'user_credentials/youtube_a/b.json'")
    as (s' & Hrun & Hfs & _);
    [reflexivity..|exact Hopen|].
  exists s'. split; [exact Hrun|exact Hfs].
Defined.

(** ** The submission endpoint *)

Lemma append_inj_l (p x y : string) : p +:+ x = p +:+ y → x = y.
Proof.
  induction p as [|a p IH]; cbn; [done|]. intros [= H]. by apply IH.
Qed.

(** The two uploads of one submission never share a path. *)
Lemma upload_paths_differ (job_id : string) (audioFile coverImage : Main.UploadFile) :
  Main.audio_path_of job_id audioFile ≠ Main.image_path_of job_id coverImage.
Proof.
  unfold Main.audio_path_of, Main.image_path_of. intros Heq.
  apply append_inj_l, append_inj_l in Heq. discriminate.
Qed.

(** X18. A submission whose audio part has no content type starting with
    [audio/] or [application/], or whose cover part has none starting with
    [image/], is answered with an [HTTPException] of status 500 (the
    exception of status 400 raised by the validation is caught by the
    endpoint's own handler and wrapped); no job is registered and no file
    is written. *)
Theorem invalid_submission_is_rejected
    (E : Env) (job_id createdAt : string) (req : Main.VideoRequest)
    (audioFile coverImage : Main.UploadFile) (w : Main.App) :
  Main.type_starts_with ["audio/"; "application/"] (Main.content_type audioFile) = false
  ∨ Main.type_starts_with ["image/"] (Main.content_type coverImage) = false →
  ∃ detail,
    Main.create_video E job_id createdAt req audioFile coverImage w
    = (Ok (Main.HTTPException 500 detail), w).
Proof.
  intros Hbad.
  unfold Main.create_video, Main.create_video_try, try_catch, bind.
  destruct (Main.type_starts_with ["audio/"; "application/"] (Main.content_type audioFile));
    cbn [negb]; [|by eexists].
  destruct Hbad as [?|Himage]; [done|]. rewrite Himage. by eexists.
Qed.

(** A text file sent as the audio part, and as the cover. *)
Lemma invalid_submission_is_rejected_witness :
  (∃ detail,
     Main.create_video Demo.env_ok "j7" "2025-01-01T00:00:00" Demo.req
       Demo.text_upload Demo.cover_upload Demo.empty_app
     = (Ok (Main.HTTPException 500 detail), Demo.empty_app))
  ∧ (∃ detail,
       Main.create_video Demo.env_ok "j7" "2025-01-01T00:00:00" Demo.req
         Demo.audio_upload Demo.text_upload Demo.empty_app
       = (Ok (Main.HTTPException 500 detail), Demo.empty_app)).
Proof.
  split.
  - apply (invalid_submission_is_rejected Demo.env_ok "j7" "2025-01-01T00:00:00" Demo.req
             Demo.text_upload Demo.cover_upload Demo.empty_app).
    left. reflexivity.
  - apply (invalid_submission_is_rejected Demo.env_ok "j7" "2025-01-01T00:00:00" Demo.req
             Demo.audio_upload Demo.text_upload Demo.empty_app).
    right. reflexivity.
Defined.

(** The run of the endpoint on a submission with valid content types:
    the job is registered first, then the two parts are stored, and the
    first [open] that raises ends the run with status 500. *)
Lemma create_video_run
    (E : Env) (job_id createdAt : string) (req : Main.VideoRequest)
    (audioFile coverImage : Main.UploadFile) (w : Main.App) :
  Main.type_starts_with ["audio/"; "application/"] (Main.content_type audioFile) = true →
  Main.type_starts_with ["image/"] (Main.content_type coverImage) = true →
  Main.create_video E job_id createdAt req audioFile coverImage w
  = match open_error E (Main.audio_path_of job_id audioFile) with
    | Some msg =>
        (Ok (Main.HTTPException 500 ("Failed to start video creation: " +:+ msg)),
         {| Main.app_sys := Main.app_sys w;
            Main.jobs := <[job_id := Main.new_job job_id createdAt req]> (Main.jobs w) |})
    | None =>
        match open_error E (Main.image_path_of job_id coverImage) with
        | Some msg =>
            (Ok (Main.HTTPException 500 ("Failed to start video creation: " +:+ msg)),
             {| Main.app_sys :=
                  {| fs := <[Main.audio_path_of job_id audioFile := Main.content audioFile]>
                             (fs (Main.app_sys w));
                     log := log (Main.app_sys w);
                     ticks := ticks (Main.app_sys w) |};
                Main.jobs := <[job_id := Main.new_job job_id createdAt req]> (Main.jobs w) |})
        | None =>
            (Ok (Main.Reply
                   {| Main.reply_jobId := job_id;
                      Main.reply_status := "processing";
                      Main.reply_message := "Video creation started";
                      Main.reply_checkStatusUrl := "/video/status/" +:+ job_id;
                      Main.task_audio_path := Main.audio_path_of job_id audioFile;
                      Main.task_image_path := Main.image_path_of job_id coverImage;
                      Main.task_metadata := req |}),
             {| Main.app_sys :=
                  {| fs := <[Main.image_path_of job_id coverImage := Main.content coverImage]>
                             (<[Main.audio_path_of job_id audioFile := Main.content audioFile]>
                                (fs (Main.app_sys w)));
                     log := log (Main.app_sys w);
                     ticks := ticks (Main.app_sys w) |};
                Main.jobs := <[job_id := Main.new_job job_id createdAt req]> (Main.jobs w) |})
        end
    end.
Proof.
  intros Haudio Himage.
  unfold Main.create_video, Main.create_video_try, try_catch, bind.
  rewrite Haudio, Himage. unfold Main.lift, create_file.
  cbn [negb modify Main.app_sys Main.jobs].
  destruct (open_error E (Main.audio_path_of job_id audioFile)) as [msg|]; [reflexivity|].
  destruct (open_error E (Main.image_path_of job_id coverImage)) as [msg|]; reflexivity.
Qed.

Lemma valid_submission_run
    (E : Env) (job_id createdAt : string) (req : Main.VideoRequest)
    (audioFile coverImage : Main.UploadFile) (w : Main.App) :
  Main.type_starts_with ["audio/"; "application/"] (Main.content_type audioFile) = true →
  Main.type_starts_with ["image/"] (Main.content_type coverImage) = true →
  open_error E (Main.audio_path_of job_id audioFile) = None →
  open_error E (Main.image_path_of job_id coverImage) = None →
  Main.create_video E job_id createdAt req audioFile coverImage w
  = (Ok (Main.Reply
           {| Main.reply_jobId := job_id;
              Main.reply_status := "processing";
              Main.reply_message := "Video creation started";
              Main.reply_checkStatusUrl := "/video/status/" +:+ job_id;
              Main.task_audio_path := Main.audio_path_of job_id audioFile;
              Main.task_image_path := Main.image_path_of job_id coverImage;
              Main.task_metadata := req |}),
     {| Main.app_sys :=
          {| fs := <[Main.image_path_of job_id coverImage := Main.content coverImage]>
                     (<[Main.audio_path_of job_id audioFile := Main.content audioFile]>
                        (fs (Main.app_sys w)));
             log := log (Main.app_sys w);
             ticks := ticks (Main.app_sys w) |};
        Main.jobs := <[job_id := Main.new_job job_id createdAt req]> (Main.jobs w) |}).
Proof.
  intros Haudio Himage Hopen1 Hopen2.
  rewrite create_video_run by done. by rewrite Hopen1, Hopen2.
Qed.

(** X19. A submission with valid content types, whose two upload paths can
    be opened for writing, is answered with the job identifier and status
    [processing]. The job table then holds, under that identifier, a
    record with status [processing] and progress 0 that a status query
    returns; the two parts are stored under two different paths, which are
    the ones handed to the background task; every other job and every
    other file is as it was. *)
Theorem valid_submission_registers_job
    (E : Env) (job_id createdAt : string) (req : Main.VideoRequest)
    (audioFile coverImage : Main.UploadFile) (w : Main.App) :
  Main.type_starts_with ["audio/"; "application/"] (Main.content_type audioFile) = true →
  Main.type_starts_with ["image/"] (Main.content_type coverImage) = true →
  open_error E (Main.audio_path_of job_id audioFile) = None →
  open_error E (Main.image_path_of job_id coverImage) = None →
  ∃ reply w1 job,
    Main.create_video E job_id createdAt req audioFile coverImage w
    = (Ok (Main.Reply reply), w1)
    ∧ Main.reply_jobId reply = job_id
    ∧ Main.reply_status reply = "processing"
    ∧ Main.task_metadata reply = req
    ∧ Main.get_job_status job_id w1 = (Ok (Main.Reply job), w1)
    ∧ job !! "status" = Some (JStr "processing")
    ∧ job !! "progress" = Some (JNum 0)
    ∧ job !! "jobId" = Some (JStr job_id)
    ∧ Main.task_audio_path reply ≠ Main.task_image_path reply
    ∧ fs (Main.app_sys w1) !! Main.task_audio_path reply = Some (Main.content audioFile)
    ∧ fs (Main.app_sys w1) !! Main.task_image_path reply = Some (Main.content coverImage)
    ∧ (∀ p, p ≠ Main.task_audio_path reply → p ≠ Main.task_image_path reply →
            fs (Main.app_sys w1) !! p = fs (Main.app_sys w) !! p)
    ∧ (∀ other, other ≠ job_id → Main.jobs w1 !! other = Main.jobs w !! other).
Proof.
  intros Haudio Himage Hopen1 Hopen2.
  eexists _, _, (Main.new_job job_id createdAt req).
  split; [by apply valid_submission_run|].
  cbn [Main.reply_jobId Main.reply_status Main.task_metadata Main.task_audio_path
         Main.task_image_path Main.app_sys Main.jobs fs].
  pose proof (upload_paths_differ job_id audioFile coverImage) as Hne.
  split_and!; try done; try (unfold Main.new_job; by simplify_map_eq).
  - unfold Main.get_job_status, bind, gets. cbn [Main.jobs].
    by rewrite lookup_insert_eq.
  - intros p Hp1 Hp2. by rewrite !lookup_insert_ne.
  - intros other Hother. by rewrite lookup_insert_ne.
Qed.

Lemma valid_submission_registers_job_witness :
  ∃ reply w1 job,
    Main.create_video Demo.env_ok "j7" "2025-01-01T00:00:00" Demo.req
      Demo.audio_upload Demo.cover_upload Demo.empty_app = (Ok (Main.Reply reply), w1)
    ∧ Main.get_job_status "j7" w1 = (Ok (Main.Reply job), w1)
    ∧ job !! "status" = Some (JStr "processing")
    ∧ Main.task_audio_path reply = "uploads/j7_audio_beat.mp3"
    ∧ Main.task_image_path reply = "uploads/j7_cover_art.png".
Proof.
  destruct (valid_submission_registers_job Demo.env_ok "j7" "2025-01-01T00:00:00" Demo.req
              Demo.audio_upload Demo.cover_upload Demo.empty_app)
    as (reply & w1 & job & Hrun & _ & _ & _ & Hstatus & Hprocessing & _); try reflexivity.
  exists reply, w1, job. split_and!; try done.
  - rewrite valid_submission_run in Hrun by reflexivity.
    injection Hrun as <- _. reflexivity.
  - rewrite valid_submission_run in Hrun by reflexivity.
    injection Hrun as <- _. reflexivity.
Defined.

(** X26. The job is registered before the uploads are stored: when the
    content types are valid but one of the two upload paths cannot be
    opened for writing (a file name with a slash names a directory that
    does not exist), the endpoint answers with an [HTTPException] of status
    500 and hands no task over, yet the job is in the table with status
    [processing], where a status query finds it. The cover is not stored;
    the audio is stored, and left behind, when it is the cover's path that
    fails. *)
Theorem unstorable_submission_leaves_job
    (E : Env) (job_id createdAt : string) (req : Main.VideoRequest)
    (audioFile coverImage : Main.UploadFile) (w : Main.App) :
  Main.type_starts_with ["audio/"; "application/"] (Main.content_type audioFile) = true →
  Main.type_starts_with ["image/"] (Main.content_type coverImage) = true →
  is_Some (open_error E (Main.audio_path_of job_id audioFile))
  ∨ is_Some (open_error E (Main.image_path_of job_id coverImage)) →
  ∃ detail w1 job,
    Main.create_video E job_id createdAt req audioFile coverImage w
    = (Ok (Main.HTTPException 500 detail), w1)
    ∧ Main.get_job_status job_id w1 = (Ok (Main.Reply job), w1)
    ∧ job !! "status" = Some (JStr "processing")
    ∧ job !! "progress" = Some (JNum 0)
    ∧ (∀ other, other ≠ job_id → Main.jobs w1 !! other = Main.jobs w !! other)
    ∧ (∀ p, p ≠ Main.audio_path_of job_id audioFile →
            fs (Main.app_sys w1) !! p = fs (Main.app_sys w) !! p)
    ∧ (is_Some (open_error E (Main.audio_path_of job_id audioFile)) →
       fs (Main.app_sys w1) = fs (Main.app_sys w))
    ∧ (open_error E (Main.audio_path_of job_id audioFile) = None →
       fs (Main.app_sys w1) !! Main.audio_path_of job_id audioFile
       = Some (Main.content audioFile)).
Proof.
  intros Haudio Himage Hfail.
  rewrite create_video_run by done.
  destruct (open_error E (Main.audio_path_of job_id audioFile)) as [msg|] eqn:Hopen1.
  - eexists _, _, (Main.new_job job_id createdAt req). split; [reflexivity|].
    cbn [Main.app_sys Main.jobs fs].
    split_and!;
      first [ done
            | unfold Main.new_job; by simplify_map_eq
            | unfold Main.get_job_status, bind, gets; cbn [Main.jobs];
              by rewrite lookup_insert_eq
            | intros other Hother; by rewrite lookup_insert_ne ].
  - destruct Hfail as [[? [=]]|[msg Hopen2]]. rewrite Hopen2.
    eexists _, _, (Main.new_job job_id createdAt req). split; [reflexivity|].
    cbn [Main.app_sys Main.jobs fs].
    split_and!;
      first [ done
            | unfold Main.new_job; by simplify_map_eq
            | unfold Main.get_job_status, bind, gets; cbn [Main.jobs];
              by rewrite lookup_insert_eq
            | intros other Hother; by rewrite lookup_insert_ne
            | by intros [? [=]]
            | intros _; apply lookup_insert_eq ].
Qed.

(** An audio part whose file name is [sub/beat.mp3]: the directory
    [uploads/j7_audio_sub] does not exist. *)
Lemma unstorable_submission_leaves_job_witness :
  open_error Demo.env_ok (Main.audio_path_of "j7" Demo.nested_upload)
  = Some "[Errno 2] No such file or directory: 'uploads/j7_audio_sub/beat.mp3'"
  ∧ ∃ detail w1 job,
      Main.create_video Demo.env_ok "j7" "2025-01-01T00:00:00" Demo.req
        Demo.nested_upload Demo.cover_upload Demo.empty_app
      = (Ok (Main.HTTPException 500 detail), w1)
      ∧ Main.get_job_status "j7" w1 = (Ok (Main.Reply job), w1)
      ∧ job !! "status" = Some (JStr "processing")
      ∧ fs (Main.app_sys w1) = ∅.
Proof.
  assert (Hopen : open_error Demo.env_ok (Main.audio_path_of "j7" Demo.nested_upload)
                  = Some "[Errno 2] No such file or directory: 'uploads/j7_audio_sub/beat.mp3'")
    by (vm_compute; reflexivity).
  split; [exact Hopen|].
  destruct (unstorable_submission_leaves_job Demo.env_ok "j7" "2025-01-01T00:00:00"
              Demo.req Demo.nested_upload Demo.cover_upload Demo.empty_app)
    as (detail & w1 & job & Hrun & Hquery & Hstatus & _ & _ & _ & Hfs & _).
  - reflexivity.
  - reflexivity.
  - left. rewrite Hopen. by eexists.
  - exists detail, w1, job. split_and!; [exact Hrun|exact Hquery|exact Hstatus|].
    apply Hfs. rewrite Hopen. by eexists.
Defined.

(** X20. From submission to the end of the background task: for a valid
    submission whose two upload paths can be opened for writing, running
    the task that the endpoint scheduled ends normally; the job is then
    [failed] or [completed], still carries its identifier and request
    fields, both uploaded inputs are removed, and no other job has
    changed. *)
Theorem submission_then_task
    (E : Env) (job_id createdAt : string) (req : Main.VideoRequest)
    (audioFile coverImage : Main.UploadFile) (w : Main.App) :
  Main.type_starts_with ["audio/"; "application/"] (Main.content_type audioFile) = true →
  Main.type_starts_with ["image/"] (Main.content_type coverImage) = true →
  open_error E (Main.audio_path_of job_id audioFile) = None →
  open_error E (Main.image_path_of job_id coverImage) = None →
  ∃ reply w1 w2 job,
    Main.create_video E job_id createdAt req audioFile coverImage w
    = (Ok (Main.Reply reply), w1)
    ∧ Main.process_video_background E (Main.reply_jobId reply)
        (Main.task_audio_path reply) (Main.task_image_path reply)
        (Main.task_metadata reply) w1 = (Ok tt, w2)
    ∧ Main.jobs w2 !! job_id = Some job
    ∧ (job !! "status" = Some (JStr "failed")
       ∨ job !! "status" = Some (JStr "completed"))
    ∧ job !! "jobId" = Some (JStr job_id)
    ∧ job !! "beatName" = Some (JStr (Main.beatName req))
    ∧ job !! "userId" = Some (JStr (Main.userId req))
    ∧ fs (Main.app_sys w2) !! Main.task_audio_path reply = None
    ∧ fs (Main.app_sys w2) !! Main.task_image_path reply = None
    ∧ (∀ other, other ≠ job_id → Main.jobs w2 !! other = Main.jobs w !! other).
Proof.
  intros Haudio Himage Hopen1 Hopen2.
  eexists _, _. 
  assert (Hjob : Main.jobs
                   {| Main.app_sys :=
                        {| fs := <[Main.image_path_of job_id coverImage := Main.content coverImage]>
                                   (<[Main.audio_path_of job_id audioFile := Main.content audioFile]>
                                      (fs (Main.app_sys w)));
                           log := log (Main.app_sys w);
                           ticks := ticks (Main.app_sys w) |};
                      Main.jobs := <[job_id := Main.new_job job_id createdAt req]> (Main.jobs w) |}
                 !! job_id = Some (Main.new_job job_id createdAt req)).
  { cbn [Main.jobs]. apply lookup_insert_eq. }
  match type of Hjob with
  | Main.jobs ?w1 !! _ = _ =>
      destruct (Main.process_video_background E job_id
                  (Main.audio_path_of job_id audioFile)
                  (Main.image_path_of job_id coverImage) req w1) as [r w2] eqn:Hrun;
      pose proof (post_run _ _ _ _ _
                    (process_video_background_world E job_id _ _ req w1 _ Hjob) Hrun)
        as (-> & Hgone1 & Hgone2 & Hothers & job & Hjob2 & Hkeys & _);
      pose proof (post_run _ _ _ _ _
                    (process_video_background_cases E job_id _ _ req w1 _ Hjob) Hrun)
        as (_ & job' & Hjob' & Hcases)
  end.
  rewrite Hjob2 in Hjob'. injection Hjob' as <-.
  exists w2, job.
  split; [by apply valid_submission_run|].
  cbn [Main.reply_jobId Main.task_audio_path Main.task_image_path Main.task_metadata].
  split; [exact Hrun|]. split; [exact Hjob2|].
  assert (Hkey : ∀ k v, Main.new_job job_id createdAt req !! k = Some v →
                        k ∉ ["progress"; "message"; "status"; "error"; "videoPath";
                             "youtubeUrl"; "videoId"; "youtubeError"] →
                        job !! k = Some v).
  { intros k v Hv Hk. by rewrite Hkeys. }
  split_and!; try done.
  - destruct (Main.render_stage E _ _ req _) as [[[p size duration|e]|e] s2];
      destruct Hcases as (Hstatus & _); [by right|by left|by left].
  - apply Hkey; [unfold Main.new_job; by simplify_map_eq|].
    apply (bool_decide_unpack _). vm_compute. exact I.
  - apply Hkey; [unfold Main.new_job; by simplify_map_eq|].
    apply (bool_decide_unpack _). vm_compute. exact I.
  - apply Hkey; [unfold Main.new_job; by simplify_map_eq|].
    apply (bool_decide_unpack _). vm_compute. exact I.
  - intros other Hother. rewrite Hothers by done. cbn [Main.jobs].
    by rewrite lookup_insert_ne.
Qed.

Lemma submission_then_task_witness :
  ∃ reply w1 w2 job,
    Main.create_video Demo.env_ok "j7" "2025-01-01T00:00:00" Demo.req
      Demo.audio_upload Demo.cover_upload Demo.empty_app = (Ok (Main.Reply reply), w1)
    ∧ Main.process_video_background Demo.env_ok (Main.reply_jobId reply)
        (Main.task_audio_path reply) (Main.task_image_path reply)
        (Main.task_metadata reply) w1 = (Ok tt, w2)
    ∧ Main.jobs w2 !! "j7" = Some job
    ∧ fs (Main.app_sys w2) !! Main.task_audio_path reply = None.
Proof.
  destruct (submission_then_task Demo.env_ok "j7" "2025-01-01T00:00:00" Demo.req
              Demo.audio_upload Demo.cover_upload Demo.empty_app)
    as (reply & w1 & w2 & job & Hcreate & Hrun & Hjob & _ & _ & _ & _ & Hgone & _);
    try reflexivity.
  by exists reply, w1, w2, job.
Defined.

(** ** The renderer and the files around it *)

Lemma create_video_frame (E : Env)
    (audio_path image_path output_path title : string) (s : Sys) :
  post (VideoCreator.create_video E audio_path image_path output_path title) s (λ r s',
    ∀ p, p ≠ output_path → p ≠ VideoCreator.processed_path_of image_path →
         fs s' !! p = fs s !! p).
Proof.
  unfold VideoCreator.create_video.
  run_step. run_step.
  eapply post_mono; [apply process_image_cases|].
  intros r s1 [(opened & Hopen & -> & ->)|(Hno & [e ->] & ->)]; run_simpl.
  2: { by run_step. }
  run_step.
  eapply post_mono; [apply get_audio_duration_cases|].
  intros r s2 [-> _].
  destruct r as [duration|e]; run_simpl.
  2: { run_step. intros p _ Hp. cbn [set_fs fs]. by rewrite lookup_insert_ne. }
  run_step.
  eapply post_mono; [apply create_video_with_ffmpeg_cases|].
  intros r s3 (Hfs & _).
  cbn [set_fs fs] in Hfs.
  assert (Hframe : ∀ p, p ≠ output_path → p ≠ VideoCreator.processed_path_of image_path →
                        fs s3 !! p = fs s !! p).
  { intros p Hout Hscratch. rewrite Hfs. unfold VideoCreator.fs_after_encode.
    destruct (ffmpeg E _ _) as [msg|returncode stderr [n|]];
      by rewrite ?lookup_insert_ne. }
  destruct r as [res|e]; run_simpl; repeat run_step; try done.
  intros p Hout Hscratch. rewrite lookup_delete_ne by done. by apply Hframe.
Qed.

(** X21. [create_video] always returns a result dict; it sends no request
    and does not read the clock, and the only paths whose content it can
    change are the output path and its own scratch path: the audio and
    image inputs, and every other file, are as they were. *)
Theorem renderer_touches_output_and_scratch_only
    (E : Env) (audio_path image_path output_path title : string) (s : Sys) :
  ∃ res s',
    VideoCreator.create_video E audio_path image_path output_path title s = (Ok res, s')
    ∧ log s' = log s ∧ ticks s' = ticks s
    ∧ ∀ p, p ≠ output_path → p ≠ VideoCreator.processed_path_of image_path →
           fs s' !! p = fs s !! p.
Proof.
  destruct (VideoCreator.create_video E audio_path image_path output_path title s)
    as [r s'] eqn:Hrun.
  pose proof (post_run _ _ _ _ _ (create_video_cases _ _ _ _ _ _) Hrun)
    as (Hlog & Hticks & res & -> & _).
  pose proof (post_run _ _ _ _ _ (create_video_frame _ _ _ _ _ _) Hrun) as Hframe.
  by exists res, s'.
Qed.





(** X24. The crop box of [_process_image] lies inside the image and is
    centred in it: it is a square of side [min(width, height)], it starts
    at zero along the shorter side, and along each side the margin after
    the box exceeds the margin before it by zero or one pixel. *)
Theorem crop_box_inside_and_centred (img : Image) :
  let side := Z.min (width img) (height img) in
  (0 ≤ VideoCreator.left img)%Z ∧ (VideoCreator.right img ≤ width img)%Z
  ∧ (0 ≤ VideoCreator.top img)%Z ∧ (VideoCreator.bottom img ≤ height img)%Z
  ∧ (VideoCreator.right img - VideoCreator.left img = side)%Z
  ∧ (VideoCreator.bottom img - VideoCreator.top img = side)%Z
  ∧ (VideoCreator.left img = 0 ∨ VideoCreator.top img = 0)%Z
  ∧ (0 ≤ (width img - VideoCreator.right img) - VideoCreator.left img ≤ 1)%Z
  ∧ (0 ≤ (height img - VideoCreator.bottom img) - VideoCreator.top img ≤ 1)%Z.
Proof.
  unfold VideoCreator.right, VideoCreator.bottom, VideoCreator.left, VideoCreator.top,
    VideoCreator.min_dimension.
  cbv zeta.
  pose proof (Z.div_mod (width img - Z.min (width img) (height img)) 2 ltac:(lia)).
  pose proof (Z.mod_pos_bound (width img - Z.min (width img) (height img)) 2 ltac:(lia)).
  pose proof (Z.div_mod (height img - Z.min (width img) (height img)) 2 ltac:(lia)).
  pose proof (Z.mod_pos_bound (height img - Z.min (width img) (height img)) 2 ltac:(lia)).
  destruct (Z.min_spec (width img) (height img)) as [[Hlt Hmin]|[Hle Hmin]];
    rewrite Hmin in *; rewrite ?Z.sub_diag in *;
    change (0 `div` 2)%Z with 0%Z in *; change (0 `mod` 2)%Z with 0%Z in *; lia.
Qed.

(** ** Tags: nothing is lost *)

Lemma unique_loop_length (tags : list string) :
  ∀ (seen : gset string) (acc : list string),
    (List.length (MetadataGenerator.unique_loop tags seen acc)
     ≤ List.length acc + List.length tags)%nat.
Proof.
  induction tags as [|tag tags IH]; intros seen acc; cbn [MetadataGenerator.unique_loop].
  - lia.
  - destruct (decide (tag ∈ seen)).
    + specialize (IH seen acc). cbn [List.length]. lia.
    + specialize (IH ({[tag]} ∪ seen) (acc ++ [tag])%list).
      rewrite length_app in IH. cbn [List.length] in *. lia.
Qed.

Lemma unique_loop_elem (tags : list string) :
  ∀ (seen : gset string) (acc : list string),
    (∀ x, x ∈ acc ↔ x ∈ seen) →
    ∀ x, x ∈ MetadataGenerator.unique_loop tags seen acc ↔ x ∈ acc ∨ x ∈ tags.
Proof.
  induction tags as [|tag tags IH]; intros seen acc Hseen x;
    cbn [MetadataGenerator.unique_loop].
  - rewrite elem_of_nil. tauto.
  - destruct (decide (tag ∈ seen)) as [Hin|Hnin].
    + rewrite (IH seen acc Hseen), elem_of_cons.
      split; [tauto|]. intros [?|[->|?]]; try tauto. left. by apply Hseen.
    + rewrite (IH ({[tag]} ∪ seen) (acc ++ [tag])%list).
      * rewrite elem_of_app, list_elem_of_singleton, elem_of_cons. tauto.
      * intros y. rewrite elem_of_app, list_elem_of_singleton, elem_of_union,
          elem_of_singleton, Hseen. tauto.
Qed.

(** X25. No candidate tag is lost: the result of [_generate_tags] contains
    each of the 21 tags built from the producer name, the artist type and
    the fixed list, and, when the artist type contains a space, the two
    tags built from the artist type without spaces. It has at most 23
    entries, so the cut at 50 never removes one. *)
Theorem generate_tags_keeps_every_candidate
    (lower : string → string) (artist_type producer_name : string) :
  let tags := MetadataGenerator._generate_tags lower artist_type producer_name in
  (1 ≤ List.length tags ≤ 23)%nat
  ∧ (∀ x, x ∈ [lower producer_name;
               lower artist_type +:+ " type beat";
               "free " +:+ lower artist_type +:+ " type beat";
               lower artist_type +:+ " type beat 2025";
               "free " +:+ lower artist_type +:+ " type beat 2025";
               "type beat"; "free type beat"; "type beat 2025"; "free type beat 2025";
               "beat"; "beats"; "type beats"; "free type beats"; "instrumental";
               "free instrumental"; "rap beat"; "hip hop beat"; "trap beat";
               "free beat"; "beats to rap to"; "rap instrumental"] →
          x ∈ tags)
  ∧ (Str.contains_char " " artist_type = true →
     lower (Str.replace_char " " "" artist_type) +:+ " type beat" ∈ tags
     ∧ "free " +:+ lower (Str.replace_char " " "" artist_type) +:+ " type beat" ∈ tags)
  ∧ (Str.contains_char " " artist_type = false → (List.length tags ≤ 21)%nat).
Proof.
  intros tags. subst tags. unfold MetadataGenerator._generate_tags.
  assert (Hempty : ∀ x : string, x ∈ ([] : list string) ↔ x ∈ (∅ : gset string)).
  { intros x. rewrite elem_of_nil. split; [done|]. apply not_elem_of_empty. }
  destruct (Str.contains_char " " artist_type).
  - match goal with
    | |- context [MetadataGenerator.unique_loop ?l ∅ []] =>
        pose proof (unique_loop_length l ∅ []) as Hlen;
        pose proof (unique_loop_elem l ∅ [] Hempty) as Helem;
        pose proof (generate_tags_head lower artist_type producer_name) as Hhead;
        set (result := MetadataGenerator.unique_loop l ∅ []) in *
    end.
    cbn [List.length app] in Hlen.
    rewrite take_ge by lia.
    split_and!.
    + destruct result; [|cbn [List.length]; lia].
      exfalso. specialize (Helem (lower producer_name)).
      rewrite elem_of_nil in Helem. apply Helem. right. apply list_elem_of_here.
    + lia.
    + intros x Hx. apply Helem. right. apply elem_of_app. by left.
    + intros _. split; apply Helem; right; apply elem_of_app; right.
      * apply list_elem_of_here.
      * apply list_elem_of_further, list_elem_of_here.
    + done.
  - match goal with
    | |- context [MetadataGenerator.unique_loop ?l ∅ []] =>
        pose proof (unique_loop_length l ∅ []) as Hlen;
        pose proof (unique_loop_elem l ∅ [] Hempty) as Helem;
        set (result := MetadataGenerator.unique_loop l ∅ []) in *
    end.
    cbn [List.length] in Hlen.
    rewrite take_ge by lia.
    split_and!.
    + destruct result; [|cbn [List.length]; lia].
      exfalso. specialize (Helem (lower producer_name)).
      rewrite elem_of_nil in Helem. apply Helem. right. apply list_elem_of_here.
    + lia.
    + intros x Hx. apply Helem. by right.
    + done.
    + intros _. lia.
Qed.
